(** * Mirror crawler and chunk splitter: a shallow embedding

    The two scripts of the repository, [download_ubuntu_ports.py] and
    [split_large_files.py], are embedded as Rocq functions.  Python [str]
    values are Rocq strings (their UTF-8 bytes, whose lexicographic order is
    the order of the code points), file contents are lists of bytes, Python
    integers are [Z], the local file system is a finite map from paths to
    contents, and exceptions are an explicit result type threaded through a
    small state monad. *)

From Stdlib Require Import ZArith Lia Bool Ascii String List.
From Stdlib Require Import Decimal DecimalString DecimalNat.
From stdpp Require Import base option list gmap strings.

Local Open Scope string_scope.

(** ** Python strings *)

Module PyStr.

(** [s.rstrip(c)] for a one-character argument: every trailing [c] goes. *)
Fixpoint rstrip (c : ascii) (s : string) : string :=
  match s with
  | EmptyString => EmptyString
  | String a s' =>
      match rstrip c s' with
      | EmptyString => if Ascii.eqb a c then EmptyString else String a EmptyString
      | r => String a r
      end
  end.

(** [s.startswith(p)]. *)
Fixpoint startswith (s p : string) {struct p} : bool :=
  match p, s with
  | EmptyString, _ => true
  | String _ _, EmptyString => false
  | String x p', String y s' => Ascii.eqb x y && startswith s' p'
  end.

(** [s.endswith(p)]. *)
Definition endswith (s p : string) : bool :=
  startswith (String.rev s) (String.rev p).

(** [s.replace(old, new, 1)]: the first occurrence of [old], if any. *)
Fixpoint replace_first (s old new : string) : string :=
  if startswith s old then new ++ String.substring (String.length old) (String.length s) s
  else
    match s with
    | EmptyString => EmptyString
    | String c s' => String c (replace_first s' old new)
    end.

(** [sub in s]. *)
Fixpoint contains (sub s : string) : bool :=
  startswith s sub ||
  match s with
  | EmptyString => false
  | String _ s' => contains sub s'
  end.

(** [a <= b] on [str]: the first differing character decides, a proper
    prefix is smaller. *)
Fixpoint str_le (a b : string) : bool :=
  match a, b with
  | EmptyString, _ => true
  | String _ _, EmptyString => false
  | String x a', String y b' =>
      if (nat_of_ascii x <? nat_of_ascii y)%nat then true
      else if (nat_of_ascii y <? nat_of_ascii x)%nat then false
      else str_le a' b'
  end.

(** [s.split(c)] for a one-character separator. *)
Fixpoint split (c : ascii) (s : string) : list string :=
  match s with
  | EmptyString => [EmptyString]
  | String a s' =>
      if Ascii.eqb a c then EmptyString :: split c s'
      else
        match split c s' with
        | seg :: rest => String a seg :: rest
        | [] => [String a EmptyString]
        end
  end.

(** Truthiness of an optional string ([None] and [''] are falsy). *)
Definition truthy (o : option string) : bool :=
  match o with
  | Some (String _ _) => true
  | _ => false
  end.

(** [f"{n:03d}"] for a non-negative [n]: decimal digits, padded on the left
    with zeros up to width three. *)
Definition pad3 (d : uint) : uint :=
  match Nat.sub 3 (nb_digits d) with
  | 0%nat => d
  | 1%nat => D0 d
  | 2%nat => D0 (D0 d)
  | _ => D0 (D0 (D0 d))
  end.

Definition format_03d (n : nat) : string :=
  NilEmpty.string_of_uint (pad3 (Nat.to_uint n)).

(** The ordinary lexicographic order on strings, as a relation. *)
Inductive lex_le : string -> string -> Prop :=
  | lex_le_nil b : lex_le EmptyString b
  | lex_le_lt x y a b :
      (nat_of_ascii x < nat_of_ascii y)%nat -> lex_le (String x a) (String y b)
  | lex_le_eq x a b : lex_le a b -> lex_le (String x a) (String x b).

End PyStr.

(** ** POSIX paths ([os.path] on the platforms the scripts target) *)

Module PosixPath.

(** [os.path.join(a, b)]: an absolute [b] discards [a]. *)
Definition join (a b : string) : string :=
  if PyStr.startswith b "/" then b
  else if (String.length a =? 0)%nat || PyStr.endswith a "/" then a ++ b
  else a ++ "/" ++ b.

(** Index just after the last ['/'] of [p] ([p.rfind('/') + 1]). *)
Fixpoint after_last_slash (p : string) : nat :=
  match p with
  | EmptyString => 0%nat
  | String c p' =>
      match after_last_slash p' with
      | 0%nat => if Ascii.eqb c "/" then 1%nat else 0%nat
      | S i => S (S i)
      end
  end.

(** [os.path.dirname(p)]. *)
Definition dirname (p : string) : string :=
  let head := String.substring 0 (after_last_slash p) p in
  match PyStr.rstrip "/" head with
  | EmptyString => head
  | stripped => stripped
  end.

End PosixPath.

(** ** The local file system, exceptions and the effect monad *)

Abbreviation bytes := (list Byte.byte).

(** The exceptions that the two scripts catch with [except Exception]. *)
Inductive exn : Type :=
  | OSError
  | ValueError
  | ZeroDivisionError
  | OverflowError
  | RequestException
  | HTTPError.

Inductive result (A : Type) : Type :=
  | Ok (a : A)
  | Raise (e : exn).
Arguments Ok {A} a.
Arguments Raise {A} e.

(** A computation over a state [S] that returns or raises. *)
Definition M (S A : Type) : Type := S -> result A * S.

Definition raise {S A} (e : exn) : M S A := fun s => (Raise e, s).

Definition bind {S A B} (m : M S A) (k : A -> M S B) : M S B :=
  fun s =>
    match m s with
    | (Ok a, s') => k a s'
    | (Raise e, s') => (Raise e, s')
    end.

(** The monad is used through stdpp's notations [x ← m; k], [m;; k] and
    [mret]. *)
#[global] Instance M_ret {S} : MRet (M S) := fun A a s => (Ok a, s).
#[global] Instance M_bind {S} : MBind (M S) := fun A B k m => bind m k.

(** [try: m  except Exception as e: h e]. *)
Definition try_except {S A} (m : M S A) (h : exn -> M S A) : M S A :=
  fun s =>
    match m s with
    | (Ok a, s') => (Ok a, s')
    | (Raise e, s') => h e s'
    end.

Definition modify {S} (f : S -> S) : M S unit := fun s => (Ok tt, f s).

Definition gets {S A} (f : S -> A) : M S A := fun s => (Ok (f s), s).

(** I/O faults of the environment, given per path.  [write_limit p = Some k]
    means that the file at [p] cannot grow beyond [k] bytes: a write that
    would exceed it leaves the bytes that fit and raises. *)
Record Faults : Type := {
  getsize_fails : string -> bool;
  open_rb_fails : string -> bool;
  read_fails : string -> nat -> bool;
  open_wb_fails : string -> bool;
  write_limit : string -> option nat;
  remove_fails : string -> bool;
  makedirs_fails : string -> bool
}.

Definition no_faults : Faults := {|
  getsize_fails := fun _ => false;
  open_rb_fails := fun _ => false;
  read_fails := fun _ _ => false;
  open_wb_fails := fun _ => false;
  write_limit := fun _ => None;
  remove_fails := fun _ => false;
  makedirs_fails := fun _ => false
|}.

Module Fs.
Section Ops.

Variable F : Faults.

(** [os.path.getsize(p)]. *)
Definition getsize (p : string) : M (gmap string bytes) Z :=
  fun d =>
    match d !! p with
    | Some data =>
        if getsize_fails F p then (Raise OSError, d)
        else (Ok (Z.of_nat (length data)), d)
    | None => (Raise OSError, d)
    end.

(** [open(p, 'rb')]. *)
Definition open_rb (p : string) : M (gmap string bytes) unit :=
  fun d =>
    match d !! p with
    | Some _ => if open_rb_fails F p then (Raise OSError, d) else (Ok tt, d)
    | None => (Raise OSError, d)
    end.

(** The longest [bytes] object of a 64-bit CPython. *)
Definition max_read : Z := 2 ^ 63 - 34.

(** [f.read(n)] on a handle of [p], opened in binary mode and positioned at
    [pos]: at most [n] bytes, everything that is left when [n] is [-1].  A
    size below [-1] is refused with [ValueError], and one for which no
    [bytes] object exists with [OverflowError], before anything is read;
    [read_fails] stands for the failures of the environment (an I/O error, or
    no memory for the buffer of [n] bytes). *)
Definition read (p : string) (pos : nat) (n : Z) : M (gmap string bytes) bytes :=
  fun d =>
    if (n <? -1)%Z then (Raise ValueError, d)
    else if (max_read <? n)%Z then (Raise OverflowError, d)
    else if read_fails F p pos then (Raise OSError, d)
    else
      match d !! p with
      | Some data =>
          let rest := drop pos data in
          (Ok (if (n <? 0)%Z then rest else take (Z.to_nat n) rest), d)
      | None => (Raise OSError, d)
      end.

(** [open(p, 'wb')]: creates or truncates. *)
Definition open_wb (p : string) : M (gmap string bytes) unit :=
  fun d =>
    if open_wb_fails F p then (Raise OSError, d)
    else (Ok tt, <[p := []]> d).

(** [f.write(data)] on a handle of [p] opened for writing. *)
Definition write (p : string) (data : bytes) : M (gmap string bytes) unit :=
  fun d =>
    let cur := default [] (d !! p) in
    match write_limit F p with
    | Some k =>
        if (k <? length cur + length data)%nat
        then (Raise OSError, <[p := take k (cur ++ data)%list]> d)
        else (Ok tt, <[p := (cur ++ data)%list]> d)
    | None => (Ok tt, <[p := (cur ++ data)%list]> d)
    end.

(** [os.remove(p)]. *)
Definition remove (p : string) : M (gmap string bytes) unit :=
  fun d =>
    match d !! p with
    | Some _ =>
        if remove_fails F p then (Raise OSError, d) else (Ok tt, delete p d)
    | None => (Raise OSError, d)
    end.

(** [os.makedirs(p, exist_ok=True)]; directories are not tracked, the empty
    name is refused as [os.makedirs] does. *)
Definition makedirs (p : string) : M (gmap string bytes) unit :=
  fun d =>
    match p with
    | EmptyString => (Raise OSError, d)
    | _ => if makedirs_fails F p then (Raise OSError, d) else (Ok tt, d)
    end.

End Ops.
End Fs.

(** ** The chunk splitter ([split_large_files.py]) *)

Module Splitter.

(** What the script logs, one constructor per [logger] call that carries
    data (sizes are in bytes here, the script prints them in MB).  The
    opening lines of [scan_and_split] are one [Banner]; [BannerBase] and
    [BannerMaxSize] are its lines up to the base directory and up to the
    maximum size, logged when the line after them cannot be formatted. *)
Inductive msg : Type :=
  | Splitting (file_path : string) (file_size : Z)
  | Created (chunk_filename : string) (size : nat)
  | RemovedOriginal (file_path : string)
  | SplitInto (num_chunks : Z)
  | SplitFailed (file_path : string) (e : exn)
  | BannerBase (base : string)
  | BannerMaxSize (base : string) (max_bytes : Z)
  | Banner (base : string) (max_bytes chunk_bytes : Z)
  | DirectoryMissing (base : string)
  | FoundLarge (file_path : string) (file_size : Z)
  | ProcessingError (file_path : string) (e : exn)
  | Summary (scanned split failed : Z)
  | InvalidMaxSize (arg : string)
  | InvalidChunkSize (arg : string)
  | ChunkNotLessThanMax (chunk_mb max_mb : Z).

Record FileSplitter : Type := {
  base_directory : string;
  max_size_bytes : Z;
  chunk_size_bytes : Z;
  files_scanned : Z;
  files_split : Z;
  files_failed : Z
}.

(** [FileSplitter.__init__]. *)
Definition init (base : string) (max_size_mb chunk_size_mb : Z) : FileSplitter := {|
  base_directory := base;
  max_size_bytes := max_size_mb * 1024 * 1024;
  chunk_size_bytes := chunk_size_mb * 1024 * 1024;
  files_scanned := 0;
  files_split := 0;
  files_failed := 0
|}.

(** The object, the disk it works on and the log written so far. *)
Record State : Type := {
  self : FileSplitter;
  disk : gmap string bytes;
  logged : list msg
}.

Definition on_disk {A} (m : M (gmap string bytes) A) : M State A :=
  fun s =>
    let (r, d) := m (disk s) in
    (r, {| self := self s; disk := d; logged := logged s |}).

Definition log (m : msg) : M State unit :=
  modify (fun s => {| self := self s; disk := disk s; logged := (logged s ++ [m])%list |}).

Definition on_self (f : FileSplitter -> FileSplitter) : M State unit :=
  modify (fun s => {| self := f (self s); disk := disk s; logged := logged s |}).

Definition incr_scanned (o : FileSplitter) : FileSplitter := {|
  base_directory := base_directory o;
  max_size_bytes := max_size_bytes o;
  chunk_size_bytes := chunk_size_bytes o;
  files_scanned := files_scanned o + 1;
  files_split := files_split o;
  files_failed := files_failed o
|}.

Definition incr_split (o : FileSplitter) : FileSplitter := {|
  base_directory := base_directory o;
  max_size_bytes := max_size_bytes o;
  chunk_size_bytes := chunk_size_bytes o;
  files_scanned := files_scanned o;
  files_split := files_split o + 1;
  files_failed := files_failed o
|}.

Definition incr_failed (o : FileSplitter) : FileSplitter := {|
  base_directory := base_directory o;
  max_size_bytes := max_size_bytes o;
  chunk_size_bytes := chunk_size_bytes o;
  files_scanned := files_scanned o;
  files_split := files_split o;
  files_failed := files_failed o + 1
|}.

(** [a // b]. *)
Definition floordiv (a b : Z) : M State Z :=
  if (b =? 0)%Z then raise ZeroDivisionError else mret (a / b)%Z.

(** [n / (1024 * 1024)], the division by which the script prints a size in
    MB: Python rounds the quotient to the nearest [float] and raises
    [OverflowError] when that lies beyond the largest one, that is when
    [|n| / 2^20 >= 2^1024 - 2^970]. *)
Definition mb_overflows (n : Z) : bool := (2 ^ 1044 - 2 ^ 990 <=? Z.abs n)%Z.

(** The lines that open [scan_and_split].  The two sizes are formatted in
    turn, outside any [try]: a size beyond the range of [float] raises
    after the lines before it have been logged. *)
Definition banner (o : FileSplitter) : M State unit :=
  if mb_overflows (max_size_bytes o)
  then log (BannerBase (base_directory o));; raise OverflowError
  else if mb_overflows (chunk_size_bytes o)
  then log (BannerMaxSize (base_directory o) (max_size_bytes o));; raise OverflowError
  else log (Banner (base_directory o) (max_size_bytes o) (chunk_size_bytes o)).

(** [f"{file_path}.part{chunk_num:03d}"]. *)
Definition chunk_filename (file_path : string) (chunk_num : nat) : string :=
  file_path ++ ".part" ++ PyStr.format_03d chunk_num.

(** A [for] loop over a list. *)
Fixpoint for_each {A} (xs : list A) (body : A -> M State unit) : M State unit :=
  match xs with
  | [] => mret tt
  | x :: rest => body x;; for_each rest body
  end.

Section Code.

Variable F : Faults.
(** [os.walk(top)] as the list of its [(root, dirs, files)] triples, and
    [os.path.exists] on directories. *)
Variable os_walk : string -> list (string * list string * list string).
Variable dir_exists : string -> bool.
(** The builtin [int] on a string, [None] for [ValueError]. *)
Variable py_int : string -> option Z.

(** The body of [for chunk_num in range(1, num_chunks + 1)], with the
    position of the handle [source_file] made explicit: the result is the
    position after the read. *)
Definition split_chunk (file_path : string) (pos : nat) (chunk_num : nat)
  : M State nat :=
  size ← gets (fun s => chunk_size_bytes (self s));
  chunk_data ← on_disk (Fs.read F file_path pos size);
  on_disk (Fs.open_wb F (chunk_filename file_path chunk_num));;
  on_disk (Fs.write F (chunk_filename file_path chunk_num) chunk_data);;
  log (Created (chunk_filename file_path chunk_num) (length chunk_data));;
  mret (pos + length chunk_data)%nat.

(** The loop itself, over the chunk numbers. *)
Fixpoint split_loop (file_path : string) (pos : nat) (chunk_nums : list nat)
  : M State unit :=
  match chunk_nums with
  | [] => mret tt
  | chunk_num :: rest =>
      pos' ← split_chunk file_path pos chunk_num;
      split_loop file_path pos' rest
  end.

(** The [try] block of [split_file]. *)
Definition split_file_try (file_path : string) : M State bool :=
  file_size ← on_disk (Fs.getsize F file_path);
  log (Splitting file_path file_size);;
  size ← gets (fun s => chunk_size_bytes (self s));
  num_chunks ← floordiv (file_size + size - 1) size;
  on_disk (Fs.open_rb F file_path);;
  split_loop file_path 0 (seq 1 (Z.to_nat num_chunks));;
  on_disk (Fs.remove F file_path);;
  log (RemovedOriginal file_path);;
  log (SplitInto num_chunks);;
  on_self incr_split;;
  mret true.

(** [FileSplitter.split_file]. *)
Definition split_file (file_path : string) : M State bool :=
  try_except
    (split_file_try file_path)
    (fun e =>
       log (SplitFailed file_path e);;
       on_self incr_failed;;
       mret false).

(** The [try] block in the loop of [scan_and_split]. *)
Definition scan_file_try (file_path : string) : M State unit :=
  file_size ← on_disk (Fs.getsize F file_path);
  max ← gets (fun s => max_size_bytes (self s));
  if (max <? file_size)%Z
  then
    log (FoundLarge file_path file_size);;
    _ ← split_file file_path;
    mret tt
  else mret tt.

(** The body of the inner loop of [scan_and_split], for one [filename] of
    the directory [root]. *)
Definition scan_file (root filename : string) : M State unit :=
  if PyStr.contains ".part" filename then mret tt
  else
    let file_path := PosixPath.join root filename in
    on_self incr_scanned;;
    try_except
      (scan_file_try file_path)
      (fun e =>
         log (ProcessingError file_path e);;
         on_self incr_failed).

(** [FileSplitter.scan_and_split]. *)
Definition scan_and_split : M State unit :=
  o ← gets self;
  banner o;;
  if negb (dir_exists (base_directory o))
  then log (DirectoryMissing (base_directory o))
  else
    for_each (os_walk (base_directory o))
      (fun '(root, _dirs, files) => for_each files (scan_file root));;
    o' ← gets self;
    log (Summary (files_scanned o') (files_split o') (files_failed o')).

(** How [main] ends: with an exit code ([sys.exit(code)], or 1 after an
    exception that nothing catches), or by a normal return, with the
    splitter it ran. *)
Inductive outcome : Type :=
  | Exited (code : Z)
  | Returned (splitter : FileSplitter).

(** An optional command-line integer: the default when the argument is
    missing, [inl] of the text when [int] refuses it. *)
Definition int_arg (arg : option string) (default : Z) : string + Z :=
  match arg with
  | None => inr default
  | Some a =>
      match py_int a with
      | Some n => inr n
      | None => inl a
      end
  end.

(** [main], on [sys.argv]; the result is the outcome, the disk and the log. *)
Definition main (argv : list string) (d : gmap string bytes)
  : outcome * gmap string bytes * list msg :=
  let BASE_DIRECTORY := default "ubuntu_ports_downloads" (argv !! 1%nat) in
  match int_arg (argv !! 2%nat) 90 with
  | inl a => (Exited 1, d, [InvalidMaxSize a])
  | inr MAX_SIZE_MB =>
      match int_arg (argv !! 3%nat) 85 with
      | inl a => (Exited 1, d, [InvalidChunkSize a])
      | inr CHUNK_SIZE_MB =>
          if (MAX_SIZE_MB <=? CHUNK_SIZE_MB)%Z
          then (Exited 1, d, [ChunkNotLessThanMax CHUNK_SIZE_MB MAX_SIZE_MB])
          else
            let splitter := init BASE_DIRECTORY MAX_SIZE_MB CHUNK_SIZE_MB in
            match scan_and_split {| self := splitter; disk := d; logged := [] |} with
            | (Ok _, s) => (Returned (self s), disk s, logged s)
            | (Raise _, s) => (Exited 1, disk s, logged s)
            end
      end
  end.

End Code.

End Splitter.

(** ** The mirror crawler ([download_ubuntu_ports.py]) *)

Module Downloader.

(** A request sent through [self.session]. *)
Inductive request : Type :=
  | Head (url : string)
  | Get (url : string).

(** What the script reads of a [requests.Response]: the status, the
    [content-length] header, the [href] of each [<a>] that the HTML parser
    finds in the text ([None] when the attribute is missing), and the
    chunks that [iter_content] yields; [complete = false] when the stream
    raises after them. *)
Record response : Type := {
  status_code : Z;
  content_length : option string;
  hrefs : list (option string);
  chunks : list bytes;
  complete : bool
}.

(** The remote server: the answer to each request, [None] when the request
    itself raises (time-out, connection error). *)
Record Remote : Type := {
  http_head : string -> option response;
  http_get : string -> option response
}.

Inductive msg : Type :=
  | Fetching (url : string)
  | FetchError (url : string) (e : exn)
  | SkippingExists (local_path : string)
  | Downloading (url : string)
  | Downloaded (local_path : string) (size : Z)
  | DownloadFailed (url : string) (e : exn)
  | MaxDepthReached (url : string)
  | Exploring (depth : Z) (url : string)
  | NoLinks (depth : Z) (url : string)
  | SkippingFiltered (depth : Z) (link : string)
  | StartBanner (base output : string) (start_d end_d : option string)
  | DownloadSummary (downloaded skipped failed : Z).

Record UbuntuPortsDownloader : Type := {
  base_url : string;
  output_dir : string;
  start_dir : option string;
  end_dir : option string;
  downloaded_count : Z;
  failed_count : Z;
  skipped_count : Z
}.

(** [UbuntuPortsDownloader.__init__]. *)
Definition init (url output : string) (start_d end_d : option string)
  : UbuntuPortsDownloader := {|
  base_url := PyStr.rstrip "/" url;
  output_dir := output;
  start_dir := start_d;
  end_dir := end_d;
  downloaded_count := 0;
  failed_count := 0;
  skipped_count := 0
|}.

(** The object, the local disk, the requests sent and the log. *)
Record State : Type := {
  self : UbuntuPortsDownloader;
  disk : gmap string bytes;
  requests : list request;
  logged : list msg
}.

Definition on_disk {A} (m : M (gmap string bytes) A) : M State A :=
  fun s =>
    let (r, d) := m (disk s) in
    (r, {| self := self s; disk := d; requests := requests s; logged := logged s |}).

Definition log (m : msg) : M State unit :=
  modify (fun s => {| self := self s; disk := disk s; requests := requests s;
                      logged := (logged s ++ [m])%list |}).

Definition sent (r : request) : M State unit :=
  modify (fun s => {| self := self s; disk := disk s;
                      requests := (requests s ++ [r])%list; logged := logged s |}).

Definition on_self (f : UbuntuPortsDownloader -> UbuntuPortsDownloader) : M State unit :=
  modify (fun s => {| self := f (self s); disk := disk s; requests := requests s;
                      logged := logged s |}).

Definition incr_downloaded (o : UbuntuPortsDownloader) : UbuntuPortsDownloader := {|
  base_url := base_url o; output_dir := output_dir o;
  start_dir := start_dir o; end_dir := end_dir o;
  downloaded_count := downloaded_count o + 1;
  failed_count := failed_count o;
  skipped_count := skipped_count o
|}.

Definition incr_failed (o : UbuntuPortsDownloader) : UbuntuPortsDownloader := {|
  base_url := base_url o; output_dir := output_dir o;
  start_dir := start_dir o; end_dir := end_dir o;
  downloaded_count := downloaded_count o;
  failed_count := failed_count o + 1;
  skipped_count := skipped_count o
|}.

Definition incr_skipped (o : UbuntuPortsDownloader) : UbuntuPortsDownloader := {|
  base_url := base_url o; output_dir := output_dir o;
  start_dir := start_dir o; end_dir := end_dir o;
  downloaded_count := downloaded_count o;
  failed_count := failed_count o;
  skipped_count := skipped_count o + 1
|}.

(** [is_directory]. *)
Definition is_directory (link : string) : bool := PyStr.endswith link "/".

(** [should_process_directory]; [self.start_dir.rstrip('/')] is only
    evaluated where [self.start_dir] is truthy, hence a string. *)
Definition should_process_directory (o : UbuntuPortsDownloader) (dirname : string) : bool :=
  let dirname := PyStr.rstrip "/" dirname in
  let has_start := PyStr.truthy (start_dir o) in
  let has_end := PyStr.truthy (end_dir o) in
  if negb has_start && negb has_end then true
  else if has_start && negb has_end
  then PyStr.str_le (PyStr.rstrip "/" (default "" (start_dir o))) dirname
  else if negb has_start && has_end
  then PyStr.str_le dirname (PyStr.rstrip "/" (default "" (end_dir o)))
  else
    let start := PyStr.rstrip "/" (default "" (start_dir o)) in
    let end_ := PyStr.rstrip "/" (default "" (end_dir o)) in
    PyStr.str_le start dirname && PyStr.str_le dirname end_.

(** A computation that may also run out of the recursion budget of the
    model ([None]). *)
Definition MF (A : Type) : Type := State -> option (result A * State).

Definition lift {A} (m : M State A) : MF A := fun s => Some (m s).

#[global] Instance MF_ret : MRet MF := fun A a s => Some (Ok a, s).
#[global] Instance MF_bind : MBind MF := fun A B k m s =>
  match m s with
  | Some (Ok a, s') => k a s'
  | Some (Raise e, s') => Some (Raise e, s')
  | None => None
  end.

(** A [for] loop over the links of a page. *)
Fixpoint for_links (links : list string) (body : string -> MF unit) : MF unit :=
  match links with
  | [] => mret tt
  | link :: rest => body link;; for_links rest body
  end.

Section Code.

Variable F : Faults.
Variable R : Remote.
(** The builtin [int] on a string ([None] for [ValueError]), the library
    function [urlparse(url).path], and [urljoin], which raises [ValueError]
    on some references ([None]). *)
Variable py_int : string -> option Z.
Variable urlparse_path : string -> string.
Variable urljoin : string -> string -> option string.

(** [self.session.get(url, ...)] and [self.session.head(url, ...)]. *)
Definition session_get (url : string) : M State response :=
  sent (Get url);;
  match http_get R url with
  | Some r => mret r
  | None => raise RequestException
  end.

Definition session_head (url : string) : M State response :=
  sent (Head url);;
  match http_head R url with
  | Some r => mret r
  | None => raise RequestException
  end.

(** [response.raise_for_status()]: raises on a 4xx or 5xx status. *)
Definition error_status (r : response) : bool :=
  (400 <=? status_code r)%Z && (status_code r <? 600)%Z.

Definition raise_for_status (r : response) : M State unit :=
  if error_status r then raise HTTPError else mret tt.

(** [int(response.headers.get('content-length', 0))]: the value, [None]
    when [int] raises [ValueError]. *)
Definition header_value (r : response) : option Z :=
  match content_length r with
  | None => Some 0%Z
  | Some v => py_int v
  end.

Definition header_int (r : response) : M State Z :=
  match header_value r with
  | Some n => mret n
  | None => raise ValueError
  end.

(** The test on each [href] in [get_directory_listing]. *)
Definition keep_link (href : option string) : option string :=
  match href with
  | Some h =>
      if PyStr.truthy (Some h)
         && negb (bool_decide (h ∈ ["../"; "../"; "/"; "#"]))
         && negb (PyStr.startswith h "http") && negb (PyStr.startswith h "/")
      then Some h
      else None
  | None => None
  end.

(** [get_directory_listing]. *)
Definition get_directory_listing (url : string) : M State (list string) :=
  try_except
    (log (Fetching url);;
     r ← session_get url;
     raise_for_status r;;
     mret (omap keep_link (hrefs r)))
    (fun e =>
       log (FetchError url e);;
       mret []).

(** The loop [for chunk in response.iter_content(...)] of [download_file]. *)
Fixpoint write_chunks (local_path : string) (body : list bytes) (downloaded : Z)
  : M State Z :=
  match body with
  | [] => mret downloaded
  | chunk :: rest =>
      match chunk with
      | [] => write_chunks local_path rest downloaded
      | _ =>
          on_disk (Fs.write F local_path chunk);;
          write_chunks local_path rest (downloaded + Z.of_nat (length chunk))
      end
  end.

(** The first block of [download_file]: [true] when it returns from the
    function (the file is skipped). *)
Definition already_complete (url local_path : string) : M State bool :=
  d ← gets disk;
  match d !! local_path with
  | Some _ =>
      local_size ← on_disk (Fs.getsize F local_path);
      head_response ← session_head url;
      remote_size ← header_int head_response;
      if (local_size =? remote_size)%Z
      then
        log (SkippingExists local_path);;
        on_self incr_skipped;;
        mret true
      else mret false
  | None => mret false
  end.

(** The transfer proper: the [try] block of [download_file] after the
    check of the existing file. *)
Definition transfer (url local_path : string) : M State bool :=
  log (Downloading url);;
  r ← session_get url;
  raise_for_status r;;
  total_size ← header_int r;
  on_disk (Fs.makedirs F (PosixPath.dirname local_path));;
  on_disk (Fs.open_wb F local_path);;
  downloaded ← write_chunks local_path (chunks r) 0;
  (if complete r then mret tt else raise RequestException);;
  log (Downloaded local_path downloaded);;
  on_self incr_downloaded;;
  mret true.

(** The [try] block of [download_file]. *)
Definition download_file_try (url local_path : string) : M State bool :=
  skipped ← already_complete url local_path;
  if skipped : bool then mret true
  else transfer url local_path.

(** [download_file]. *)
Definition download_file (url local_path : string) : M State bool :=
  try_except
    (download_file_try url local_path)
    (fun e =>
       log (DownloadFailed url e);;
       on_self incr_failed;;
       mret false).

(** [get_local_path]. *)
Definition get_local_path (o : UbuntuPortsDownloader) (url : string) : string :=
  let relative_path := urlparse_path url in
  let relative_path :=
    if PyStr.startswith relative_path "/ubuntu-ports/pool/universe/"
    then PyStr.replace_first relative_path "/ubuntu-ports/pool/universe/" ""
    else relative_path in
  PosixPath.join (output_dir o) relative_path.

(** [urljoin(base, link)], called outside any [try]. *)
Definition url_join (base link : string) : M State string :=
  match urljoin base link with
  | Some u => mret u
  | None => raise ValueError
  end.

(** The body of [for link in links] in [crawl_and_download]; [crawl] is the
    recursive call. *)
Definition process_link (crawl : string -> Z -> MF unit) (url : string) (depth : Z)
    (link : string) : MF unit :=
  full_url ← lift (url_join (url ++ "/") link);
  if is_directory link
  then
    o ← lift (gets self);
    if (depth =? 0)%Z && negb (should_process_directory o link)
    then lift (log (SkippingFiltered depth link))
    else crawl full_url (depth + 1)%Z
  else
    o ← lift (gets self);
    let local_path := get_local_path o full_url in
    _ ← lift (download_file full_url local_path);
    mret tt.

(** [crawl_and_download]; [fuel] bounds the nesting of the recursion in the
    model, the pause after each file leaves no trace. *)
Fixpoint crawl_and_download (fuel : nat) (url : string) (depth : Z) : MF unit :=
  match fuel with
  | O => fun _ => None
  | S fuel' =>
      if (20 <? depth)%Z
      then lift (log (MaxDepthReached url))
      else
        lift (log (Exploring depth url));;
        links ← lift (get_directory_listing url);
        match links with
        | [] => lift (log (NoLinks depth url))
        | _ => for_links links (process_link (crawl_and_download fuel') url depth)
        end
  end.

(** [start], without the clock; an exception of the crawl is not caught
    here (the handler is for [KeyboardInterrupt] only). *)
Definition start (fuel : nat) : MF unit :=
  o ← lift (gets self);
  lift (log (StartBanner (base_url o) (output_dir o) (start_dir o) (end_dir o)));;
  crawl_and_download fuel (base_url o) 0;;
  o' ← lift (gets self);
  lift (log (DownloadSummary (downloaded_count o') (skipped_count o') (failed_count o'))).

End Code.

End Downloader.

(** ** Library functions, for running the model on concrete inputs

    The embedding takes [int], [urlparse] and [urljoin] as parameters.  The
    functions below stand for them on the inputs used in the examples: ASCII
    decimal numerals, [http(s)] URLs and plain child names. *)

Module LibModel.

(** [int(s)] on a string of ASCII digits; anything else is refused. *)
Definition decimal_int (s : string) : option Z :=
  match s with
  | EmptyString => None
  | _ => Z.of_uint <$> NilEmpty.uint_of_string s
  end.

(** The part of [s] before the first character satisfying [stop], and the
    part from that character on. *)
Fixpoint before (stop : ascii -> bool) (s : string) : string :=
  match s with
  | EmptyString => EmptyString
  | String c s' => if stop c then EmptyString else String c (before stop s')
  end.

Fixpoint from (stop : ascii -> bool) (s : string) : string :=
  match s with
  | EmptyString => EmptyString
  | String c s' => if stop c then s else from stop s'
  end.

Definition is_alpha (c : ascii) : bool :=
  let n := nat_of_ascii c in
  ((65 <=? n) && (n <=? 90) || (97 <=? n) && (n <=? 122))%nat.

Definition is_scheme_char (c : ascii) : bool :=
  let n := nat_of_ascii c in
  (is_alpha c || (48 <=? n) && (n <=? 57) || (n =? 43) || (n =? 45) || (n =? 46))%nat.

Fixpoint all_chars (f : ascii -> bool) (s : string) : bool :=
  match s with
  | EmptyString => true
  | String c s' => f c && all_chars f s'
  end.

(** What [urlsplit] leaves after the scheme. *)
Definition after_scheme (url : string) : string :=
  let scheme := before (Ascii.eqb ":") url in
  match scheme, from (Ascii.eqb ":") url with
  | String c _, String _ rest =>
      if is_alpha c && all_chars is_scheme_char scheme then rest else url
  | _, _ => url
  end.

(** What [urlsplit] leaves after the network location. *)
Definition after_netloc (url : string) : string :=
  match url with
  | String "/" (String "/" rest) =>
      from (fun c => Ascii.eqb c "/" || Ascii.eqb c "?" || Ascii.eqb c "#") rest
  | _ => url
  end.

(** [urlparse(url).path]: fragment, query and the parameters of the last
    segment are cut off. *)
Definition urlparse_path (url : string) : string :=
  let u := after_netloc (after_scheme url) in
  let u := before (Ascii.eqb "#") u in
  let u := before (Ascii.eqb "?") u in
  let i := PosixPath.after_last_slash u in
  String.substring 0 i u ++ before (Ascii.eqb ";") (String.substring i (String.length u) u).

(** [sep.join(l)]. *)
Fixpoint join_with (sep : string) (l : list string) : string :=
  match l with
  | [] => EmptyString
  | x :: rest =>
      match rest with
      | [] => x
      | _ => x ++ sep ++ join_with sep rest
      end
  end.

Definition nonempty (s : string) : bool := negb (String.eqb s "").

(** [segments[1:-1] = filter(None, segments[1:-1])]. *)
Definition filter_middle (segments : list string) : list string :=
  match segments with
  | [] => []
  | x :: rest =>
      match rest with
      | [] => [x]
      | _ => x :: (List.filter nonempty (removelast rest) ++ [List.last rest ""])%list
      end
  end.

(** The loop of [urljoin] that resolves ['.'] and ['..']. *)
Definition resolve_dots (segments : list string) : list string :=
  fold_left
    (fun acc seg =>
       if String.eqb seg ".." then removelast acc
       else if String.eqb seg "." then acc
       else (acc ++ [seg])%list)
    segments [].

(** The path that [urljoin] computes from the path of the base and a
    relative path. *)
Definition join_paths (bpath path : string) : string :=
  let base_parts := PyStr.split "/" bpath in
  let base_parts :=
    if nonempty (List.last base_parts "") then removelast base_parts else base_parts in
  let segments :=
    if PyStr.startswith path "/" then PyStr.split "/" path
    else filter_middle (base_parts ++ PyStr.split "/" path) in
  let resolved := resolve_dots segments in
  let resolved :=
    if String.eqb (List.last segments "") "." || String.eqb (List.last segments "") ".."
    then (resolved ++ [""])%list else resolved in
  match join_with "/" resolved with
  | EmptyString => "/"
  | p => p
  end.

(** The network location of a reference that has one. *)
Definition netloc (rest : string) : string :=
  match rest with
  | String "/" (String "/" r) =>
      before (fun c => Ascii.eqb c "/" || Ascii.eqb c "?" || Ascii.eqb c "#") r
  | _ => EmptyString
  end.

(** [urljoin(base, link)] for an [http(s)] [base] with a network location
    and without query or fragment, and a [link] that is either a relative
    path (no scheme, no query, fragment or parameters) or carries a scheme
    other than that of the base.  A link with a scheme is returned as it
    is, unless its network location has a bracket without its partner: then
    [urlsplit] raises [ValueError]. *)
Definition urljoin (base link : string) : option string :=
  match link with
  | EmptyString => Some base
  | _ =>
      let rest := after_scheme link in
      if (String.length rest <? String.length link)%nat
      then
        if xorb (PyStr.contains "[" (netloc rest)) (PyStr.contains "]" (netloc rest))
        then None
        else Some link
      else
        let bpath := after_netloc (after_scheme base) in
        let root := String.substring 0 (String.length base - String.length bpath) base in
        let path := join_paths bpath link in
        Some (root ++ (if PyStr.startswith path "/" then path else "/" ++ path))
  end.

End LibModel.

(** ** The properties, as the specification words them *)

Module Spec.

(** [d] lies within the bounds, each applied only where present. *)
Definition within (lo hi : option string) (d : string) : Prop :=
  (forall s, lo = Some s -> PyStr.lex_le s d) /\
  (forall e, hi = Some e -> PyStr.lex_le d e).

(** A configured bound as the filter uses it: an empty bound counts as
    absent, trailing separators are dropped. *)
Definition bound (o : option string) : option string :=
  match o with
  | Some (String c s) => Some (PyStr.rstrip "/" (String c s))
  | _ => None
  end.

(** One step along a path from the directory [at_] (its components, from
    the root): an empty component and ['.'] stay, ['..'] goes up (and stays
    at the root), a name goes down. *)
Definition walk (at_ : list string) (component : string) : list string :=
  if String.eqb component "" || String.eqb component "." then at_
  else if String.eqb component ".." then removelast at_
  else (at_ ++ [component])%list.

(** Where the path [p] leads for a process whose working directory is
    [cwd]: the components of [os.path.abspath(p)]. *)
Definition location (cwd : list string) (p : string) : list string :=
  fold_left walk (PyStr.split "/" p) (if PyStr.startswith p "/" then [] else cwd).

(** [p] lies in the directory [dir] (or is it), for a process whose working
    directory is [cwd]. *)
Definition inside (cwd : list string) (dir p : string) : Prop :=
  location cwd dir `prefix_of` location cwd p.

(** Chunk [i] (from 0) of [data] for chunk size [c]. *)
Definition chunk (c : nat) (data : bytes) (i : nat) : bytes :=
  take c (drop (i * c) data).

(** [d] is the number [n] in decimal, zero-padded on the left to three
    digits: a numeral of value [n] that has three digits when [n] is below
    1000 and is the plain numeral of [n] otherwise. *)
Definition zero_padded3 (n : nat) (d : string) : Prop :=
  Nat.of_uint <$> NilEmpty.uint_of_string d = Some n /\
  ((n < 1000)%nat -> String.length d = 3%nat) /\
  ((1000 <= n)%nat -> d = NilEmpty.string_of_uint (Nat.to_uint n)).

(** A size of [n] bytes can be printed in MB: [n / 2^20] rounds to a
    finite [float], the largest of which is [2^1024 - 2^971] and the first
    value rounded beyond it [2^1024 - 2^970]. *)
Definition prints_in_mb (n : Z) : Prop :=
  (Z.abs n < (2 ^ 1024 - 2 ^ 970) * 2 ^ 20)%Z.

(** [ceil(s / c)]. *)
Definition ceil_div (s c : nat) : nat := (s + c - 1) / c.

(** What a step of the splitter leaves alone: the object, and every file
    outside [W]. *)
Definition frame (W : string -> Prop) (s s' : Splitter.State) : Prop :=
  Splitter.self s' = Splitter.self s /\
  forall p, ~ W p -> Splitter.disk s' !! p = Splitter.disk s !! p.

(** The chunk numbers that [split_file] runs through for a file of
    [size] bytes. *)
Definition chunk_nums (o : Splitter.FileSplitter) (size : nat) : list nat :=
  seq 1 (Z.to_nat ((Z.of_nat size + Splitter.chunk_size_bytes o - 1)
                   / Splitter.chunk_size_bytes o)).

(** The crawler object [o'] is [o] with [d] more files downloaded, [k]
    more skipped and [f] more failed, and the same configuration. *)
Definition counted (o o' : Downloader.UbuntuPortsDownloader) (d k f : Z) : Prop :=
  Downloader.base_url o' = Downloader.base_url o /\
  Downloader.output_dir o' = Downloader.output_dir o /\
  Downloader.start_dir o' = Downloader.start_dir o /\
  Downloader.end_dir o' = Downloader.end_dir o /\
  Downloader.downloaded_count o' = (Downloader.downloaded_count o + d)%Z /\
  Downloader.skipped_count o' = (Downloader.skipped_count o + k)%Z /\
  Downloader.failed_count o' = (Downloader.failed_count o + f)%Z.

(** The crawler logs no new [Exploring] line between [s] and [s']. *)
Definition no_new_exploring (s s' : Downloader.State) : Prop :=
  forall d u,
    Downloader.Exploring d u ∈ Downloader.logged s' ->
    Downloader.Exploring d u ∈ Downloader.logged s.

(** Every directory explored between [s] and [s'] is at a depth from
    [depth] to the cap. *)
Definition explored_within (depth : Z) (s s' : Downloader.State) : Prop :=
  forall d u,
    Downloader.Exploring d u ∈ Downloader.logged s' ->
    Downloader.Exploring d u ∈ Downloader.logged s \/ (depth <= d <= 20)%Z.

(** A computation of the crawler that logs no [Exploring] line. *)
Definition quiet {A} (m : M Downloader.State A) : Prop :=
  forall s r s', m s = (r, s') -> no_new_exploring s s'.

End Spec.

(** ** Small concrete inputs *)

Module Sample.

Definition ten_bytes : bytes :=
  [Byte.x00; Byte.x01; Byte.x02; Byte.x03; Byte.x04;
   Byte.x05; Byte.x06; Byte.x07; Byte.x08; Byte.x09].

(** A splitter with a threshold of 8 bytes and chunks of 4 bytes, on a disk
    with one file of 10 bytes. *)
Definition splitter_state : Splitter.State := {|
  Splitter.self := {|
    Splitter.base_directory := "data";
    Splitter.max_size_bytes := 8;
    Splitter.chunk_size_bytes := 4;
    Splitter.files_scanned := 0;
    Splitter.files_split := 0;
    Splitter.files_failed := 0 |};
  Splitter.disk := {["data/big.bin" := ten_bytes]};
  Splitter.logged := []
|}.

(** The second chunk of [data/big.bin] cannot be created. *)
Definition second_chunk_unwritable : Faults := {|
  getsize_fails := fun _ => false;
  open_rb_fails := fun _ => false;
  read_fails := fun _ _ => false;
  open_wb_fails := fun p => String.eqb p "data/big.bin.part002";
  write_limit := fun _ => None;
  remove_fails := fun _ => false;
  makedirs_fails := fun _ => false
|}.

(** A remote that serves one file of 10 bytes in two chunks and declares its
    size, a crawler state with an empty disk, and one with a stale local
    copy of one byte. *)
Definition file_url : string :=
  "https://ports.ubuntu.com/ubuntu-ports/pool/universe/h/htop/htop_3.0.5.deb".

Definition file_response : Downloader.response := {|
  Downloader.status_code := 200;
  Downloader.content_length := Some "10";
  Downloader.hrefs := [];
  Downloader.chunks := [take 4 ten_bytes; []; drop 4 ten_bytes];
  Downloader.complete := true
|}.

Definition remote : Downloader.Remote := {|
  Downloader.http_head := fun url =>
    if String.eqb url file_url then Some file_response else None;
  Downloader.http_get := fun url =>
    if String.eqb url file_url then Some file_response else None
|}.

(** The same remote with the [HEAD] request timing out. *)
Definition remote_head_down : Downloader.Remote := {|
  Downloader.http_head := fun _ => None;
  Downloader.http_get := Downloader.http_get remote
|}.

(** The same remote answering [HEAD] without a [content-length]. *)
Definition remote_head_unsized : Downloader.Remote := {|
  Downloader.http_head := fun _ =>
    Some {| Downloader.status_code := 200; Downloader.content_length := None;
            Downloader.hrefs := []; Downloader.chunks := [];
            Downloader.complete := true |};
  Downloader.http_get := Downloader.http_get remote
|}.

Definition local_path : string := "out/h/htop/htop_3.0.5.deb".

Definition crawler_state : Downloader.State := {|
  Downloader.self :=
    Downloader.init "https://ports.ubuntu.com/ubuntu-ports/pool/universe" "out/" None None;
  Downloader.disk := ∅;
  Downloader.requests := [];
  Downloader.logged := []
|}.

Definition crawler_state_stale : Downloader.State := {|
  Downloader.self := Downloader.self crawler_state;
  Downloader.disk := {[local_path := [Byte.x00]]};
  Downloader.requests := [];
  Downloader.logged := []
|}.

(** A remote on which every page is a directory that links to itself. *)
Definition self_link_remote : Downloader.Remote := {|
  Downloader.http_head := fun _ => None;
  Downloader.http_get := fun _ =>
    Some {| Downloader.status_code := 200; Downloader.content_length := None;
            Downloader.hrefs := [Some "../"; Some "./"];
            Downloader.chunks := []; Downloader.complete := true |}
|}.

(** The remote of [file_url] with the stream of the file breaking after
    the first chunk. *)
Definition broken_response : Downloader.response := {|
  Downloader.status_code := 200;
  Downloader.content_length := Some "10";
  Downloader.hrefs := [];
  Downloader.chunks := [take 4 ten_bytes];
  Downloader.complete := false
|}.

Definition remote_broken : Downloader.Remote := {|
  Downloader.http_head := Downloader.http_head remote;
  Downloader.http_get := fun _ => Some broken_response
|}.

(** A root page that lists the directories [a/] and [z/], and a crawler
    restricted to the range from [h] to [m]. *)
Definition root_url : string := "https://ports.ubuntu.com/ubuntu-ports/pool/universe".

Definition root_response : Downloader.response := {|
  Downloader.status_code := 200;
  Downloader.content_length := None;
  Downloader.hrefs := [Some "../"; None; Some "a/"; Some "z/"];
  Downloader.chunks := [];
  Downloader.complete := true
|}.

Definition remote_root : Downloader.Remote := {|
  Downloader.http_head := fun _ => None;
  Downloader.http_get := fun url =>
    if String.eqb url root_url then Some root_response else None
|}.

(** The directory of [file_url], listing that one file, on the remote that
    serves it. *)
Definition dir_url : string :=
  "https://ports.ubuntu.com/ubuntu-ports/pool/universe/h/htop".

Definition page_response : Downloader.response := {|
  Downloader.status_code := 200;
  Downloader.content_length := None;
  Downloader.hrefs := [Some "../"; Some "htop_3.0.5.deb"];
  Downloader.chunks := [];
  Downloader.complete := true
|}.

Definition remote_page : Downloader.Remote := {|
  Downloader.http_head := fun _ => None;
  Downloader.http_get := fun url =>
    if String.eqb url dir_url then Some page_response
    else Downloader.http_get remote url
|}.

Definition crawler_state_ranged : Downloader.State := {|
  Downloader.self := Downloader.init root_url "out" (Some "h") (Some "m/");
  Downloader.disk := ∅;
  Downloader.requests := [];
  Downloader.logged := []
|}.

End Sample.

(** ** Invariants of the two programs *)

Module Inv.

(** The splitter object [o'] continues [o]: same configuration, counters
    that only grow, and no more splits and failures than files scanned. *)
Definition accounted (o o' : Splitter.FileSplitter) : Prop :=
  Splitter.base_directory o' = Splitter.base_directory o /\
  Splitter.max_size_bytes o' = Splitter.max_size_bytes o /\
  Splitter.chunk_size_bytes o' = Splitter.chunk_size_bytes o /\
  (Splitter.files_split o <= Splitter.files_split o')%Z /\
  (Splitter.files_failed o <= Splitter.files_failed o')%Z /\
  ((Splitter.files_split o' - Splitter.files_split o)
   + (Splitter.files_failed o' - Splitter.files_failed o)
   <= Splitter.files_scanned o' - Splitter.files_scanned o)%Z.

(** [p] is a file that a scan over [walk] may write or remove: a listed
    file without the chunk marker, or a chunk name of one. *)
Definition touched (walk : list (string * list string * list string)) (p : string) : Prop :=
  exists root dirs files f,
    (root, dirs, files) ∈ walk /\ f ∈ files /\
    PyStr.contains ".part" f = false /\
    (p = PosixPath.join root f \/
     exists k, p = Splitter.chunk_filename (PosixPath.join root f) k).

(** What a scan step may do: continue the object, and change only files
    in [W]. *)
Definition scan_effect (W : string -> Prop) (s s' : Splitter.State) : Prop :=
  accounted (Splitter.self s) (Splitter.self s') /\
  forall q, ~ W q -> Splitter.disk s' !! q = Splitter.disk s !! q.

(** A link that [get_directory_listing] lets through. *)
Definition link_ok (h : string) : Prop :=
  h <> "" /\ h <> "../" /\ h <> "/" /\ h <> "#" /\
  PyStr.startswith h "http" = false /\ PyStr.startswith h "/" = false.

(** The crawler object [o'] continues [o]: same configuration, counters
    that only grow. *)
Definition steady (o o' : Downloader.UbuntuPortsDownloader) : Prop :=
  Downloader.base_url o' = Downloader.base_url o /\
  Downloader.output_dir o' = Downloader.output_dir o /\
  Downloader.start_dir o' = Downloader.start_dir o /\
  Downloader.end_dir o' = Downloader.end_dir o /\
  (Downloader.downloaded_count o <= Downloader.downloaded_count o')%Z /\
  (Downloader.failed_count o <= Downloader.failed_count o')%Z /\
  (Downloader.skipped_count o <= Downloader.skipped_count o')%Z.

(** How a crawl ends: normally, or on the [ValueError] of a call of
    [urljoin]. *)
Definition ends_as (urljoin : string -> string -> option string) (r : result unit) : Prop :=
  r = Ok tt \/ (r = Raise ValueError /\ exists base link, urljoin base link = None).

(** The disk [d'] differs from [d] at most in the file [p], which it does
    not lose. *)
Definition writes_only (p : string) (d d' : gmap string bytes) : Prop :=
  (forall q, q <> p -> d' !! q = d !! q) /\
  (is_Some (d !! p) -> is_Some (d' !! p)).

(** A computation of the crawler whose only effect on the disk is on [p]. *)
Definition confined {A} (p : string) (m : M Downloader.State A) : Prop :=
  forall s r s', m s = (r, s') ->
    writes_only p (Downloader.disk s) (Downloader.disk s').

(** The crawler state [s'] continues [s]: the object continues and no
    local file is lost. *)
Definition crawl_effect (s s' : Downloader.State) : Prop :=
  steady (Downloader.self s) (Downloader.self s') /\
  forall q, is_Some (Downloader.disk s !! q) -> is_Some (Downloader.disk s' !! q).

End Inv.

(** * Properties *)

(** ** Examples of the string and path functions *)

Example rstrip_ex1 : PyStr.rstrip "/" "h//" = "h". Proof. reflexivity. Qed.
Example rstrip_ex2 : PyStr.rstrip "/" "a/b/" = "a/b". Proof. reflexivity. Qed.
Example contains_ex1 : PyStr.contains ".part" "x.deb.part001" = true. Proof. reflexivity. Qed.
Example contains_ex2 : PyStr.contains ".part" "x.par.t" = false. Proof. reflexivity. Qed.
Example replace_first_ex1 : PyStr.replace_first "/a/b/a/c" "/a/" "" = "b/a/c". Proof. reflexivity. Qed.
Example format_ex1 : PyStr.format_03d 7 = "007". Proof. reflexivity. Qed.
Example format_ex2 : PyStr.format_03d 1234 = "1234". Proof. reflexivity. Qed.
Example format_ex3 : PyStr.format_03d 0 = "000". Proof. reflexivity. Qed.
Example format_ex4 : PyStr.format_03d 42 = "042". Proof. reflexivity. Qed.
Example str_le_ex1 : PyStr.str_le "h" "h/" = true. Proof. reflexivity. Qed.
Example str_le_ex2 : PyStr.str_le "h/" "h" = false. Proof. reflexivity. Qed.
Example join_ex1 : PosixPath.join "out/" "h/htop/x.deb" = "out/h/htop/x.deb". Proof. reflexivity. Qed.
Example join_ex2 : PosixPath.join "out" "h/htop/x.deb" = "out/h/htop/x.deb". Proof. reflexivity. Qed.
Example join_ex3 : PosixPath.join "out" "/pool/x.deb" = "/pool/x.deb". Proof. reflexivity. Qed.
Example join_ex4 : PosixPath.join "" "x.deb" = "x.deb". Proof. reflexivity. Qed.
Example dirname_ex1 : PosixPath.dirname "out/h/htop/x.deb" = "out/h/htop". Proof. reflexivity. Qed.
Example dirname_ex2 : PosixPath.dirname "/x.deb" = "/". Proof. reflexivity. Qed.
Example dirname_ex3 : PosixPath.dirname "x.deb" = "". Proof. reflexivity. Qed.
Example dirname_ex4 : PosixPath.dirname "a//b" = "a". Proof. reflexivity. Qed.
Example urlparse_ex1 :
  LibModel.urlparse_path "https://ports.ubuntu.com/ubuntu-ports/pool/universe/h/htop/htop_3.0.5.deb"
  = "/ubuntu-ports/pool/universe/h/htop/htop_3.0.5.deb".
Proof. reflexivity. Qed.
Example urlparse_ex2 : LibModel.urlparse_path "https://host/a/b/?C=N;O=D" = "/a/b/".
Proof. reflexivity. Qed.
Example urlparse_ex3 : LibModel.urlparse_path "https://host" = "".
Proof. reflexivity. Qed.
Example urlparse_ex4 : LibModel.urlparse_path "http://host/a;x/b;y#f" = "/a;x/b".
Proof. reflexivity. Qed.
Example decimal_int_ex1 : LibModel.decimal_int "85" = Some 85%Z. Proof. reflexivity. Qed.
Example decimal_int_ex2 : LibModel.decimal_int "8x" = None. Proof. reflexivity. Qed.

(** ** Strings *)

Lemma str_le_lex a b : PyStr.str_le a b = true <-> PyStr.lex_le a b.
Proof.
  revert b. induction a as [|x a IH]; intros [|y b]; simpl.
  - split; [constructor | done].
  - split; [constructor | done].
  - split; [done | inversion 1].
  - destruct (nat_of_ascii x <? nat_of_ascii y)%nat eqn:Hxy.
    { apply Nat.ltb_lt in Hxy. split; [intros _; by constructor | done]. }
    apply Nat.ltb_ge in Hxy.
    destruct (nat_of_ascii y <? nat_of_ascii x)%nat eqn:Hyx.
    { apply Nat.ltb_lt in Hyx. split; [done |].
      inversion 1; subst; lia. }
    apply Nat.ltb_ge in Hyx.
    rewrite IH. split.
    + intros H. assert (x = y) as ->; [| by constructor].
      rewrite <- (ascii_nat_embedding x), <- (ascii_nat_embedding y).
      f_equal. lia.
    + inversion 1; subst; [lia | done].
Qed.

Lemma string_length_app (a b : string) :
  String.length (a ++ b) = (String.length a + String.length b)%nat.
Proof. induction a as [|c a IH]; simpl; [done | by rewrite IH]. Qed.

Lemma startswith_app (p r : string) : PyStr.startswith (p ++ r) p = true.
Proof.
  induction p as [|c p IH]; simpl; [done |].
  by rewrite Ascii.eqb_refl, IH.
Qed.

Lemma substring_all (s : string) : String.substring 0 (String.length s) s = s.
Proof. induction s as [|c s IH]; simpl; [done | by rewrite IH]. Qed.

Lemma substring_ge (n : nat) (s : string) :
  String.substring 0 (String.length s + n) s = s.
Proof. induction s as [|c s IH]; simpl; [by destruct n | by rewrite IH]. Qed.

Lemma substring_skip (p r : string) (m : nat) :
  String.substring (String.length p) m (p ++ r) = String.substring 0 m r.
Proof. induction p as [|c p IH]; simpl; [done | apply IH]. Qed.

Lemma substring_app_drop (p r : string) :
  String.substring (String.length p) (String.length (p ++ r)) (p ++ r) = r.
Proof.
  rewrite substring_skip, string_length_app, Nat.add_comm.
  apply substring_ge.
Qed.

Lemma replace_first_unfold (s old new : string) :
  PyStr.replace_first s old new =
  if PyStr.startswith s old
  then new ++ String.substring (String.length old) (String.length s) s
  else
    match s with
    | EmptyString => EmptyString
    | String c s' => String c (PyStr.replace_first s' old new)
    end.
Proof. by destruct s. Qed.

Lemma replace_first_prefix (p r : string) : PyStr.replace_first (p ++ r) p "" = r.
Proof.
  rewrite replace_first_unfold, startswith_app.
  apply substring_app_drop.
Qed.

(** ** The first-level directory filter *)

Section Filter.

Import Downloader.

Example filter_h_m_pass :
  let o := init "https://host/pool" "out" (Some "h") (Some "m") in
  should_process_directory o "h/" = true /\
  should_process_directory o "m/" = true /\
  should_process_directory o "k/" = true.
Proof. by vm_compute. Qed.

Example filter_h_m_reject :
  let o := init "https://host/pool" "out" (Some "h") (Some "m") in
  should_process_directory o "a/" = false /\
  should_process_directory o "n/" = false /\
  should_process_directory o "ma/" = false.
Proof. by vm_compute. Qed.

Lemma should_process_directory_unfiltered o d :
  start_dir o = None -> end_dir o = None -> should_process_directory o d = true.
Proof. intros Hs He. unfold should_process_directory. by rewrite Hs, He. Qed.

(** C3, as amended.  [should_process_directory] accepts a first-level name
    exactly when the name, without its trailing separators, lies between
    the two bounds under the lexicographic order, where each bound is
    compared without its trailing separators as well, and a bound that is
    absent or empty imposes no constraint. *)
Theorem should_process_directory_range (o : UbuntuPortsDownloader) (d : string) :
  should_process_directory o d = true <->
  Spec.within (Spec.bound (start_dir o)) (Spec.bound (end_dir o)) (PyStr.rstrip "/" d).
Proof.
  unfold should_process_directory, Spec.within.
  destruct (start_dir o) as [[|c s]|], (end_dir o) as [[|c' s']|];
    cbn [PyStr.truthy Spec.bound negb andb default from_option id];
    rewrite ?andb_true_iff, ?str_le_lex;
    split; try done; try (intros; split; intros; simplify_eq; done);
    try (intros [H1 H2]; eauto; done).
  intros [H1 H2]. split; intros ? [= <-]; done.
Qed.

(** C3, as stated, fails when a bound carries a trailing separator: with
    [start_dir = 'h/'] the directory ['h/'] is accepted although
    ['h/' <= 'h'] does not hold. *)
Lemma should_process_directory_raw_bound_counterexample :
  let o := init "https://host/pool" "out" (Some "h/") None in
  should_process_directory o "h/" = true /\
  ~ Spec.within (start_dir o) (end_dir o) (PyStr.rstrip "/" "h/").
Proof.
  split; [reflexivity |].
  intros [H _]. specialize (H _ eq_refl).
  apply str_le_lex in H. by vm_compute in H.
Qed.

End Filter.

(** ** The local path of a remote file *)

Section LocalPath.

Import Downloader.

Variable urlparse_path : string -> string.

Lemma join_absolute (a b : string) :
  PyStr.startswith b "/" = true -> PosixPath.join a b = b.
Proof. intros H. unfold PosixPath.join. by rewrite H. Qed.

Lemma join_relative_not_absolute (a rel : string) :
  PyStr.startswith a "/" = false -> PyStr.startswith rel "/" = false ->
  PyStr.startswith (PosixPath.join a rel) "/" = false.
Proof.
  intros Ha Hrel. unfold PosixPath.join. rewrite Hrel.
  destruct a as [|c a]; [done |].
  by destruct (_ || _).
Qed.

(** Below the literal pool root the mapping is the intended one. *)
Lemma get_local_path_default_root o url rest :
  urlparse_path url = "/ubuntu-ports/pool/universe/" ++ rest ->
  get_local_path urlparse_path o url = PosixPath.join (output_dir o) rest.
Proof.
  intros H. unfold get_local_path. rewrite H.
  by rewrite startswith_app, replace_first_prefix.
Qed.

(** C10, as amended.  For a URL whose path is absolute and does not begin
    with ["/ubuntu-ports/pool/universe/"], [get_local_path] returns the URL
    path itself, whatever the output root is; the result lies in the output
    directory only when that directory, resolved against the working
    directory, is an ancestor of the URL path (or the URL path itself). *)
Theorem get_local_path_absolute_url_path (o : UbuntuPortsDownloader) (url : string) :
  PyStr.startswith (urlparse_path url) "/" = true ->
  PyStr.startswith (urlparse_path url) "/ubuntu-ports/pool/universe/" = false ->
  get_local_path urlparse_path o url = urlparse_path url /\
  (forall o', get_local_path urlparse_path o' url = get_local_path urlparse_path o url) /\
  (forall cwd,
     Spec.inside cwd (output_dir o) (get_local_path urlparse_path o url) <->
     Spec.location cwd (output_dir o) `prefix_of` Spec.location [] (urlparse_path url)).
Proof.
  intros Habs Hpre.
  assert (forall o', get_local_path urlparse_path o' url = urlparse_path url) as Heq.
  { intros o'. unfold get_local_path. rewrite Hpre. by apply join_absolute. }
  split; [apply Heq |]. split; [intros o'; by rewrite !Heq |].
  intros cwd. unfold Spec.inside. rewrite Heq.
  replace (Spec.location cwd (urlparse_path url))
    with (Spec.location [] (urlparse_path url)); [done |].
  unfold Spec.location. by rewrite Habs.
Qed.

End LocalPath.

Lemma get_local_path_absolute_url_path_witness :
  let o := Downloader.init "https://host/pool/universe" "out/" None None in
  let url := "https://host/pool/universe/h/htop/htop_3.0.5.deb" in
  Downloader.get_local_path LibModel.urlparse_path o url = LibModel.urlparse_path url /\
  (forall o', Downloader.get_local_path LibModel.urlparse_path o' url
              = Downloader.get_local_path LibModel.urlparse_path o url) /\
  (forall cwd,
     Spec.inside cwd (Downloader.output_dir o)
       (Downloader.get_local_path LibModel.urlparse_path o url) <->
     Spec.location cwd (Downloader.output_dir o)
       `prefix_of` Spec.location [] (LibModel.urlparse_path url)).
Proof.
  apply (get_local_path_absolute_url_path LibModel.urlparse_path); reflexivity.
Defined.

(** C10, as stated, fails when the output directory is an ancestor of the
    URL path: with the output root [/srv/mirror], or with the relative root
    [srv/mirror] for a process working in [/], the result equals the URL
    path and lies in the output directory. *)
Lemma get_local_path_outside_counterexample :
  let url := "https://host/srv/mirror/x.deb" in
  PyStr.startswith (LibModel.urlparse_path url) "/ubuntu-ports/pool/universe/" = false /\
  (let o := Downloader.init "https://host/srv/mirror" "/srv/mirror" None None in
   Downloader.get_local_path LibModel.urlparse_path o url = "/srv/mirror/x.deb" /\
   Spec.inside ["home"; "user"] (Downloader.output_dir o)
     (Downloader.get_local_path LibModel.urlparse_path o url)) /\
  (let o := Downloader.init "https://host/srv/mirror" "srv/mirror" None None in
   Downloader.get_local_path LibModel.urlparse_path o url = "/srv/mirror/x.deb" /\
   Spec.inside [] (Downloader.output_dir o)
     (Downloader.get_local_path LibModel.urlparse_path o url)).
Proof.
  split; [reflexivity |].
  split; (split; [reflexivity | exists ["x.deb"]; reflexivity]).
Qed.

(** With the default relative root and a working directory elsewhere, the
    result is outside the output directory. *)
Example get_local_path_outside_ex :
  let o := Downloader.init "https://host/pool/universe" "out/" None None in
  let url := "https://host/pool/universe/h/htop/htop_3.0.5.deb" in
  ~ Spec.inside ["home"; "user"] (Downloader.output_dir o)
      (Downloader.get_local_path LibModel.urlparse_path o url).
Proof. intros o url [k Hk]. vm_compute in Hk. discriminate Hk. Qed.

(** C2.  With the remote root [https://host/pool/universe] and the output
    root [out/], the file [https://host/pool/universe/h/htop/htop_3.0.5.deb]
    is mapped to its absolute URL path, not to [out/h/htop/htop_3.0.5.deb]:
    the prefix that is stripped is the literal of the default root, not the
    configured one. *)
Theorem get_local_path_configured_root :
  let o := Downloader.init "https://host/pool/universe" "out/" None None in
  let url := "https://host/pool/universe/h/htop/htop_3.0.5.deb" in
  Downloader.get_local_path LibModel.urlparse_path o url
    = "/pool/universe/h/htop/htop_3.0.5.deb" /\
  Downloader.get_local_path LibModel.urlparse_path o url
    <> "out/h/htop/htop_3.0.5.deb".
Proof. split; [reflexivity | by vm_compute]. Qed.

Example get_local_path_default_root_ex :
  let o := Downloader.init "https://ports.ubuntu.com/ubuntu-ports/pool/universe" "out/" None None in
  Downloader.get_local_path LibModel.urlparse_path o
    "https://ports.ubuntu.com/ubuntu-ports/pool/universe/h/htop/htop_3.0.5.deb"
  = "out/h/htop/htop_3.0.5.deb".
Proof. reflexivity. Qed.

(** ** The command line of the splitter *)

Section Main.

Import Splitter.

Variable F : Faults.
Variable os_walk : string -> list (string * list string * list string).
Variable dir_exists : string -> bool.
Variable py_int : string -> option Z.

(** C8.  When the chunk size given (or defaulted) on the command line is
    not smaller than the maximum size, [main] logs the configuration error
    and exits with code 1; the disk is returned as it was and neither the
    directory walk nor any file operation takes part in the result. *)
Theorem main_rejects_chunk_not_less (argv : list string) (d : gmap string bytes)
    (MAX CHUNK : Z) :
  int_arg py_int (argv !! 2%nat) 90 = inr MAX ->
  int_arg py_int (argv !! 3%nat) 85 = inr CHUNK ->
  (MAX <= CHUNK)%Z ->
  main F os_walk dir_exists py_int argv d
    = (Exited 1, d, [ChunkNotLessThanMax CHUNK MAX]).
Proof.
  intros Hmax Hchunk Hle.
  unfold main. rewrite Hmax, Hchunk.
  by rewrite (proj2 (Z.leb_le MAX CHUNK) Hle).
Qed.

End Main.

Lemma main_rejects_chunk_not_less_witness :
  Splitter.main no_faults (fun _ => [("data", [], ["big.bin"])]) (fun _ => true)
    LibModel.decimal_int ["split_large_files.py"; "data"; "50"; "50"]
    {["data/big.bin" := [Byte.x00]]}
  = (Splitter.Exited 1, {["data/big.bin" := [Byte.x00]]},
     [Splitter.ChunkNotLessThanMax 50 50]).
Proof.
  apply main_rejects_chunk_not_less; [reflexivity | reflexivity | lia].
Defined.

(** ** Chunks of a byte sequence *)

Section Chunks.

Implicit Types (data : bytes) (c n i : nat).

Lemma chunk_length c data i :
  length (Spec.chunk c data i) = (c `min` (length data - i * c))%nat.
Proof. unfold Spec.chunk. by rewrite length_take, length_drop. Qed.

Lemma chunk_shift c data i :
  Spec.chunk c data (S i) = Spec.chunk c (drop c data) i.
Proof.
  unfold Spec.chunk. by rewrite drop_drop.
Qed.

(** Reading on from where a read of [c] bytes stopped is reading from
    [c] bytes further. *)
Lemma drop_after_read c data pos :
  drop (pos + length (take c (drop pos data))) data = drop (pos + c) data.
Proof.
  rewrite length_take, length_drop.
  destruct (decide (c <= length data - pos)%nat) as [Hle | Hgt].
  - by rewrite Nat.min_l.
  - rewrite Nat.min_r by lia.
    rewrite !drop_ge; [done | lia | lia].
Qed.

Lemma concat_chunks c data n :
  (0 < c)%nat -> (length data <= n * c)%nat ->
  concat (Spec.chunk c data <$> seq 0 n) = data.
Proof.
  intros Hc. revert data.
  induction n as [|n IH]; intros data Hlen.
  - destruct data; [done | simpl in Hlen; lia].
  - cbn [seq fmap list_fmap concat].
    rewrite <- seq_shift, <- list_fmap_compose.
    rewrite (list_fmap_ext _ (Spec.chunk c (drop c data)) (seq 0 n))
      by (intros; apply chunk_shift).
    rewrite IH.
    + unfold Spec.chunk. simpl. apply take_drop.
    + rewrite length_drop. lia.
Qed.

(** The number of chunks that [split_file] computes is [ceil(S / C)]. *)
Lemma num_chunks_ceil (s c : nat) :
  (0 < c)%nat ->
  Z.to_nat ((Z.of_nat s + Z.of_nat c - 1) / Z.of_nat c) = Spec.ceil_div s c.
Proof.
  intros Hc. unfold Spec.ceil_div.
  replace (Z.of_nat s + Z.of_nat c - 1)%Z with (Z.of_nat (s + c - 1)) by lia.
  rewrite <- Nat2Z.inj_div. apply Nat2Z.id.
Qed.

Lemma ceil_div_bounds (s c : nat) :
  (0 < c)%nat ->
  (s <= Spec.ceil_div s c * c)%nat /\
  ((0 < s)%nat -> ((Spec.ceil_div s c - 1) * c < s)%nat /\ (0 < Spec.ceil_div s c)%nat).
Proof.
  intros Hc. unfold Spec.ceil_div.
  pose proof (Nat.div_mod_eq (s + c - 1) c) as Hdm.
  pose proof (Nat.mod_upper_bound (s + c - 1) c ltac:(lia)) as Hmod.
  set (q := ((s + c - 1) / c)%nat) in *.
  set (r := ((s + c - 1) mod c)%nat) in *.
  split; [nia |].
  intros Hs. assert (0 < q)%nat by (destruct q; [nia | lia]).
  split; [nia | done].
Qed.

Lemma full_chunk_length c data i :
  (0 < c)%nat -> (S i < Spec.ceil_div (length data) c)%nat ->
  length (Spec.chunk c data i) = c.
Proof.
  intros Hc Hi. rewrite chunk_length.
  destruct (ceil_div_bounds (length data) c Hc) as [_ Hb].
  destruct Hb as [Hb _]; [destruct data; [| simpl; lia] |].
  { unfold Spec.ceil_div in Hi. simpl in Hi.
    rewrite Nat.div_small in Hi by lia. lia. }
  apply Nat.min_l. nia.
Qed.

End Chunks.

Example ceil_div_ex1 : Spec.ceil_div 10 4 = 3%nat. Proof. reflexivity. Qed.
Example ceil_div_ex2 : Spec.ceil_div 8 4 = 2%nat. Proof. reflexivity. Qed.
Example ceil_div_ex3 : Spec.ceil_div 1 4 = 1%nat. Proof. reflexivity. Qed.

(** ** Chunk file names *)

Lemma pad3_value (d : uint) : Nat.of_uint (PyStr.pad3 d) = Nat.of_uint d.
Proof. unfold PyStr.pad3. by destruct (3 - nb_digits d)%nat as [|[|[|?]]]. Qed.

Lemma format_03d_inj (n m : nat) : PyStr.format_03d n = PyStr.format_03d m -> n = m.
Proof.
  unfold PyStr.format_03d. intros H.
  apply (f_equal NilEmpty.uint_of_string) in H.
  rewrite !NilEmpty.usu in H. injection H as H.
  apply (f_equal Nat.of_uint) in H.
  by rewrite !pad3_value, !DecimalNat.Unsigned.of_to in H.
Qed.

Lemma nb_digits_small (d : uint) :
  (nb_digits d <= 2)%nat -> (Nat.of_uint d < 100)%nat.
Proof.
  intros H.
  destruct d as [| d | d | d | d | d | d | d | d | d | d]; [vm_compute; lia | ..];
    (destruct d as [| d | d | d | d | d | d | d | d | d | d]; [vm_compute; lia | ..];
     (destruct d; [vm_compute; lia | simpl in H; lia ..])).
Qed.

Lemma format_03d_short_length (n : nat) :
  (n < 1000)%nat -> String.length (PyStr.format_03d n) = 3%nat.
Proof.
  intros Hn.
  assert (forallb (fun k => (String.length (PyStr.format_03d k) =? 3)%nat) (seq 0 1000)
          = true) as Hall by (by vm_compute).
  rewrite forallb_forall in Hall.
  apply Nat.eqb_eq, Hall, in_seq. lia.
Qed.

(** The number in a chunk name is zero-padded to three digits. *)
Lemma format_03d_padded (n : nat) : Spec.zero_padded3 n (PyStr.format_03d n).
Proof.
  unfold Spec.zero_padded3, PyStr.format_03d. split; [| split].
  - rewrite NilEmpty.usu. cbn [fmap option_fmap option_map].
    by rewrite pad3_value, DecimalNat.Unsigned.of_to.
  - apply format_03d_short_length.
  - intros Hn. f_equal. unfold PyStr.pad3.
    destruct (decide (nb_digits (Nat.to_uint n) <= 2)%nat) as [Hle | Hgt].
    + apply nb_digits_small in Hle.
      rewrite DecimalNat.Unsigned.of_to in Hle. lia.
    + by replace (3 - nb_digits (Nat.to_uint n))%nat with 0%nat by lia.
Qed.

Lemma chunk_filename_inj (file_path : string) (n m : nat) :
  Splitter.chunk_filename file_path n = Splitter.chunk_filename file_path m -> n = m.
Proof.
  unfold Splitter.chunk_filename. intros H.
  apply String.app_inj in H. apply (String.app_inj ".part") in H.
  by apply format_03d_inj.
Qed.

Lemma chunk_filename_ne (file_path : string) (n : nat) :
  Splitter.chunk_filename file_path n <> file_path.
Proof.
  unfold Splitter.chunk_filename. intros H.
  apply (f_equal String.length) in H.
  rewrite !string_length_app in H. simpl in H. lia.
Qed.

Lemma chunk_filenames_NoDup (file_path : string) (n : nat) :
  NoDup (Splitter.chunk_filename file_path <$> seq 1 n).
Proof.
  apply NoDup_fmap_2; [| apply NoDup_seq].
  intros ???. by eapply chunk_filename_inj.
Qed.

Lemma chunk_filenames_fresh (file_path : string) (ks : list nat) :
  file_path ∉ Splitter.chunk_filename file_path <$> ks.
Proof.
  intros (k & Hk & _)%list_elem_of_fmap. by eapply chunk_filename_ne.
Qed.

(** ** Running computations *)

Section Monad.

Context {S A B : Type}.

Lemma bind_inv (m : M S A) (k : A -> M S B) s r s' :
  (m ≫= k) s = (r, s') ->
  (exists a s1, m s = (Ok a, s1) /\ k a s1 = (r, s')) \/
  (exists e, m s = (Raise e, s') /\ r = Raise e).
Proof.
  unfold mbind, M_bind, bind.
  destruct (m s) as [[a | e] s1]; intros H.
  - left. eauto.
  - right. injection H as <- <-. eauto.
Qed.

Lemma bind_ok_inv (m : M S A) (k : A -> M S B) s b s' :
  (m ≫= k) s = (Ok b, s') ->
  exists a s1, m s = (Ok a, s1) /\ k a s1 = (Ok b, s').
Proof.
  intros [H | (e & _ & ?)]%bind_inv; [done | discriminate].
Qed.

Lemma bind_run_ok (m : M S A) (k : A -> M S B) s a s1 :
  m s = (Ok a, s1) -> (m ≫= k) s = k a s1.
Proof. unfold mbind, M_bind, bind. by intros ->. Qed.

Lemma bind_run_raise (m : M S A) (k : A -> M S B) s e s1 :
  m s = (Raise e, s1) -> (m ≫= k) s = (Raise e, s1).
Proof. unfold mbind, M_bind, bind. by intros ->. Qed.

End Monad.

(** ** The splitter: one file *)

Section SplitFile.

Import Splitter Spec.

Variable F : Faults.

Implicit Types (s : State) (data : bytes) (p file_path : string).

Lemma frame_refl W s : frame W s s.
Proof. by split. Qed.

Lemma frame_trans W s1 s2 s3 : frame W s1 s2 -> frame W s2 s3 -> frame W s1 s3.
Proof.
  intros [Ha Hb] [Hc Hd]. split; [congruence |].
  intros p Hp. rewrite Hd, Hb; done.
Qed.

Lemma frame_weaken (W W' : string -> Prop) s s' :
  (forall p, W p -> W' p) -> frame W s s' -> frame W' s s'.
Proof. intros HW [Ha Hb]. split; [done |]. intros p Hp. apply Hb. auto. Qed.

Lemma gets_inv {T} (f : State -> T) s r s' :
  gets f s = (r, s') -> r = Ok (f s) /\ s' = s.
Proof. unfold gets. by intros [= <- <-]. Qed.

Lemma log_inv m s r s' :
  log m s = (r, s') ->
  r = Ok tt /\ self s' = self s /\ disk s' = disk s /\ logged s' = (logged s ++ [m])%list.
Proof. unfold log, modify. by intros [= <- <-]. Qed.

Lemma on_self_inv f s r s' :
  on_self f s = (r, s') ->
  r = Ok tt /\ self s' = f (self s) /\ disk s' = disk s /\ logged s' = logged s.
Proof. unfold on_self, modify. by intros [= <- <-]. Qed.

Lemma getsize_inv p s r s' :
  on_disk (Fs.getsize F p) s = (r, s') ->
  self s' = self s /\ disk s' = disk s /\ logged s' = logged s /\
  forall n, r = Ok n ->
    exists data, disk s !! p = Some data /\ n = Z.of_nat (length data) /\
                 getsize_fails F p = false.
Proof.
  unfold on_disk, Fs.getsize.
  destruct (disk s !! p) as [data |] eqn:Hp;
    [destruct (getsize_fails F p) eqn:Hf |];
    intros [= <- <-]; simpl; repeat split; try done.
  intros n [= <-]. eauto.
Qed.

Lemma open_rb_inv p s r s' :
  on_disk (Fs.open_rb F p) s = (r, s') ->
  self s' = self s /\ disk s' = disk s /\ logged s' = logged s.
Proof.
  unfold on_disk, Fs.open_rb.
  destruct (disk s !! p); [destruct (open_rb_fails F p) |];
    by intros [= <- <-].
Qed.

Lemma read_inv p pos n s r s' :
  on_disk (Fs.read F p pos n) s = (r, s') ->
  self s' = self s /\ disk s' = disk s /\ logged s' = logged s /\
  forall x, r = Ok x ->
    read_fails F p pos = false /\
    exists data, disk s !! p = Some data /\
      x = if (n <? 0)%Z then drop pos data else take (Z.to_nat n) (drop pos data).
Proof.
  unfold on_disk, Fs.read.
  destruct (n <? -1)%Z; [by intros [= <- <-] |].
  destruct (Fs.max_read <? n)%Z; [by intros [= <- <-] |].
  destruct (read_fails F p pos) eqn:Hf;
    [| destruct (disk s !! p) as [data |] eqn:Hp];
    intros [= <- <-]; simpl; repeat split; try done.
  simplify_eq. eauto.
Qed.

Lemma open_wb_inv p s r s' :
  on_disk (Fs.open_wb F p) s = (r, s') ->
  self s' = self s /\ logged s' = logged s /\
  (forall q, q <> p -> disk s' !! q = disk s !! q) /\
  (r = Ok tt -> open_wb_fails F p = false /\ disk s' !! p = Some []).
Proof.
  unfold on_disk, Fs.open_wb.
  destruct (open_wb_fails F p) eqn:Hf; intros [= <- <-]; simpl;
    repeat split; try done.
  - intros q Hq. by rewrite lookup_insert_ne.
  - by rewrite lookup_insert_eq.
Qed.

Lemma write_inv p x s r s' :
  on_disk (Fs.write F p x) s = (r, s') ->
  self s' = self s /\ logged s' = logged s /\
  (forall q, q <> p -> disk s' !! q = disk s !! q) /\
  (r = Ok tt ->
     disk s' !! p = Some (default [] (disk s !! p) ++ x)%list /\
     forall lim, write_limit F p = Some lim ->
       (length (default [] (disk s !! p)) + length x <= lim)%nat).
Proof.
  unfold on_disk, Fs.write.
  destruct (write_limit F p) as [lim |] eqn:Hl;
    [destruct (lim <? _)%nat eqn:Hlt |];
    intros [= <- <-]; simpl; repeat split; try done;
    try (intros q Hq; by rewrite lookup_insert_ne);
    try (by rewrite lookup_insert_eq).
  intros lim' [= <-]. by apply Nat.ltb_ge in Hlt.
Qed.

Lemma remove_inv p s r s' :
  on_disk (Fs.remove F p) s = (r, s') ->
  self s' = self s /\ logged s' = logged s /\
  (forall q, q <> p -> disk s' !! q = disk s !! q) /\
  match r with
  | Ok _ => disk s' !! p = None /\ remove_fails F p = false
  | Raise _ => disk s' !! p = disk s !! p
  end.
Proof.
  unfold on_disk, Fs.remove.
  destruct (disk s !! p) as [data |] eqn:Hp;
    [destruct (remove_fails F p) eqn:Hf |];
    intros [= <- <-]; simpl; repeat split; try done.
  - intros q Hq. by rewrite lookup_delete_ne.
  - by rewrite lookup_delete_eq.
Qed.


(** One iteration of the loop of [split_file]. *)
Lemma split_chunk_inv file_path pos k s r s' :
  split_chunk F file_path pos k s = (r, s') ->
  frame (eq (chunk_filename file_path k)) s s' /\
  forall pos', r = Ok pos' ->
    read_fails F file_path pos = false /\
    open_wb_fails F (chunk_filename file_path k) = false /\
    exists data x,
      disk s !! file_path = Some data /\
      x = (if (chunk_size_bytes (self s) <? 0)%Z then drop pos data
           else take (Z.to_nat (chunk_size_bytes (self s))) (drop pos data)) /\
      pos' = (pos + length x)%nat /\
      disk s' !! chunk_filename file_path k = Some x /\
      forall lim, write_limit F (chunk_filename file_path k) = Some lim ->
        (length x <= lim)%nat.
Proof.
  unfold split_chunk. intros H.
  apply bind_inv in H as [(size & s1 & [[= ->] ->]%gets_inv & H) | (e & [? _]%gets_inv & _)];
    [| done].
  apply bind_inv in H as [(x & s2 & H2 & H) | (e & H2 & ->)].
  2:{ apply read_inv in H2 as (Hs & Hd & _). split; [| done].
      split; [done |]. intros. by rewrite Hd. }
  apply read_inv in H2 as (Hs2 & Hd2 & _ & Hx).
  destruct (Hx _ eq_refl) as (Hrf & data & Hdata & ->). clear Hx.
  assert (frame (eq (chunk_filename file_path k)) s s2) as Hf2.
  { split; [done |]. intros. by rewrite Hd2. }
  apply bind_inv in H as [([] & s3 & H3 & H) | (e & H3 & ->)].
  2:{ apply open_wb_inv in H3 as (Hs & _ & Hd & _). split; [| done].
      eapply frame_trans; [exact Hf2 |]. split; [done |].
      intros p Hp. apply Hd. congruence. }
  apply open_wb_inv in H3 as (Hs3 & _ & Hd3 & Ho).
  destruct (Ho eq_refl) as [Hof Hnew]. clear Ho.
  assert (frame (eq (chunk_filename file_path k)) s s3) as Hf3.
  { eapply frame_trans; [exact Hf2 |]. split; [done |].
    intros p Hp. apply Hd3. congruence. }
  apply bind_inv in H as [([] & s4 & H4 & H) | (e & H4 & ->)].
  2:{ apply write_inv in H4 as (Hs & _ & Hd & _). split; [| done].
      eapply frame_trans; [exact Hf3 |]. split; [done |].
      intros p Hp. apply Hd. congruence. }
  apply write_inv in H4 as (Hs4 & _ & Hd4 & Hw).
  destruct (Hw eq_refl) as [Hwritten Hlim]. clear Hw.
  rewrite Hnew in Hwritten, Hlim. simpl in Hwritten, Hlim.
  apply bind_inv in H as [([] & s5 & (_ & Hs5 & Hd5 & _)%log_inv & H) | (e & (? & _)%log_inv & _)];
    [| done].
  injection H as <- <-.
  split.
  - split; [congruence |]. intros p Hp. rewrite Hd5, Hd4 by congruence.
    by apply Hf3.
  - intros pos' [= <-]. rewrite Hs2, Hd2 in *.
    repeat split; try done.
    exists data, (if (chunk_size_bytes (self s) <? 0)%Z then drop pos data
                  else take (Z.to_nat (chunk_size_bytes (self s))) (drop pos data)).
    rewrite Hd5. repeat split; try done.
Qed.

(** The loop only touches chunk files, whatever its outcome. *)
Lemma split_loop_frame file_path ks : forall pos s r s',
  split_loop F file_path pos ks s = (r, s') ->
  frame (fun p => p ∈ chunk_filename file_path <$> ks) s s'.
Proof.
  induction ks as [| k ks IH]; intros pos s r s' H.
  - injection H as <- <-. apply frame_refl.
  - cbn [split_loop] in H.
    apply bind_inv in H as [(pos' & s1 & H1 & H) | (e & H1 & ->)].
    + apply split_chunk_inv in H1 as [Hf _]. apply IH in H.
      eapply frame_trans.
      * eapply frame_weaken; [| exact Hf].
        intros p <-. rewrite fmap_cons, elem_of_cons. by left.
      * eapply frame_weaken; [| exact H].
        intros p Hp. rewrite fmap_cons, elem_of_cons. by right.
    + apply split_chunk_inv in H1 as [Hf _].
      eapply frame_weaken; [| exact Hf].
      intros p <-. rewrite fmap_cons, elem_of_cons. by left.
Qed.

(** A loop that completes has written chunk [i] of the source, read from
    where the handle stood, under the [i]-th name, and met no fault on it. *)
Lemma split_loop_ok file_path data (C : nat) ks : forall pos s s',
  split_loop F file_path pos ks s = (Ok tt, s') ->
  disk s !! file_path = Some data ->
  chunk_size_bytes (self s) = Z.of_nat C ->
  NoDup (chunk_filename file_path <$> ks) ->
  forall i k, ks !! i = Some k ->
    disk s' !! chunk_filename file_path k = Some (take C (drop (pos + i * C) data)) /\
    open_wb_fails F (chunk_filename file_path k) = false /\
    forall lim, write_limit F (chunk_filename file_path k) = Some lim ->
      (length (take C (drop (pos + i * C) data)) <= lim)%nat.
Proof.
  induction ks as [| k0 ks IH]; intros pos s s' H Hdata HC Hnd i k Hik; [done |].
  cbn [split_loop] in H.
  apply bind_ok_inv in H as (pos' & s1 & H1 & H).
  apply split_chunk_inv in H1 as [[Hs1 Hd1] Hok].
  destruct (Hok _ eq_refl) as (_ & Hof & data' & x & Hdata' & Hx & -> & Hwritten & Hlim).
  clear Hok. rewrite Hdata in Hdata'. injection Hdata' as <-.
  rewrite HC in Hx.
  replace (Z.of_nat C <? 0)%Z with false in Hx by (symmetry; apply Z.ltb_ge; lia).
  rewrite Nat2Z.id in Hx. subst x.
  rewrite fmap_cons in Hnd. apply NoDup_cons in Hnd as [Hfresh Hnd].
  destruct i as [| i]; simpl in Hik.
  - injection Hik as <-.
    apply split_loop_frame in H as [_ Hd]. rewrite Hd by done.
    rewrite Nat.add_0_r. done.
  - assert (disk s1 !! file_path = Some data) as Hdata1.
    { rewrite Hd1; [done |]. apply chunk_filename_ne. }
    specialize (IH _ _ _ H Hdata1 ltac:(congruence) Hnd i k Hik).
    replace (drop (pos + length (take C (drop pos data)) + i * C) data)
      with (drop (pos + S i * C) data) in IH; [done |].
    rewrite <- (drop_drop data (i * C) (pos + length (take C (drop pos data)))).
    rewrite drop_after_read, drop_drop. f_equal. simpl. lia.
Qed.

(** Without faults, and with a chunk size that [read] accepts, an
    iteration, hence the loop, completes. *)
Lemma split_chunk_succeeds file_path pos k s :
  is_Some (disk s !! file_path) ->
  (-1 <= chunk_size_bytes (self s) <= Fs.max_read)%Z ->
  exists pos' s1,
    split_chunk no_faults file_path pos k s = (Ok pos', s1) /\
    self s1 = self s /\ is_Some (disk s1 !! file_path).
Proof.
  intros [data Hdata] [Hlo Hhi].
  unfold split_chunk, mbind, M_bind, bind, gets, on_disk, Fs.read, Fs.open_wb,
    Fs.write, log, modify.
  cbn [self disk logged no_faults read_fails open_wb_fails write_limit].
  rewrite (proj2 (Z.ltb_ge _ _) Hlo), (proj2 (Z.ltb_ge _ _) Hhi), Hdata.
  cbn [self disk logged].
  do 2 eexists. split; [reflexivity |]. simpl. split; [done |].
  rewrite !lookup_insert_ne by apply chunk_filename_ne. eauto.
Qed.

Lemma split_loop_succeeds file_path ks : forall pos s,
  is_Some (disk s !! file_path) ->
  (-1 <= chunk_size_bytes (self s) <= Fs.max_read)%Z ->
  exists s', split_loop no_faults file_path pos ks s = (Ok tt, s').
Proof.
  induction ks as [| k ks IH]; intros pos s Hsome Hsize; [by eexists |].
  destruct (split_chunk_succeeds file_path pos k s Hsome Hsize)
    as (pos' & s1 & H1 & Hs1 & Hsome1).
  destruct (IH pos' s1 Hsome1) as [s' H]; [by rewrite Hs1 |].
  exists s'. cbn [split_loop]. by rewrite (bind_run_ok _ _ _ _ _ H1).
Qed.

(** The [try] block of [split_file]: when it raises, the object and every
    file that is not a chunk of [file_path] are as before; when it returns,
    the loop has completed and the source has been removed after it. *)
Lemma split_file_try_inv file_path s r s' :
  split_file_try F file_path s = (r, s') ->
  match r with
  | Raise _ =>
      self s' = self s /\
      forall p, (forall k, p <> chunk_filename file_path k) -> disk s' !! p = disk s !! p
  | Ok b =>
      b = true /\ self s' = incr_split (self s) /\
      exists data s1 s2,
        disk s !! file_path = Some data /\
        self s1 = self s /\ disk s1 = disk s /\
        split_loop F file_path 0 (chunk_nums (self s) (length data)) s1 = (Ok tt, s2) /\
        disk s' !! file_path = None /\
        remove_fails F file_path = false /\
        forall p, p <> file_path -> disk s' !! p = disk s2 !! p
  end.
Proof.
  unfold split_file_try. intros H.
  apply bind_inv in H as [(n & s1 & H1 & H) | (e & H1 & ->)].
  2:{ apply getsize_inv in H1 as (Hs & Hd & _). split; [done |]. intros. by rewrite Hd. }
  apply getsize_inv in H1 as (Hs1 & Hd1 & _ & Hn).
  destruct (Hn _ eq_refl) as (data & Hdata & -> & _). clear Hn.
  apply bind_inv in H as [([] & s2 & (_ & Hs2 & Hd2 & _)%log_inv & H) | (e & (? & _)%log_inv & _)];
    [| done].
  apply bind_inv in H as [(size & s3 & [[= ->] ->]%gets_inv & H) | (e & [? _]%gets_inv & _)];
    [| done].
  apply bind_inv in H as [(num & s3 & H3 & H) | (e & H3 & ->)].
  2:{ unfold floordiv in H3. destruct (_ =? 0)%Z; [| done].
      injection H3 as _ <-. split; [congruence |]. intros. congruence. }
  unfold floordiv in H3. destruct (_ =? 0)%Z eqn:Hz; [done |]. injection H3 as <- <-.
  apply bind_inv in H as [([] & s4 & H4 & H) | (e & H4 & ->)];
    apply open_rb_inv in H4 as (Hs4 & Hd4 & _).
  2:{ split; [congruence |]. intros. congruence. }
  apply bind_inv in H as [([] & s5 & H5 & H) | (e & H5 & ->)].
  2:{ apply split_loop_frame in H5 as [Hs5 Hd5]. split; [congruence |].
      intros p Hp. rewrite Hd5; [congruence |].
      intros (k & -> & _)%list_elem_of_fmap. by eapply Hp. }
  apply bind_inv in H as [([] & s6 & H6 & H) | (e & H6 & ->)];
    apply remove_inv in H6 as (Hs6 & _ & Hd6 & Hr).
  2:{ pose proof H5 as [Hs5 Hd5]%split_loop_frame. split; [congruence |].
      intros p Hp. destruct (decide (p = file_path)) as [-> | Hne].
      - rewrite Hr, Hd5; [congruence | apply chunk_filenames_fresh].
      - rewrite Hd6, Hd5; [congruence | | done].
        intros (k & -> & _)%list_elem_of_fmap. by eapply Hp. }
  destruct Hr as [Hgone Hrf].
  apply bind_inv in H as [([] & s7 & (_ & Hs7 & Hd7 & _)%log_inv & H) | (e & (? & _)%log_inv & _)];
    [| done].
  apply bind_inv in H as [([] & s8 & (_ & Hs8 & Hd8 & _)%log_inv & H) | (e & (? & _)%log_inv & _)];
    [| done].
  apply bind_inv in H as [([] & s9 & (_ & Hs9 & Hd9 & _)%on_self_inv & H) | (e & (? & _)%on_self_inv & _)];
    [| done].
  injection H as <- <-.
  pose proof H5 as [Hs5 _]%split_loop_frame.
  split; [done |]. split; [congruence |].
  exists data, s4, s5. rewrite Hs2 in H5. unfold chunk_nums.
  rewrite Hs1 in H5.
  repeat split; try done; try congruence.
  intros p Hp. rewrite Hd9, Hd8, Hd7. by apply Hd6.
Qed.

(** [split_file] never raises: it returns [True] after a completed [try]
    block and [False], with the failure counted, after a raised one. *)
Lemma split_file_inv file_path s r s' :
  split_file F file_path s = (r, s') ->
  exists b, r = Ok b /\
    if b : bool then
      self s' = incr_split (self s) /\
      exists data s1 s2,
        disk s !! file_path = Some data /\
        self s1 = self s /\ disk s1 = disk s /\
        split_loop F file_path 0 (chunk_nums (self s) (length data)) s1 = (Ok tt, s2) /\
        disk s' !! file_path = None /\
        remove_fails F file_path = false /\
        forall p, p <> file_path -> disk s' !! p = disk s2 !! p
    else
      self s' = incr_failed (self s) /\
      forall p, (forall k, p <> chunk_filename file_path k) -> disk s' !! p = disk s !! p.
Proof.
  unfold split_file, try_except.
  destruct (split_file_try F file_path s) as [[b | e] s1] eqn:Htry;
    apply split_file_try_inv in Htry.
  - intros [= <- <-]. destruct Htry as (-> & Hs & Hrest). exists true. eauto.
  - destruct Htry as [Hs Hd].
    unfold mbind, M_bind, bind, log, on_self, modify, mret, M_ret. simpl.
    intros [= <- <-]. exists false. simpl. split; [done |]. split; [by rewrite Hs | done].
Qed.

End SplitFile.

Section SplitFileTheorems.

Import Splitter Spec.

Implicit Types (s : State) (data : bytes) (p file_path : string).

Lemma split_file_succeeds file_path s data :
  disk s !! file_path = Some data ->
  chunk_size_bytes (self s) <> 0%Z ->
  (-1 <= chunk_size_bytes (self s) <= Fs.max_read)%Z ->
  exists s', split_file no_faults file_path s = (Ok true, s').
Proof.
  intros Hdata Hc Hsize.
  assert (exists s', split_file_try no_faults file_path s = (Ok true, s')) as [s' Hs'].
  2:{ exists s'. unfold split_file, try_except. by rewrite Hs'. }
  unfold split_file_try.
  unfold mbind at 1, M_bind at 1, bind at 1, on_disk at 1, Fs.getsize. rewrite Hdata. simpl.
  unfold mbind at 1, M_bind at 1, bind at 1, log at 1, modify. 
  unfold mbind at 1, M_bind at 1, bind at 1, gets at 1. simpl.
  unfold mbind at 1, M_bind at 1, bind at 1, floordiv at 1.
  rewrite (proj2 (Z.eqb_neq _ _) Hc). simpl.
  unfold mbind at 1, M_bind at 1, bind at 1, on_disk at 1, Fs.open_rb. simpl.
  rewrite Hdata. simpl.
  match goal with
  | |- exists _, (split_loop _ _ _ ?ks ≫= _) ?st = _ =>
      destruct (split_loop_succeeds file_path ks 0 st) as [s2 H2];
        [simpl; eauto | exact Hsize |];
      pose proof H2 as [_ Hd2]%split_loop_frame;
      specialize (Hd2 file_path (chunk_filenames_fresh _ _)); simpl in Hd2;
      rewrite (bind_run_ok _ _ _ _ _ H2)
  end.
  unfold mbind, M_bind, bind, on_disk, Fs.remove, log, on_self, modify, mret, M_ret.
  simpl. rewrite Hd2, Hdata. simpl. eauto.
Qed.


Lemma chunk_nums_ceil (o : FileSplitter) (size C : nat) :
  chunk_size_bytes o = Z.of_nat C -> (0 < C)%nat ->
  chunk_nums o size = seq 1 (Spec.ceil_div size C).
Proof. intros HC Hpos. unfold chunk_nums. by rewrite HC, num_chunks_ceil. Qed.

(** C1.  For a source file of [S > 0] bytes and a chunk size [C > 0]:
    without faults, and with a chunk size that [read] accepts,
    [split_file] succeeds; and whenever it succeeds the source file is gone,
    the files for the numbers [1 .. ceil(S/C)], each named by the source
    path followed by [".part"] and the number zero-padded to three digits,
    hold the consecutive chunks of the source, each of at most [C] bytes
    and all but the last of exactly [C] bytes, their concatenation in order
    is the source, no other file has changed, and the split is counted. *)
Theorem split_file_round_trip (F : Faults) s file_path data (C : nat) :
  disk s !! file_path = Some data ->
  (0 < length data)%nat ->
  (0 < C)%nat ->
  chunk_size_bytes (self s) = Z.of_nat C ->
  let n := Spec.ceil_div (length data) C in
  ((Z.of_nat C <= Fs.max_read)%Z ->
   exists s', split_file no_faults file_path s = (Ok true, s')) /\
  forall s', split_file F file_path s = (Ok true, s') ->
    disk s' !! file_path = None /\
    (forall i, (i < n)%nat ->
       (exists digits,
          chunk_filename file_path (S i) = file_path ++ ".part" ++ digits /\
          Spec.zero_padded3 (S i) digits) /\
       disk s' !! chunk_filename file_path (S i) = Some (Spec.chunk C data i) /\
       (length (Spec.chunk C data i) <= C)%nat /\
       ((S i < n)%nat -> length (Spec.chunk C data i) = C)) /\
    concat (Spec.chunk C data <$> seq 0 n) = data /\
    (forall p, p <> file_path ->
       (forall i, (i < n)%nat -> p <> chunk_filename file_path (S i)) ->
       disk s' !! p = disk s !! p) /\
    files_split (self s') = (files_split (self s) + 1)%Z.
Proof.
  intros Hdata HS HC Hsize n. split.
  { intros Hmax. apply (split_file_succeeds file_path s data Hdata); lia. }
  intros s' Hrun.
  apply split_file_inv in Hrun as (b & [= <-] & Hself & data' & s1 & s2 & Hdata' & Hs1 & Hd1
                                   & Hloop & Hgone & _ & Hrest).
  rewrite Hdata in Hdata'. injection Hdata' as <-.
  rewrite (chunk_nums_ceil _ _ C Hsize HC) in Hloop. fold n in Hloop.
  pose proof (split_loop_frame _ _ _ _ _ _ _ Hloop) as [_ Hframe].
  split; [done |]. split; [| split; [| split]].
  - intros i Hi. split; [eexists; split; [reflexivity | apply format_03d_padded] |].
    destruct (split_loop_ok F file_path data C (seq 1 n) 0 s1 s2 Hloop) with (i := i) (k := S i)
      as (Hchunk & _).
    + by rewrite Hd1.
    + by rewrite Hs1.
    + apply chunk_filenames_NoDup.
    + by apply lookup_seq_lt.
    + rewrite Hrest by apply chunk_filename_ne.
      split; [exact Hchunk |]. split.
      * rewrite chunk_length. lia.
      * intros Hlt. by apply full_chunk_length.
  - apply concat_chunks; [done |]. apply ceil_div_bounds. done.
  - intros p Hp Hnot. rewrite Hrest, Hframe, Hd1; [done | | done].
    intros (k & -> & Hk%elem_of_seq)%list_elem_of_fmap.
    destruct k as [| i]; [lia |]. apply (Hnot i); [lia | done].
  - by rewrite Hself.
Qed.


(** ** The splitter: the scan *)

Lemma split_file_total (F : Faults) file_path s :
  exists b s',
    split_file F file_path s = (Ok b, s') /\
    files_scanned (self s') = files_scanned (self s).
Proof.
  destruct (split_file F file_path s) as [r s'] eqn:Hrun.
  apply split_file_inv in Hrun as (b & -> & Hb).
  exists b, s'. split; [done |].
  destruct b; destruct Hb as [-> _]; done.
Qed.

Lemma scan_file_try_scanned (F : Faults) file_path s r s' :
  scan_file_try F file_path s = (r, s') ->
  files_scanned (self s') = files_scanned (self s).
Proof.
  unfold scan_file_try. intros H.
  apply bind_inv in H as [(n & s1 & H1 & H) | (e & H1 & ->)];
    apply getsize_inv in H1 as (Hs1 & _); [| by rewrite Hs1].
  apply bind_inv in H as [(max & s2 & [[= ->] ->]%gets_inv & H) | (e & [? _]%gets_inv & _)];
    [| done].
  destruct (_ <? _)%Z.
  - apply bind_inv in H as [([] & s3 & (_ & Hs3 & _)%log_inv & H) | (e & (? & _)%log_inv & _)];
      [| done].
    destruct (split_file_total F file_path s3) as (b & s4 & Hrun & Hsc).
    rewrite (bind_run_ok _ _ _ _ _ Hrun) in H. injection H as _ <-. congruence.
  - injection H as _ <-. by rewrite Hs1.
Qed.

(** The body of the scan loop never raises, and counts the file unless its
    name carries the chunk marker. *)
Lemma scan_file_inv (F : Faults) root filename s r s' :
  scan_file F root filename s = (r, s') ->
  r = Ok tt /\
  files_scanned (self s') =
    (files_scanned (self s) + if PyStr.contains ".part" filename then 0 else 1)%Z.
Proof.
  unfold scan_file. destruct (PyStr.contains ".part" filename).
  { intros [= <- <-]. split; [done | lia]. }
  unfold mbind at 1, M_bind at 1, bind at 1, on_self at 1, modify, try_except.
  match goal with
  | |- context [scan_file_try F ?p ?st] =>
      destruct (scan_file_try F p st) as [[[] | e] s1] eqn:Htry;
      apply scan_file_try_scanned in Htry; simpl in Htry
  end.
  - by intros [= <- <-].
  - unfold mbind, M_bind, bind, log, on_self, modify. simpl.
    by intros [= <- <-].
Qed.

(** The scan of a directory goes through all its files. *)
Lemma for_each_scan_file (F : Faults) root files : forall s,
  exists s',
    for_each files (scan_file F root) s = (Ok tt, s') /\
    files_scanned (self s') =
      (files_scanned (self s)
       + Z.of_nat (length (filter (fun f => PyStr.contains ".part" f = false) files)))%Z.
Proof.
  induction files as [| f files IH]; intros s.
  { exists s. split; [done | simpl; lia]. }
  destruct (scan_file F root f s) as [r s1] eqn:H1.
  pose proof H1 as [-> Hsc]%scan_file_inv.
  destruct (IH s1) as (s' & Hrest & Hsc').
  exists s'. split.
  - cbn [for_each]. by rewrite (bind_run_ok _ _ _ _ _ H1).
  - rewrite Hsc', Hsc, filter_cons.
    destruct (PyStr.contains ".part" f); case_decide; try done; simpl; lia.
Qed.

(** C6.  [split_file] never raises.  When it fails the source file is
    intact, the failure is counted and no split is; the source is gone only
    after a run that returned [True], and then every chunk is on disk; a
    fault on the creation or the write of any chunk makes the run fail.
    The scan goes on after a failure: the loop over the files of a
    directory returns normally having counted every file that is not a
    chunk. *)
Theorem split_file_failure_keeps_original (F : Faults) s file_path data r s' :
  disk s !! file_path = Some data ->
  split_file F file_path s = (r, s') ->
  exists b, r = Ok b /\
    (b = false ->
       disk s' !! file_path = Some data /\
       files_failed (self s') = (files_failed (self s) + 1)%Z /\
       files_split (self s') = files_split (self s)) /\
    (disk s' !! file_path = None -> b = true) /\
    (forall (C i k : nat),
       chunk_size_bytes (self s) = Z.of_nat C ->
       chunk_nums (self s) (length data) !! i = Some k ->
       (b = true -> disk s' !! chunk_filename file_path k = Some (Spec.chunk C data i)) /\
       (open_wb_fails F (chunk_filename file_path k) = true \/
        (exists lim, write_limit F (chunk_filename file_path k) = Some lim /\
                     (lim < length (Spec.chunk C data i))%nat) ->
        b = false)) /\
    (forall root files s0, exists s1,
       for_each files (scan_file F root) s0 = (Ok tt, s1) /\
       files_scanned (self s1) =
         (files_scanned (self s0)
          + Z.of_nat (length (filter (fun f => PyStr.contains ".part" f = false) files)))%Z).
Proof.
  intros Hdata Hrun.
  apply split_file_inv in Hrun as (b & -> & Hb).
  exists b. split; [done |].
  assert (b = false -> disk s' !! file_path = Some data) as Hintact.
  { intros ->. destruct Hb as [_ Hd]. rewrite Hd; [done |].
    intros k Hk. symmetry in Hk. by apply chunk_filename_ne in Hk. }
  split; [| split; [| split]].
  - intros ->. split; [by apply Hintact |]. by destruct Hb as [-> _].
  - intros Hgone. destruct b; [done |]. rewrite Hintact in Hgone; done.
  - intros C i k HC Hik.
    assert (b = true ->
            disk s' !! chunk_filename file_path k = Some (Spec.chunk C data i) /\
            open_wb_fails F (chunk_filename file_path k) = false /\
            forall lim, write_limit F (chunk_filename file_path k) = Some lim ->
              (length (Spec.chunk C data i) <= lim)%nat) as Hok.
    { intros ->.
      destruct Hb as (_ & data' & s1 & s2 & Hdata' & Hs1 & Hd1 & Hloop & _ & _ & Hrest).
      rewrite Hdata in Hdata'. injection Hdata' as <-.
      rewrite Hrest by apply chunk_filename_ne.
      eapply (split_loop_ok F file_path data C _ 0 s1 s2 Hloop); try done.
      - by rewrite Hd1.
      - by rewrite Hs1.
      - apply chunk_filenames_NoDup. }
    split; [intros Hb'; by apply Hok |].
    intros Hfault. destruct b; [| done].
    destruct (Hok eq_refl) as (_ & Hopen & Hlim).
    destruct Hfault as [Hf | (lim & Hl & Hlt)]; [congruence |].
    specialize (Hlim _ Hl). lia.
  - intros root files s0. apply for_each_scan_file.
Qed.




End SplitFileTheorems.

(** ** The splitter on a small disk *)

Lemma split_file_round_trip_witness :
  let s := Sample.splitter_state in
  let n := Spec.ceil_div 10 4 in
  ((4 <= Fs.max_read)%Z ->
   exists s', Splitter.split_file no_faults "data/big.bin" s = (Ok true, s')) /\
  forall s', Splitter.split_file no_faults "data/big.bin" s = (Ok true, s') ->
    Splitter.disk s' !! "data/big.bin" = None /\
    (forall i, (i < n)%nat ->
       (exists digits,
          Splitter.chunk_filename "data/big.bin" (S i) = "data/big.bin" ++ ".part" ++ digits /\
          Spec.zero_padded3 (S i) digits) /\
       Splitter.disk s' !! Splitter.chunk_filename "data/big.bin" (S i)
         = Some (Spec.chunk 4 Sample.ten_bytes i) /\
       (length (Spec.chunk 4 Sample.ten_bytes i) <= 4)%nat /\
       ((S i < n)%nat -> length (Spec.chunk 4 Sample.ten_bytes i) = 4%nat)) /\
    concat (Spec.chunk 4 Sample.ten_bytes <$> seq 0 n) = Sample.ten_bytes /\
    (forall p, p <> "data/big.bin" ->
       (forall i, (i < n)%nat -> p <> Splitter.chunk_filename "data/big.bin" (S i)) ->
       Splitter.disk s' !! p = Splitter.disk s !! p) /\
    Splitter.files_split (Splitter.self s')
      = (Splitter.files_split (Splitter.self s) + 1)%Z.
Proof.
  apply (split_file_round_trip no_faults Sample.splitter_state "data/big.bin"
           Sample.ten_bytes 4);
    [reflexivity | simpl; lia | lia | reflexivity].
Defined.

Example split_file_ten_by_four :
  let s' := (Splitter.split_file no_faults "data/big.bin" Sample.splitter_state).2 in
  Splitter.disk s' !! "data/big.bin" = None /\
  Splitter.disk s' !! "data/big.bin.part001" = Some (take 4 Sample.ten_bytes) /\
  Splitter.disk s' !! "data/big.bin.part002" = Some (take 4 (drop 4 Sample.ten_bytes)) /\
  Splitter.disk s' !! "data/big.bin.part003" = Some (drop 8 Sample.ten_bytes) /\
  Splitter.disk s' !! "data/big.bin.part004" = None /\
  Splitter.files_split (Splitter.self s') = 1%Z.
Proof. by vm_compute. Qed.

(** A disk on which the second chunk cannot be created. *)
Example split_file_second_chunk_fails :
  let s' := (Splitter.split_file Sample.second_chunk_unwritable "data/big.bin"
               Sample.splitter_state).2 in
  (Splitter.split_file Sample.second_chunk_unwritable "data/big.bin"
     Sample.splitter_state).1 = Ok false /\
  Splitter.disk s' !! "data/big.bin" = Some Sample.ten_bytes /\
  Splitter.disk s' !! "data/big.bin.part001" = Some (take 4 Sample.ten_bytes) /\
  Splitter.disk s' !! "data/big.bin.part002" = None /\
  Splitter.files_failed (Splitter.self s') = 1%Z /\
  Splitter.files_split (Splitter.self s') = 0%Z.
Proof. by vm_compute. Qed.

Lemma split_file_failure_keeps_original_witness :
  let F := Sample.second_chunk_unwritable in
  let s := Sample.splitter_state in
  let r := (Splitter.split_file F "data/big.bin" s).1 in
  let s' := (Splitter.split_file F "data/big.bin" s).2 in
  exists b, r = Ok b /\
    (b = false ->
       Splitter.disk s' !! "data/big.bin" = Some Sample.ten_bytes /\
       Splitter.files_failed (Splitter.self s')
         = (Splitter.files_failed (Splitter.self s) + 1)%Z /\
       Splitter.files_split (Splitter.self s') = Splitter.files_split (Splitter.self s)) /\
    (Splitter.disk s' !! "data/big.bin" = None -> b = true) /\
    (forall (C i k : nat),
       Splitter.chunk_size_bytes (Splitter.self s) = Z.of_nat C ->
       Spec.chunk_nums (Splitter.self s) (length Sample.ten_bytes) !! i = Some k ->
       (b = true ->
        Splitter.disk s' !! Splitter.chunk_filename "data/big.bin" k
          = Some (Spec.chunk C Sample.ten_bytes i)) /\
       (open_wb_fails F (Splitter.chunk_filename "data/big.bin" k) = true \/
        (exists lim, write_limit F (Splitter.chunk_filename "data/big.bin" k) = Some lim /\
                     (lim < length (Spec.chunk C Sample.ten_bytes i))%nat) ->
        b = false)) /\
    (forall root files s0, exists s1,
       Splitter.for_each files (Splitter.scan_file F root) s0 = (Ok tt, s1) /\
       Splitter.files_scanned (Splitter.self s1) =
         (Splitter.files_scanned (Splitter.self s0)
          + Z.of_nat (length (filter (fun f => PyStr.contains ".part" f = false) files)))%Z).
Proof.
  exact (split_file_failure_keeps_original Sample.second_chunk_unwritable
           Sample.splitter_state "data/big.bin" Sample.ten_bytes _ _ eq_refl
           (surjective_pairing _)).
Defined.


(** At the threshold and one byte above it (threshold 8, chunks of 4). *)
Example scan_file_at_threshold :
  let s := {| Splitter.self := Splitter.self Sample.splitter_state;
              Splitter.disk := {["data/a.bin" := take 8 Sample.ten_bytes]};
              Splitter.logged := [] |} in
  let s' := (Splitter.scan_file no_faults "data" "a.bin" s).2 in
  Splitter.disk s' !! "data/a.bin" = Some (take 8 Sample.ten_bytes) /\
  Splitter.disk s' !! "data/a.bin.part001" = None /\
  Splitter.files_scanned (Splitter.self s') = 1%Z /\
  Splitter.files_split (Splitter.self s') = 0%Z.
Proof. by vm_compute. Qed.

Example scan_file_above_threshold :
  let s := {| Splitter.self := Splitter.self Sample.splitter_state;
              Splitter.disk := {["data/a.bin" := take 9 Sample.ten_bytes]};
              Splitter.logged := [] |} in
  let s' := (Splitter.scan_file no_faults "data" "a.bin" s).2 in
  Splitter.disk s' !! "data/a.bin" = None /\
  Splitter.disk s' !! "data/a.bin.part001" = Some (take 4 Sample.ten_bytes) /\
  Splitter.disk s' !! "data/a.bin.part003" = Some [Byte.x08] /\
  Splitter.files_scanned (Splitter.self s') = 1%Z /\
  Splitter.files_split (Splitter.self s') = 1%Z.
Proof. by vm_compute. Qed.

(** The whole program on the same disk: with a valid configuration the
    scan runs (and skips the stray chunk file). *)
Example main_scans :
  let walk := fun _ : string => [("data", @nil string, ["big.bin"; "big.bin.part009"])] in
  let disk0 : gmap string bytes := {["data/big.bin" := Sample.ten_bytes]} in
  match Splitter.main no_faults walk (fun _ => true) LibModel.decimal_int
          ["split_large_files.py"; "data"; "1"; "0"] disk0 with
  | (Splitter.Returned o, d, _) =>
      Splitter.files_scanned o = 1%Z /\ Splitter.files_split o = 0%Z /\
      d !! "data/big.bin" = Some Sample.ten_bytes
  | _ => False
  end.
Proof. by vm_compute. Qed.

(** ** The crawler: one file *)

Section DownloadFile.

Import Downloader.

Variable F : Faults.
Variable R : Remote.
Variable py_int : string -> option Z.

Implicit Types (s : State) (data : bytes) (url p : string).

Lemma on_disk_inv {A} (m : M (gmap string bytes) A) s r s' :
  on_disk m s = (r, s') ->
  self s' = self s /\ requests s' = requests s /\ logged s' = logged s.
Proof. unfold on_disk. destruct (m (disk s)). by intros [= <- <-]. Qed.

Lemma write_chunks_inv p body : forall n s r s',
  write_chunks F p body n s = (r, s') ->
  self s' = self s /\ requests s' = requests s /\ logged s' = logged s.
Proof.
  induction body as [| chunk body IH]; intros n s r s' H.
  - by injection H as <- <-.
  - cbn [write_chunks] in H. destruct chunk as [| b chunk]; [by eapply IH |].
    apply bind_inv in H as [(a & s1 & H1 & H) | (e & H1 & ->)];
      apply on_disk_inv in H1 as (Hs & Hr & Hl).
    + apply IH in H as (? & ? & ?). repeat split; congruence.
    + done.
Qed.

(** Without a limit on the file, the loop appends the whole body. *)
Lemma write_chunks_run p body :
  write_limit F p = None ->
  forall n o d rq lg cur,
    d !! p = Some cur ->
    write_chunks F p body n {| self := o; disk := d; requests := rq; logged := lg |}
    = (Ok (n + Z.of_nat (length (concat body)))%Z,
       {| self := o; disk := <[p := (cur ++ concat body)%list]> d;
          requests := rq; logged := lg |}).
Proof.
  intros Hlim. induction body as [| chunk body IH]; intros n o d rq lg cur Hcur.
  - simpl. rewrite app_nil_r, insert_id by done.
    unfold mret, M_ret. do 2 f_equal. lia.
  - cbn [write_chunks concat]. destruct chunk as [| b chunk].
    { by apply IH. }
    unfold mbind, M_bind, bind, on_disk, Fs.write. cbn [disk self requests logged].
    rewrite Hlim, Hcur. cbn [default from_option id].
    rewrite (IH _ _ _ _ _ (cur ++ b :: chunk)%list) by apply lookup_insert_eq.
    rewrite insert_insert_eq, length_app, <- app_assoc.
    do 2 f_equal. lia.
Qed.

(** The check of the existing file, for a file that is there. *)
Lemma already_complete_run url p s data :
  disk s !! p = Some data ->
  getsize_fails F p = false ->
  let probed :=
    {| self := self s; disk := disk s;
       requests := (requests s ++ [Head url])%list; logged := logged s |} in
  already_complete F R py_int url p s =
    match http_head R url with
    | None => (Raise RequestException, probed)
    | Some hr =>
        match header_value py_int hr with
        | None => (Raise ValueError, probed)
        | Some n =>
            if (Z.of_nat (length data) =? n)%Z
            then (Ok true,
                  {| self := incr_skipped (self s); disk := disk s;
                     requests := (requests s ++ [Head url])%list;
                     logged := (logged s ++ [SkippingExists p])%list |})
            else (Ok false, probed)
        end
    end.
Proof.
  intros Hdata Hgs probed. subst probed.
  unfold already_complete, session_head, header_int.
  repeat (unfold mbind, M_bind, bind, mret, M_ret, raise, gets, modify, log, sent,
            on_self, on_disk, Fs.getsize;
          simpl; rewrite ?Hdata, ?Hgs).
  destruct (http_head R url) as [hr |]; simpl; [| done].
  destruct (header_value py_int hr) as [n |]; simpl; [| done].
  by destruct (_ =? _)%Z.
Qed.

Lemma already_complete_absent url p s :
  disk s !! p = None -> already_complete F R py_int url p s = (Ok false, s).
Proof.
  intros Hnone. unfold already_complete, mbind, M_bind, bind, gets.
  by rewrite Hnone.
Qed.

Lemma dl_log_inv m s r s' :
  log m s = (r, s') ->
  r = Ok tt /\ self s' = self s /\ disk s' = disk s /\ requests s' = requests s /\
  logged s' = (logged s ++ [m])%list.
Proof. unfold log, modify. by intros [= <- <-]. Qed.

Lemma dl_on_self_inv f s r s' :
  on_self f s = (r, s') ->
  r = Ok tt /\ self s' = f (self s) /\ disk s' = disk s /\ requests s' = requests s /\
  logged s' = logged s.
Proof. unfold on_self, modify. by intros [= <- <-]. Qed.

Lemma session_get_inv url s r s' :
  session_get R url s = (r, s') ->
  self s' = self s /\ disk s' = disk s /\ logged s' = logged s /\
  requests s' = (requests s ++ [Get url])%list /\
  r = match http_get R url with Some g => Ok g | None => Raise RequestException end.
Proof.
  unfold session_get, mbind, M_bind, bind, sent, modify.
  destruct (http_get R url); by intros [= <- <-].
Qed.

Lemma raise_for_status_inv g s r s' :
  raise_for_status g s = (r, s') ->
  s' = s /\ r = if error_status g then Raise HTTPError else Ok tt.
Proof. unfold raise_for_status. destruct (error_status g); by intros [= <- <-]. Qed.

Lemma header_int_inv g s r s' :
  header_int py_int g s = (r, s') ->
  s' = s /\ r = match header_value py_int g with Some n => Ok n | None => Raise ValueError end.
Proof. unfold header_int. destruct (header_value py_int g); by intros [= <- <-]. Qed.

(** The transfer sends one [GET]; it returns [True] with the download
    counted, or raises with the counters as they were. *)
Lemma transfer_inv url p s r s' :
  transfer F R py_int url p s = (r, s') ->
  requests s' = (requests s ++ [Get url])%list /\
  match r with
  | Ok b => b = true /\ self s' = incr_downloaded (self s)
  | Raise _ => self s' = self s
  end.
Proof.
  unfold transfer. intros H.
  apply bind_inv in H as [([] & s1 & (_ & Hs1 & _ & Hr1 & _)%dl_log_inv & H)
                         | (e & (? & _)%dl_log_inv & _)]; [| done].
  apply bind_inv in H as [(g & s2 & H2 & H) | (e & H2 & ->)];
    apply session_get_inv in H2 as (Hs2 & _ & _ & Hr2 & _);
    [| split; congruence].
  apply bind_inv in H as [([] & s3 & [-> _]%raise_for_status_inv & H)
                         | (e & [-> _]%raise_for_status_inv & ->)];
    [| split; congruence].
  apply bind_inv in H as [(total & s4 & [-> _]%header_int_inv & H)
                         | (e & [-> _]%header_int_inv & ->)];
    [| split; congruence].
  apply bind_inv in H as [([] & s5 & H5 & H) | (e & H5 & ->)];
    apply on_disk_inv in H5 as (Hs5 & Hr5 & _); [| split; congruence].
  apply bind_inv in H as [([] & s6 & H6 & H) | (e & H6 & ->)];
    apply on_disk_inv in H6 as (Hs6 & Hr6 & _); [| split; congruence].
  apply bind_inv in H as [(n & s7 & H7 & H) | (e & H7 & ->)];
    apply write_chunks_inv in H7 as (Hs7 & Hr7 & _); [| split; congruence].
  assert (forall (r0 : result unit) s0,
            (if complete g then mret tt else raise RequestException) s7 = (r0, s0) ->
            s0 = s7) as Hcomplete.
  { intros r0 s0. destruct (complete g); by intros [= <- <-]. }
  apply bind_inv in H as [([] & s8 & ->%Hcomplete & H) | (e & ->%Hcomplete & ->)];
    [| split; congruence].
  apply bind_inv in H as [([] & s9 & (_ & Hs9 & _ & Hr9 & _)%dl_log_inv & H)
                         | (e & (? & _)%dl_log_inv & _)]; [| done].
  apply bind_inv in H as [([] & s10 & (_ & Hs10 & _ & Hr10 & _)%dl_on_self_inv & H)
                         | (e & (? & _)%dl_on_self_inv & _)]; [| done].
  injection H as <- <-. split; [congruence |]. split; [done | congruence].
Qed.

(** On a healthy remote and disk the transfer stores the body. *)
Lemma transfer_succeeds url p s g :
  http_get R url = Some g ->
  error_status g = false ->
  is_Some (header_value py_int g) ->
  complete g = true ->
  PosixPath.dirname p <> "" ->
  makedirs_fails F (PosixPath.dirname p) = false ->
  open_wb_fails F p = false ->
  write_limit F p = None ->
  transfer F R py_int url p s =
    (Ok true,
     {| self := incr_downloaded (self s);
        disk := <[p := concat (chunks g)]> (disk s);
        requests := (requests s ++ [Get url])%list;
        logged := (logged s ++ [Downloading url;
                                Downloaded p (Z.of_nat (length (concat (chunks g))))])%list |}).
Proof.
  intros Hget Hstatus [n Hn] Hcomplete Hdir Hmk Hopen Hlim.
  unfold transfer, session_get, raise_for_status, header_int.
  destruct (PosixPath.dirname p) as [| c dir] eqn:Hdirname; [done |].
  repeat (unfold mbind at 1, M_bind at 1, bind at 1, mret, M_ret, raise, gets, modify,
            log, sent, on_self, on_disk, Fs.makedirs, Fs.open_wb;
          cbn [self disk requests logged];
          rewrite ?Hget, ?Hstatus, ?Hn, ?Hcomplete, ?Hmk, ?Hopen).
  rewrite (write_chunks_run p (chunks g) Hlim _ _ _ _ _ []) by apply lookup_insert_eq.
  cbn [self disk requests logged app].
  by rewrite insert_insert_eq, <- app_assoc.
Qed.

(** C4, as amended.  For a file whose local copy exists: when the [HEAD]
    request itself raises, the file is counted as failed and no transfer is
    attempted; when the probe answers and the size it declares (0 when the
    header is missing) differs from the local size, [download_file] sends
    the [GET], never skips, and counts the file as downloaded when the
    transfer completes and as failed when it raises; on a healthy remote and
    disk it completes and stores the body, and it fails when the [GET]
    raises or answers with an error status. *)
Theorem download_file_probe_outcomes url p s data :
  disk s !! p = Some data ->
  getsize_fails F p = false ->
  (http_head R url = None ->
     download_file F R py_int url p s =
       (Ok false,
        {| self := incr_failed (self s); disk := disk s;
           requests := (requests s ++ [Head url])%list;
           logged := (logged s ++ [DownloadFailed url RequestException])%list |})) /\
  (forall hr n,
     http_head R url = Some hr ->
     header_value py_int hr = Some n ->
     n <> Z.of_nat (length data) ->
     (forall r s', download_file F R py_int url p s = (r, s') ->
        requests s' = (requests s ++ [Head url; Get url])%list /\
        skipped_count (self s') = skipped_count (self s) /\
        ((r = Ok true /\
          downloaded_count (self s') = (downloaded_count (self s) + 1)%Z /\
          failed_count (self s') = failed_count (self s)) \/
         (r = Ok false /\
          failed_count (self s') = (failed_count (self s) + 1)%Z /\
          downloaded_count (self s') = downloaded_count (self s)))) /\
     (forall g,
        http_get R url = Some g -> error_status g = false ->
        is_Some (header_value py_int g) -> complete g = true ->
        PosixPath.dirname p <> "" ->
        makedirs_fails F (PosixPath.dirname p) = false ->
        open_wb_fails F p = false -> write_limit F p = None ->
        exists s', download_file F R py_int url p s = (Ok true, s') /\
                   disk s' !! p = Some (concat (chunks g)) /\
                   downloaded_count (self s') = (downloaded_count (self s) + 1)%Z) /\
     (http_get R url = None \/
      (exists g, http_get R url = Some g /\ error_status g = true) ->
      (download_file F R py_int url p s).1 = Ok false)).
Proof.
  intros Hdata Hgs. split.
  { intros Hhead. unfold download_file, try_except, download_file_try.
    unfold mbind at 1, M_bind at 1, bind at 1.
    rewrite (already_complete_run url p s data Hdata Hgs), Hhead.
    reflexivity. }
  intros hr n Hhead Hn Hne.
  assert (download_file_try F R py_int url p s =
          transfer F R py_int url p
            {| self := self s; disk := disk s;
               requests := (requests s ++ [Head url])%list; logged := logged s |}) as Htry.
  { unfold download_file_try. unfold mbind at 1, M_bind at 1, bind at 1.
    rewrite (already_complete_run url p s data Hdata Hgs), Hhead, Hn.
    by rewrite (proj2 (Z.eqb_neq _ _) (not_eq_sym Hne)). }
  split; [| split].
  - intros r s'. unfold download_file, try_except. rewrite Htry.
    destruct (transfer _ _ _ _ _ _) as [[b | e] s1] eqn:Htr;
      apply transfer_inv in Htr as [Hreq Hself]; cbn [requests self] in Hreq, Hself.
    + destruct Hself as [-> Hself]. intros [= <- <-].
      split; [by rewrite Hreq, <- app_assoc |]. rewrite Hself. split; [done |].
      left. done.
    + unfold mbind, M_bind, bind, log, on_self, modify, mret, M_ret.
      intros [= <- <-]. cbn [requests self]. rewrite Hself.
      split; [by rewrite Hreq, <- app_assoc |]. split; [done |].
      right. done.
  - intros g Hget Hst Hhv Hc Hdir Hmk Hopen Hlim.
    unfold download_file, try_except. rewrite Htry.
    rewrite (transfer_succeeds url p _ g) by done.
    eexists. split; [reflexivity |]. cbn [disk self]. split; [| done].
    apply lookup_insert_eq.
  - intros Hbad. unfold download_file, try_except. rewrite Htry.
    unfold transfer, session_get, raise_for_status.
    destruct Hbad as [Hget | (g & Hget & Hst)];
      repeat (unfold mbind at 1, M_bind at 1, bind at 1, mret, M_ret, raise, gets,
                modify, log, sent, on_self;
              cbn [self disk requests logged];
              rewrite ?Hget, ?Hst);
      reflexivity.
Qed.

(** The two runs behind C5, with the states they reach. *)
Lemma download_file_skip_then_keep url p s :
  (forall data hr,
     disk s !! p = Some data ->
     getsize_fails F p = false ->
     http_head R url = Some hr ->
     header_value py_int hr = Some (Z.of_nat (length data)) ->
     download_file F R py_int url p s =
       (Ok true,
        {| self := incr_skipped (self s); disk := disk s;
           requests := (requests s ++ [Head url])%list;
           logged := (logged s ++ [SkippingExists p])%list |})) /\
  (forall g hr,
     disk s !! p = None ->
     http_get R url = Some g -> error_status g = false ->
     is_Some (header_value py_int g) -> complete g = true ->
     PosixPath.dirname p <> "" ->
     makedirs_fails F (PosixPath.dirname p) = false ->
     open_wb_fails F p = false -> write_limit F p = None ->
     getsize_fails F p = false ->
     http_head R url = Some hr ->
     header_value py_int hr = Some (Z.of_nat (length (concat (chunks g)))) ->
     exists s1 s2,
       download_file F R py_int url p s = (Ok true, s1) /\
       download_file F R py_int url p s1 = (Ok true, s2) /\
       self s1 = incr_downloaded (self s) /\
       self s2 = incr_skipped (self s1) /\
       disk s1 !! p = Some (concat (chunks g)) /\
       disk s2 = disk s1 /\
       requests s1 = (requests s ++ [Get url])%list /\
       requests s2 = (requests s1 ++ [Head url])%list).
Proof.
  assert (forall s0 data hr,
     disk s0 !! p = Some data ->
     getsize_fails F p = false ->
     http_head R url = Some hr ->
     header_value py_int hr = Some (Z.of_nat (length data)) ->
     download_file F R py_int url p s0 =
       (Ok true,
        {| self := incr_skipped (self s0); disk := disk s0;
           requests := (requests s0 ++ [Head url])%list;
           logged := (logged s0 ++ [SkippingExists p])%list |})) as Hskip.
  { intros s0 data hr Hdata Hgs Hhead Hn.
    unfold download_file, try_except, download_file_try.
    unfold mbind at 1, M_bind at 1, bind at 1.
    rewrite (already_complete_run url p s0 data Hdata Hgs), Hhead, Hn.
    by rewrite Z.eqb_refl. }
  split; [apply Hskip |].
  intros g hr Hnone Hget Hst Hhv Hc Hdir Hmk Hopen Hlim Hgs Hhead Hn.
  eexists _, _. split; [| split].
  - unfold download_file, try_except, download_file_try.
    unfold mbind at 1, M_bind at 1, bind at 1.
    rewrite (already_complete_absent url p s Hnone).
    rewrite (transfer_succeeds url p s g) by done. reflexivity.
  - apply (Hskip _ (concat (chunks g)) hr); try done.
    cbn [disk]. apply lookup_insert_eq.
  - cbn [self disk requests]. repeat split; try done. apply lookup_insert_eq.
Qed.


Lemma counted_incr_downloaded o : Spec.counted o (incr_downloaded o) 1 0 0.
Proof. unfold Spec.counted. cbn. repeat split; lia. Qed.

Lemma counted_incr_skipped o : Spec.counted o (incr_skipped o) 0 1 0.
Proof. unfold Spec.counted. cbn. repeat split; lia. Qed.

Lemma counted_incr_failed o : Spec.counted o (incr_failed o) 0 0 1.
Proof. unfold Spec.counted. cbn. repeat split; lia. Qed.

(** C5, as amended.  A file that is present with the size that the remote
    declares in answer to the [HEAD] request is skipped: the call returns
    [True], one [HEAD] is sent and no [GET], the skip counter goes up by
    one, and the disk, the other counters and the configuration are as
    before.  Downloading a missing file twice from a healthy, unchanged
    remote whose [HEAD] answer declares the size of the body it serves
    gives a download (download counter up by one) and then a skip (skip
    counter up by one), and the local bytes after the second run are those
    after the first, the body served. *)
Theorem download_file_idempotent url p s :
  (forall data hr,
     disk s !! p = Some data ->
     getsize_fails F p = false ->
     http_head R url = Some hr ->
     header_value py_int hr = Some (Z.of_nat (length data)) ->
     exists s',
       download_file F R py_int url p s = (Ok true, s') /\
       Spec.counted (self s) (self s') 0 1 0 /\
       disk s' = disk s /\
       requests s' = (requests s ++ [Head url])%list /\
       logged s' = (logged s ++ [SkippingExists p])%list) /\
  (forall g hr,
     disk s !! p = None ->
     http_get R url = Some g -> error_status g = false ->
     is_Some (header_value py_int g) -> complete g = true ->
     PosixPath.dirname p <> "" ->
     makedirs_fails F (PosixPath.dirname p) = false ->
     open_wb_fails F p = false -> write_limit F p = None ->
     getsize_fails F p = false ->
     http_head R url = Some hr ->
     header_value py_int hr = Some (Z.of_nat (length (concat (chunks g)))) ->
     exists s1 s2,
       download_file F R py_int url p s = (Ok true, s1) /\
       download_file F R py_int url p s1 = (Ok true, s2) /\
       Spec.counted (self s) (self s1) 1 0 0 /\
       Spec.counted (self s1) (self s2) 0 1 0 /\
       disk s1 !! p = Some (concat (chunks g)) /\
       disk s2 !! p = Some (concat (chunks g)) /\
       disk s2 = disk s1 /\
       requests s1 = (requests s ++ [Get url])%list /\
       requests s2 = (requests s1 ++ [Head url])%list).
Proof.
  destruct (download_file_skip_then_keep url p s) as [Hskip Htwice]. split.
  - intros data hr Hdata Hgs Hhead Hn.
    eexists. split; [by eapply Hskip |]. cbn [self disk requests logged].
    split; [apply counted_incr_skipped | done].
  - intros g hr Hnone Hget Hst Hhv Hc Hdir Hmk Hopen Hlim Hgs Hhead Hn.
    destruct (Htwice g hr) as (s1 & s2 & H1 & H2 & Hs1 & Hs2 & Hd1 & Hd2 & Hr1 & Hr2);
      try done.
    exists s1, s2. rewrite Hs2, Hs1, Hd2.
    repeat split; try done;
      first [apply counted_incr_downloaded | apply counted_incr_skipped].
Qed.

End DownloadFile.

(** ** The crawler on a small remote *)

Lemma download_file_probe_outcomes_witness :
  let F := no_faults in
  let R := Sample.remote_head_unsized in
  let py_int := LibModel.decimal_int in
  let url := Sample.file_url in
  let p := Sample.local_path in
  let s := Sample.crawler_state_stale in
  let data := [Byte.x00] in
  (Downloader.http_head R url = None ->
     Downloader.download_file F R py_int url p s =
       (Ok false,
        {| Downloader.self := Downloader.incr_failed (Downloader.self s);
           Downloader.disk := Downloader.disk s;
           Downloader.requests := (Downloader.requests s ++ [Downloader.Head url])%list;
           Downloader.logged :=
             (Downloader.logged s
              ++ [Downloader.DownloadFailed url RequestException])%list |})) /\
  (forall hr n,
     Downloader.http_head R url = Some hr ->
     Downloader.header_value py_int hr = Some n ->
     n <> Z.of_nat (length data) ->
     (forall r s', Downloader.download_file F R py_int url p s = (r, s') ->
        Downloader.requests s'
          = (Downloader.requests s ++ [Downloader.Head url; Downloader.Get url])%list /\
        Downloader.skipped_count (Downloader.self s')
          = Downloader.skipped_count (Downloader.self s) /\
        ((r = Ok true /\
          Downloader.downloaded_count (Downloader.self s')
            = (Downloader.downloaded_count (Downloader.self s) + 1)%Z /\
          Downloader.failed_count (Downloader.self s')
            = Downloader.failed_count (Downloader.self s)) \/
         (r = Ok false /\
          Downloader.failed_count (Downloader.self s')
            = (Downloader.failed_count (Downloader.self s) + 1)%Z /\
          Downloader.downloaded_count (Downloader.self s')
            = Downloader.downloaded_count (Downloader.self s)))) /\
     (forall g,
        Downloader.http_get R url = Some g -> Downloader.error_status g = false ->
        is_Some (Downloader.header_value py_int g) -> Downloader.complete g = true ->
        PosixPath.dirname p <> "" ->
        makedirs_fails F (PosixPath.dirname p) = false ->
        open_wb_fails F p = false -> write_limit F p = None ->
        exists s', Downloader.download_file F R py_int url p s = (Ok true, s') /\
                   Downloader.disk s' !! p = Some (concat (Downloader.chunks g)) /\
                   Downloader.downloaded_count (Downloader.self s')
                     = (Downloader.downloaded_count (Downloader.self s) + 1)%Z) /\
     (Downloader.http_get R url = None \/
      (exists g, Downloader.http_get R url = Some g /\ Downloader.error_status g = true) ->
      (Downloader.download_file F R py_int url p s).1 = Ok false)).
Proof.
  exact (download_file_probe_outcomes no_faults Sample.remote_head_unsized
           LibModel.decimal_int Sample.file_url Sample.local_path
           Sample.crawler_state_stale [Byte.x00] eq_refl eq_refl).
Defined.

(** C4, as stated, fails when the [HEAD] request raises: the local copy
    exists and the transfer would succeed, yet the file is counted as
    failed and no [GET] is sent. *)
Lemma download_file_probe_failure_counterexample :
  let R := Sample.remote_head_down in
  let s := Sample.crawler_state_stale in
  let run := Downloader.download_file no_faults R LibModel.decimal_int
               Sample.file_url Sample.local_path s in
  Downloader.disk s !! Sample.local_path = Some [Byte.x00] /\
  Downloader.http_head R Sample.file_url = None /\
  (Downloader.transfer no_faults R LibModel.decimal_int
     Sample.file_url Sample.local_path s).1 = Ok true /\
  run.1 = Ok false /\
  Downloader.failed_count (Downloader.self run.2) = 1%Z /\
  Downloader.downloaded_count (Downloader.self run.2) = 0%Z /\
  Downloader.requests run.2 = [Downloader.Head Sample.file_url] /\
  Downloader.disk run.2 !! Sample.local_path = Some [Byte.x00].
Proof. by vm_compute. Qed.

(** With a probe that answers without a size, the stale copy is replaced. *)
Example download_file_unsized_probe :
  let run := Downloader.download_file no_faults Sample.remote_head_unsized
               LibModel.decimal_int Sample.file_url Sample.local_path
               Sample.crawler_state_stale in
  run.1 = Ok true /\
  Downloader.downloaded_count (Downloader.self run.2) = 1%Z /\
  Downloader.requests run.2
    = [Downloader.Head Sample.file_url; Downloader.Get Sample.file_url] /\
  Downloader.disk run.2 !! Sample.local_path = Some Sample.ten_bytes.
Proof. by vm_compute. Qed.

Lemma download_file_idempotent_witness :
  let F := no_faults in
  let R := Sample.remote in
  let py_int := LibModel.decimal_int in
  let url := Sample.file_url in
  let p := Sample.local_path in
  let s := Sample.crawler_state in
  exists s1 s2,
    Downloader.download_file F R py_int url p s = (Ok true, s1) /\
    Downloader.download_file F R py_int url p s1 = (Ok true, s2) /\
    Spec.counted (Downloader.self s) (Downloader.self s1) 1 0 0 /\
    Spec.counted (Downloader.self s1) (Downloader.self s2) 0 1 0 /\
    Downloader.disk s1 !! p = Some (concat (Downloader.chunks Sample.file_response)) /\
    Downloader.disk s2 !! p = Some (concat (Downloader.chunks Sample.file_response)) /\
    Downloader.disk s2 = Downloader.disk s1 /\
    Downloader.requests s1 = (Downloader.requests s ++ [Downloader.Get url])%list /\
    Downloader.requests s2 = (Downloader.requests s1 ++ [Downloader.Head url])%list.
Proof.
  apply (proj2 (download_file_idempotent no_faults Sample.remote LibModel.decimal_int
                  Sample.file_url Sample.local_path Sample.crawler_state)
           Sample.file_response Sample.file_response);
    try reflexivity; try (by eexists); done.
Defined.

(** C5, as stated, fails for an unchanged remote that does not declare the
    size of what it serves: the second run finds the local size different
    from the declared one (taken as 0) and downloads the file again. *)
Lemma download_file_rerun_counterexample :
  let dl := Downloader.download_file no_faults Sample.remote_head_unsized
              LibModel.decimal_int Sample.file_url Sample.local_path in
  let s1 := (dl Sample.crawler_state).2 in
  let s2 := (dl s1).2 in
  (dl Sample.crawler_state).1 = Ok true /\
  (dl s1).1 = Ok true /\
  Downloader.downloaded_count (Downloader.self s1) = 1%Z /\
  Downloader.downloaded_count (Downloader.self s2) = 2%Z /\
  Downloader.skipped_count (Downloader.self s2) = 0%Z /\
  Downloader.requests s2
    = [Downloader.Get Sample.file_url; Downloader.Head Sample.file_url;
       Downloader.Get Sample.file_url] /\
  Downloader.disk s1 !! Sample.local_path = Some Sample.ten_bytes /\
  Downloader.disk s2 !! Sample.local_path = Some Sample.ten_bytes.
Proof. by vm_compute. Qed.

Example download_file_twice :
  let dl := Downloader.download_file no_faults Sample.remote LibModel.decimal_int
              Sample.file_url Sample.local_path in
  let s1 := (dl Sample.crawler_state).2 in
  let s2 := (dl s1).2 in
  Downloader.downloaded_count (Downloader.self s2) = 1%Z /\
  Downloader.skipped_count (Downloader.self s2) = 1%Z /\
  Downloader.failed_count (Downloader.self s2) = 0%Z /\
  Downloader.disk s1 !! Sample.local_path = Some Sample.ten_bytes /\
  Downloader.disk s2 !! Sample.local_path = Some Sample.ten_bytes /\
  Downloader.requests s2
    = [Downloader.Get Sample.file_url; Downloader.Head Sample.file_url].
Proof. by vm_compute. Qed.

(** ** The crawler: the traversal *)

Section Crawl.

Import Downloader Spec.

Variable F : Faults.
Variable R : Remote.
Variable py_int : string -> option Z.
Variable urlparse_path : string -> string.
Variable urljoin : string -> string -> option string.

Implicit Types (s : State) (url p : string).

Lemma no_new_exploring_refl s : no_new_exploring s s.
Proof. by intros d u. Qed.

Lemma no_new_exploring_trans s1 s2 s3 :
  no_new_exploring s1 s2 -> no_new_exploring s2 s3 -> no_new_exploring s1 s3.
Proof. intros H12 H23 d u H. by apply H12, H23. Qed.

Lemma no_new_exploring_logged s s' :
  logged s' = logged s -> no_new_exploring s s'.
Proof. intros Heq d u. by rewrite Heq. Qed.

Lemma quiet_ret {A} (a : A) : quiet (mret a).
Proof. intros s r s' [= <- <-]. apply no_new_exploring_refl. Qed.

Lemma quiet_raise {A} e : quiet (raise e : M State A).
Proof. intros s r s' [= <- <-]. apply no_new_exploring_refl. Qed.

Lemma quiet_gets {A} (f : State -> A) : quiet (gets f).
Proof. intros s r s' [= <- <-]. apply no_new_exploring_refl. Qed.

Lemma quiet_bind {A B} (m : M State A) (k : A -> M State B) :
  quiet m -> (forall a, quiet (k a)) -> quiet (m ≫= k).
Proof.
  intros Hm Hk s r s' [(a & s1 & H1 & H2) | (e & H1 & _)]%bind_inv.
  - eapply no_new_exploring_trans; [by eapply Hm | by eapply Hk].
  - by eapply Hm.
Qed.

Lemma quiet_try {A} (m : M State A) (h : exn -> M State A) :
  quiet m -> (forall e, quiet (h e)) -> quiet (try_except m h).
Proof.
  intros Hm Hh s r s'. unfold try_except.
  destruct (m s) as [[a | e] s1] eqn:H1.
  - intros [= <- <-]. by eapply Hm.
  - intros H2. eapply no_new_exploring_trans; [by eapply Hm | by eapply Hh].
Qed.

Lemma quiet_log m : (forall d u, m <> Exploring d u) -> quiet (log m).
Proof.
  intros Hm s r s' [= <- <-] d u. cbn [logged].
  intros [? | Heq%list_elem_of_singleton]%elem_of_app; [done |].
  exfalso. by apply (Hm d u).
Qed.

Lemma quiet_sent rq : quiet (sent rq).
Proof. intros s r s' [= <- <-]. by apply no_new_exploring_logged. Qed.

Lemma quiet_on_self f : quiet (on_self f).
Proof. intros s r s' [= <- <-]. by apply no_new_exploring_logged. Qed.

Lemma quiet_on_disk {A} (m : M (gmap string bytes) A) : quiet (on_disk m).
Proof.
  intros s r s' (_ & _ & Hl)%on_disk_inv. by apply no_new_exploring_logged.
Qed.

Lemma quiet_write_chunks p body n : quiet (write_chunks F p body n).
Proof.
  intros s r s' (_ & _ & Hl)%write_chunks_inv. by apply no_new_exploring_logged.
Qed.

Ltac quiet_step :=
  first
    [ apply quiet_bind; [| intros ?]
    | apply quiet_try; [| intros ?]
    | apply quiet_ret
    | apply quiet_raise
    | apply quiet_gets
    | apply quiet_sent
    | apply quiet_on_self
    | apply quiet_on_disk
    | apply quiet_write_chunks
    | apply quiet_log; by intros ??
    | match goal with |- quiet (match ?x with _ => _ end) => destruct x end ].

Lemma quiet_download_file url p : quiet (download_file F R py_int url p).
Proof.
  unfold download_file, download_file_try, already_complete, transfer,
    session_get, session_head, raise_for_status, header_int.
  repeat quiet_step.
Qed.

Lemma quiet_get_directory_listing url : quiet (get_directory_listing R url).
Proof.
  unfold get_directory_listing, session_get, raise_for_status.
  repeat quiet_step.
Qed.

(** Neither [download_file] nor [get_directory_listing] raises. *)
Lemma download_file_total url p s :
  exists b s', download_file F R py_int url p s = (Ok b, s').
Proof.
  unfold download_file, try_except.
  destruct (download_file_try F R py_int url p s) as [[b | e] s1]; [by eauto |].
  unfold mbind, M_bind, bind, log, on_self, modify, mret, M_ret. eauto.
Qed.

Lemma get_directory_listing_total url s :
  exists links s', get_directory_listing R url s = (Ok links, s').
Proof.
  unfold get_directory_listing, try_except.
  match goal with |- context [match ?m s with _ => _ end] => destruct (m s) as [[l | e] s1] end;
    [by eauto |].
  unfold mbind, M_bind, bind, log, modify, mret, M_ret. eauto.
Qed.

Lemma explored_within_refl depth s : explored_within depth s s.
Proof. intros d u ?. by left. Qed.

Lemma explored_within_trans depth s1 s2 s3 :
  explored_within depth s1 s2 -> explored_within depth s2 s3 ->
  explored_within depth s1 s3.
Proof.
  intros H12 H23 d u H. destruct (H23 d u H) as [H2 | ?]; [| by right].
  by apply H12.
Qed.

Lemma explored_within_quiet depth s s' :
  no_new_exploring s s' -> explored_within depth s s'.
Proof. intros H d u ?. left. by apply H. Qed.

Lemma explored_within_deeper depth s s' :
  explored_within (depth + 1) s s' -> explored_within depth s s'.
Proof. intros H d u Hin. destruct (H d u Hin); [by left | right; lia]. Qed.

Lemma mf_bind_run {A B} (m : MF A) (k : A -> MF B) s a s1 :
  m s = Some (Ok a, s1) -> (m ≫= k) s = k a s1.
Proof. unfold mbind, MF_bind. by intros ->. Qed.

Lemma mf_bind_raise {A B} (m : MF A) (k : A -> MF B) s e s1 :
  m s = Some (Raise e, s1) -> (m ≫= k) s = Some (Raise e, s1).
Proof. unfold mbind, MF_bind. by intros ->. Qed.

(** The loop over the links of a page ends when its body does: after the
    last link, or at the first link on which the body raises. *)
Lemma for_links_terminates (body : string -> MF unit) depth :
  (forall link s, exists r s',
     body link s = Some (r, s') /\ Inv.ends_as urljoin r /\ explored_within depth s s') ->
  forall links s, exists r s',
    for_links links body s = Some (r, s') /\ Inv.ends_as urljoin r /\
    explored_within depth s s'.
Proof.
  intros Hbody. induction links as [| link links IH]; intros s.
  - exists (Ok tt), s. split; [done |]. split; [by left | apply explored_within_refl].
  - destruct (Hbody link s) as (r1 & s1 & H1 & Hr1 & He1).
    destruct r1 as [[] | e].
    + destruct (IH s1) as (r & s' & H' & Hr & He').
      exists r, s'. split; [| split; [done | by eapply explored_within_trans]].
      cbn [for_links]. by rewrite (mf_bind_run _ _ _ _ _ H1).
    + exists (Raise e), s1. split; [| done].
      cbn [for_links]. by rewrite (mf_bind_raise _ _ _ _ _ H1).
Qed.

(** The body of the loop, step by step. *)
Lemma process_link_unfold (crawl : string -> Z -> MF unit) url depth link s :
  process_link F R py_int urlparse_path urljoin crawl url depth link s =
  match urljoin (url ++ "/") link with
  | None => Some (Raise ValueError, s)
  | Some full_url =>
      if is_directory link
      then
        if (depth =? 0)%Z && negb (should_process_directory (self s) link)
        then Some (log (SkippingFiltered depth link) s)
        else crawl full_url (depth + 1)%Z s
      else
        Some (Ok tt,
              (download_file F R py_int full_url
                 (get_local_path urlparse_path (self s) full_url) s).2)
  end.
Proof.
  unfold process_link, mbind, MF_bind, lift, url_join, gets.
  destruct (urljoin (url ++ "/") link) as [full_url |]; [| done].
  cbn [mret M_ret]. destruct (is_directory link); [by destruct (_ && _) |].
  match goal with
  | |- context [download_file F R py_int ?u ?p s] =>
      destruct (download_file_total u p s) as (b & s' & ->)
  end.
  done.
Qed.

Lemma process_link_terminates (crawl : string -> Z -> MF unit) url depth :
  (forall u s, exists r s',
     crawl u (depth + 1)%Z s = Some (r, s') /\ Inv.ends_as urljoin r /\
     explored_within (depth + 1) s s') ->
  forall link s, exists r s',
    process_link F R py_int urlparse_path urljoin crawl url depth link s = Some (r, s') /\
    Inv.ends_as urljoin r /\ explored_within depth s s'.
Proof.
  intros Hcrawl link s. rewrite process_link_unfold.
  destruct (urljoin (url ++ "/") link) as [full_url |] eqn:Hjoin.
  2:{ exists (Raise ValueError), s. split; [done |].
      split; [right; eauto | apply explored_within_refl]. }
  destruct (is_directory link).
  - destruct (_ && _).
    + eexists _, _. split; [reflexivity |]. split; [by left |].
      apply explored_within_quiet. eapply quiet_log; [| reflexivity]. by intros ??.
    + destruct (Hcrawl full_url s) as (r & s' & H' & Hr & He').
      exists r, s'. split; [done |]. split; [done | by apply explored_within_deeper].
  - eexists _, _. split; [reflexivity |]. split; [by left |].
    apply explored_within_quiet.
    eapply quiet_download_file. apply surjective_pairing.
Qed.

(** More budget does not change the result of a crawl that ended. *)
Lemma for_links_mono (body body' : string -> MF unit) :
  (forall link s x, body link s = Some x -> body' link s = Some x) ->
  forall links s x, for_links links body s = Some x -> for_links links body' s = Some x.
Proof.
  intros Hbody. induction links as [| link links IH]; intros s x; [done |].
  cbn [for_links]. unfold mbind, MF_bind.
  destruct (body link s) as [[[[] | e] s1] |] eqn:H1; [| | done];
    rewrite (Hbody _ _ _ H1); [apply IH | done].
Qed.

Lemma process_link_mono (crawl crawl' : string -> Z -> MF unit) url depth link s x :
  (forall u d s0 y, crawl u d s0 = Some y -> crawl' u d s0 = Some y) ->
  process_link F R py_int urlparse_path urljoin crawl url depth link s = Some x ->
  process_link F R py_int urlparse_path urljoin crawl' url depth link s = Some x.
Proof.
  intros Hcrawl. rewrite !process_link_unfold.
  destruct (urljoin (url ++ "/") link) as [full_url |]; [| done].
  destruct (is_directory link); [| done].
  destruct (_ && _); [done | apply Hcrawl].
Qed.

Lemma crawl_and_download_mono fuel : forall url depth s x,
  crawl_and_download F R py_int urlparse_path urljoin fuel url depth s = Some x ->
  crawl_and_download F R py_int urlparse_path urljoin (S fuel) url depth s = Some x.
Proof.
  induction fuel as [| fuel IH]; intros url depth s x; [done |].
  cbn [crawl_and_download]. destruct (20 <? depth)%Z; [done |].
  unfold mbind at 1 3, MF_bind at 1 3.
  destruct (lift (log (Exploring depth url)) s) as [[[[] | e] s1] |]; [| done | done].
  unfold mbind, MF_bind.
  destruct (lift (get_directory_listing R url) s1) as [[[links | e] s2] |]; [| done | done].
  destruct links as [| link links]; [done |].
  apply for_links_mono. intros l s0 y. apply process_link_mono. apply IH.
Qed.

Lemma crawl_and_download_fuel fuel fuel' url depth s x :
  (fuel <= fuel')%nat ->
  crawl_and_download F R py_int urlparse_path urljoin fuel url depth s = Some x ->
  crawl_and_download F R py_int urlparse_path urljoin fuel' url depth s = Some x.
Proof.
  induction 1 as [| fuel' _ IH]; [done |].
  intros H. by apply crawl_and_download_mono, IH.
Qed.

(** With budget for the nesting the crawl ends, normally or on the
    [ValueError] of a [urljoin]; it explores nothing beyond the cap, and at a
    depth beyond the cap it only logs the warning. *)
Lemma crawl_and_download_ends fuel : forall url depth s,
  (Z.to_nat (21 - depth) < fuel)%nat ->
  exists r s',
    crawl_and_download F R py_int urlparse_path urljoin fuel url depth s = Some (r, s') /\
    Inv.ends_as urljoin r /\
    explored_within depth s s' /\
    ((20 < depth)%Z ->
     r = Ok tt /\
     s' = {| self := self s; disk := disk s; requests := requests s;
             logged := (logged s ++ [MaxDepthReached url])%list |}).
Proof.
  induction fuel as [| fuel IH]; intros url depth s Hfuel; [lia |].
  cbn [crawl_and_download].
  destruct (20 <? depth)%Z eqn:Hcap.
  { eexists _, _. split; [reflexivity |]. split; [by left |]. split; [| done].
    apply explored_within_quiet. eapply quiet_log; [| reflexivity]. by intros ??. }
  apply Z.ltb_ge in Hcap.
  unfold mbind at 1, MF_bind at 1, lift at 1, log at 1, modify.
  set (s1 := {| self := self s; disk := disk s; requests := requests s;
                logged := (logged s ++ [Exploring depth url])%list |}).
  assert (explored_within depth s s1) as He1.
  { intros d u [? | Heq%list_elem_of_singleton]%elem_of_app; [by left |].
    injection Heq as -> ->. right. lia. }
  destruct (get_directory_listing_total url s1) as (links & s2 & Hlist).
  pose proof (quiet_get_directory_listing url _ _ _ Hlist) as Hq2.
  unfold mbind at 1, MF_bind at 1, lift at 1. rewrite Hlist.
  assert (explored_within depth s s2) as He2.
  { eapply explored_within_trans; [exact He1 | by apply explored_within_quiet]. }
  destruct links as [| link links].
  { eexists _, _. split; [reflexivity |]. split; [by left |]. split; [| lia].
    eapply explored_within_trans; [exact He2 |].
    apply explored_within_quiet. eapply quiet_log; [| reflexivity]. by intros ??. }
  destruct (for_links_terminates
              (process_link F R py_int urlparse_path urljoin
                 (crawl_and_download F R py_int urlparse_path urljoin fuel) url depth)
              depth) with (links := link :: links) (s := s2) as (r & s' & Hrun & Hr & He').
  { apply process_link_terminates. intros u s0.
    destruct (IH u (depth + 1)%Z s0) as (r0 & s0' & H0 & Hr0 & He0 & _); [lia |]. eauto. }
  exists r, s'. split; [done |]. split; [done |]. split; [| lia].
  by eapply explored_within_trans.
Qed.

(** C7.  Whatever the remote serves, cyclic listings included, a crawl
    from [depth] ends once the recursion budget of the model exceeds
    [21 - depth], with the same result for every such budget: it returns,
    or the [ValueError] of a [urljoin] call ends it.  It explores no
    directory deeper than the cap of 20, and a call beyond the cap returns
    at once, having only logged the warning. *)
Theorem crawl_and_download_terminates fuel url depth s :
  (Z.to_nat (21 - depth) < fuel)%nat ->
  exists r s',
    (forall fuel', (fuel <= fuel')%nat ->
       crawl_and_download F R py_int urlparse_path urljoin fuel' url depth s
         = Some (r, s')) /\
    (r = Ok tt \/ r = Raise ValueError) /\
    explored_within depth s s' /\
    ((20 < depth)%Z ->
     r = Ok tt /\
     s' = {| self := self s; disk := disk s; requests := requests s;
             logged := (logged s ++ [MaxDepthReached url])%list |}).
Proof.
  intros Hfuel.
  destruct (crawl_and_download_ends fuel url depth s Hfuel) as (r & s' & Hrun & Hr & Hrest).
  exists r, s'. split; [| split; [| done]].
  - intros fuel' Hle. by eapply crawl_and_download_fuel.
  - destruct Hr as [-> | [-> _]]; [by left | by right].
Qed.

End Crawl.

Lemma crawl_and_download_terminates_witness :
  let s := Sample.crawler_state in
  exists r s',
    (forall fuel', (22 <= fuel')%nat ->
       Downloader.crawl_and_download no_faults Sample.self_link_remote
         LibModel.decimal_int LibModel.urlparse_path LibModel.urljoin
         fuel' "https://host/pool" 0 s = Some (r, s')) /\
    (r = Ok tt \/ r = Raise ValueError) /\
    Spec.explored_within 0 s s' /\
    ((20 < 0)%Z ->
     r = Ok tt /\
     s' = {| Downloader.self := Downloader.self s; Downloader.disk := Downloader.disk s;
             Downloader.requests := Downloader.requests s;
             Downloader.logged :=
               (Downloader.logged s ++ [Downloader.MaxDepthReached "https://host/pool"])%list |}).
Proof.
  apply (crawl_and_download_terminates no_faults Sample.self_link_remote
           LibModel.decimal_int LibModel.urlparse_path LibModel.urljoin
           22 "https://host/pool" 0 Sample.crawler_state).
  simpl. lia.
Defined.

(** On the remote whose every page links to itself the crawl fetches the 21
    pages at depths 0 to 20 and stops with one warning; a budget of 21 is
    one short. *)
Example crawl_self_link :
  match Downloader.crawl_and_download no_faults Sample.self_link_remote
          LibModel.decimal_int LibModel.urlparse_path LibModel.urljoin
          22 "https://host/pool" 0 Sample.crawler_state with
  | Some (Ok _, s') =>
      length (Downloader.requests s') = 21%nat /\
      length (Downloader.logged s') = 43%nat /\
      last (Downloader.requests s') = Some (Downloader.Get "https://host/pool/") /\
      last (Downloader.logged s')
        = Some (Downloader.MaxDepthReached "https://host/pool/")
  | _ => False
  end.
Proof. by vm_compute. Qed.

Example crawl_self_link_short_budget :
  Downloader.crawl_and_download no_faults Sample.self_link_remote
    LibModel.decimal_int LibModel.urlparse_path LibModel.urljoin
    21 "https://host/pool" 0 Sample.crawler_state = None.
Proof. by vm_compute. Qed.

(** A kept link on which [urljoin] raises ends the crawl there: the links
    after it are not visited, and [start] ends without its summary. *)
Example crawl_bad_link :
  let R := {|
    Downloader.http_head := fun _ => None;
    Downloader.http_get := fun url =>
      if String.eqb url "https://host/pool"
      then Some {| Downloader.status_code := 200; Downloader.content_length := None;
                   Downloader.hrefs := [Some "x://["; Some "a/"];
                   Downloader.chunks := []; Downloader.complete := true |}
      else None |} in
  let s := {| Downloader.self := Downloader.init "https://host/pool" "out" None None;
              Downloader.disk := ∅; Downloader.requests := []; Downloader.logged := [] |} in
  match Downloader.start no_faults R LibModel.decimal_int LibModel.urlparse_path
          LibModel.urljoin 22 s with
  | Some (Raise ValueError, s') =>
      Downloader.requests s' = [Downloader.Get "https://host/pool"] /\
      last (Downloader.logged s') = Some (Downloader.Fetching "https://host/pool")
  | _ => False
  end.
Proof. by vm_compute. Qed.

(** A crawl of one directory with one file, run twice through [start]. *)
Example start_twice :
  let R := {|
    Downloader.http_head := Downloader.http_head Sample.remote;
    Downloader.http_get := fun url =>
      if String.eqb url Sample.file_url then Some Sample.file_response
      else if String.eqb url "https://ports.ubuntu.com/ubuntu-ports/pool/universe"
      then Some {| Downloader.status_code := 200; Downloader.content_length := None;
                   Downloader.hrefs := [Some "../"; Some "h/htop/htop_3.0.5.deb"];
                   Downloader.chunks := []; Downloader.complete := true |}
      else None |} in
  let run := Downloader.start no_faults R LibModel.decimal_int LibModel.urlparse_path
               LibModel.urljoin 22 in
  match run Sample.crawler_state with
  | Some (Ok _, s1) =>
      match run s1 with
      | Some (Ok _, s2) =>
          Downloader.downloaded_count (Downloader.self s2) = 1%Z /\
          Downloader.skipped_count (Downloader.self s2) = 1%Z /\
          Downloader.disk s2 !! Sample.local_path = Some Sample.ten_bytes
      | _ => False
      end
  | _ => False
  end.
Proof. by vm_compute. Qed.

(** * Further properties of the splitter *)

Section SplitterEdges.

Import Splitter Spec.

Variable F : Faults.

Implicit Types (s : State) (data : bytes) (p file_path : string).

(** X1.  With a chunk size of zero [split_file] fails on the division
    before it opens anything: it returns [False], counts the failure, logs
    the [ZeroDivisionError] and leaves the whole disk as it was. *)
Theorem split_file_zero_chunk_size s file_path data :
  disk s !! file_path = Some data ->
  getsize_fails F file_path = false ->
  chunk_size_bytes (self s) = 0%Z ->
  split_file F file_path s =
    (Ok false,
     {| self := incr_failed (self s);
        disk := disk s;
        logged := (logged s ++ [Splitting file_path (Z.of_nat (length data));
                                SplitFailed file_path ZeroDivisionError])%list |}).
Proof.
  intros Hdata Hgs Hzero.
  unfold split_file, try_except, split_file_try, floordiv.
  repeat (unfold mbind at 1, M_bind at 1, bind at 1, mret, M_ret, raise, gets, modify,
            log, on_self, on_disk, Fs.getsize;
          cbn [self disk logged];
          rewrite ?Hdata, ?Hgs, ?Hzero).
  cbn [Z.eqb]. cbn [self disk logged]. by rewrite <- app_assoc.
Qed.

(** X2.  With a negative chunk size and a file longer than its absolute
    value the computed number of chunks is not positive: the loop does not
    run, and [split_file] removes the source, counts a split and returns
    [True] although no chunk file was written. *)
Theorem split_file_negative_chunk_size s file_path data :
  disk s !! file_path = Some data ->
  getsize_fails F file_path = false ->
  open_rb_fails F file_path = false ->
  remove_fails F file_path = false ->
  (chunk_size_bytes (self s) < 0)%Z ->
  (- chunk_size_bytes (self s) < Z.of_nat (length data))%Z ->
  let size := Z.of_nat (length data) in
  let num_chunks := ((size + chunk_size_bytes (self s) - 1) / chunk_size_bytes (self s))%Z in
  (num_chunks <= 0)%Z /\
  split_file F file_path s =
    (Ok true,
     {| self := incr_split (self s);
        disk := delete file_path (disk s);
        logged := (logged s ++ [Splitting file_path size; RemovedOriginal file_path;
                                SplitInto num_chunks])%list |}).
Proof.
  intros Hdata Hgs Hopen Hrm Hneg Hlong size num_chunks. subst size num_chunks.
  set (C := chunk_size_bytes (self s)) in *.
  assert ((Z.of_nat (length data) + C - 1) / C <= 0)%Z as Hq.
  { pose proof (Z.div_mod (Z.of_nat (length data) + C - 1) C ltac:(lia)) as Hdm.
    pose proof (Z.mod_neg_bound (Z.of_nat (length data) + C - 1) C Hneg) as Hmod.
    nia. }
  split; [done |].
  assert (Z.to_nat ((Z.of_nat (length data) + C - 1) / C) = 0%nat) as Hnone by lia.
  unfold split_file, try_except, split_file_try, floordiv.
  repeat (unfold mbind at 1, M_bind at 1, bind at 1, mret, M_ret, raise, gets, modify,
            log, on_self, on_disk, Fs.getsize, Fs.open_rb, Fs.remove;
          cbn [self disk logged split_loop seq];
          fold C;
          rewrite ?Hdata, ?Hgs, ?Hopen, ?Hrm, ?Hnone,
            ?(proj2 (Z.eqb_neq C 0) ltac:(lia))).
  by rewrite <- !app_assoc.
Qed.

End SplitterEdges.

Lemma string_app_assoc (a b c : string) : (a ++ b) ++ c = a ++ (b ++ c).
Proof.
  induction a as [| x a IH]; [done |].
  change (String x ((a ++ b) ++ c) = String x (a ++ b ++ c)). by rewrite IH.
Qed.

Lemma contains_cons (sub : string) (c : ascii) (s : string) :
  PyStr.contains sub (String c s) = PyStr.startswith (String c s) sub || PyStr.contains sub s.
Proof. reflexivity. Qed.

Lemma contains_app (a sub b : string) : PyStr.contains sub (a ++ sub ++ b) = true.
Proof.
  induction a as [| c a IH].
  - change ("" ++ sub ++ b) with (sub ++ b).
    destruct (sub ++ b) eqn:Heq; unfold PyStr.contains; fold PyStr.contains;
      rewrite <- Heq, startswith_app; done.
  - change (String c a ++ sub ++ b) with (String c (a ++ sub ++ b)).
    by rewrite contains_cons, IH, orb_true_r.
Qed.

Lemma startswith_slash_app (f x : string) :
  PyStr.startswith f "/" = false -> PyStr.startswith x "/" = false ->
  PyStr.startswith (f ++ x) "/" = false.
Proof. by destruct f. Qed.

Lemma join_app (root f x : string) :
  PyStr.startswith f "/" = false -> PyStr.startswith x "/" = false ->
  PosixPath.join root (f ++ x) = PosixPath.join root f ++ x.
Proof.
  intros Hf Hx. unfold PosixPath.join.
  rewrite Hf, (startswith_slash_app f x Hf Hx).
  destruct (_ || _); by rewrite ?string_app_assoc.
Qed.

Lemma string_of_uint_length (d : uint) :
  String.length (NilEmpty.string_of_uint d) = nb_digits d.
Proof. induction d; simpl; by rewrite ?IHd. Qed.

Section SplitterNames.

Import Splitter Spec.

Variable F : Faults.

(** X3.  The chunks of a scanned file are skipped by a later scan: the name
    that [split_file] gives to chunk [k] of [root/filename] is [root] joined
    with [filename.partNNN], and [scan_file] on that file name neither
    counts nor touches anything, whatever the size of the chunk. *)
Theorem scan_file_skips_chunks (root filename : string) (k : nat) (s : State) :
  PyStr.startswith filename "/" = false ->
  chunk_filename (PosixPath.join root filename) k
    = PosixPath.join root (filename ++ ".part" ++ PyStr.format_03d k) /\
  scan_file F root (filename ++ ".part" ++ PyStr.format_03d k) s = (Ok tt, s).
Proof.
  intros Hrel. split.
  - unfold chunk_filename. by rewrite join_app.
  - unfold scan_file. by rewrite contains_app.
Qed.

(** X4.  Chunk files never collide: different chunk numbers give different
    names (beyond 999 the number simply takes more digits), no chunk name is
    the source path, and the number in the name has at least three
    digits. *)
Theorem chunk_filename_distinct (file_path : string) (n m : nat) :
  n <> m ->
  chunk_filename file_path n <> chunk_filename file_path m /\
  chunk_filename file_path n <> file_path /\
  (3 <= String.length (PyStr.format_03d n))%nat /\
  String.length (chunk_filename file_path n)
    = (String.length file_path + 5 + String.length (PyStr.format_03d n))%nat.
Proof.
  intros Hne. split; [| split; [| split]].
  - intros Heq. apply Hne.
    unfold chunk_filename in Heq.
    apply String.app_inj in Heq. apply (String.app_inj ".part") in Heq.
    unfold PyStr.format_03d in Heq.
    apply (f_equal NilEmpty.uint_of_string) in Heq.
    rewrite !NilEmpty.usu in Heq. injection Heq as Heq.
    apply (f_equal Nat.of_uint) in Heq.
    by rewrite !pad3_value, !DecimalNat.Unsigned.of_to in Heq.
  - intros Heq. apply (f_equal String.length) in Heq.
    unfold chunk_filename in Heq. rewrite !string_length_app in Heq. simpl in Heq. lia.
  - unfold PyStr.format_03d, PyStr.pad3. rewrite string_of_uint_length.
    destruct (3 - nb_digits (Nat.to_uint n))%nat as [| [| [| j]]] eqn:Hd;
      cbn [nb_digits]; lia.
  - unfold chunk_filename. rewrite !string_length_app. simpl. lia.
Qed.

End SplitterNames.

Lemma scan_file_skips_chunks_witness :
  Splitter.chunk_filename (PosixPath.join "data" "big.bin") 2
    = PosixPath.join "data" ("big.bin" ++ ".part" ++ PyStr.format_03d 2) /\
  Splitter.scan_file no_faults "data" ("big.bin" ++ ".part" ++ PyStr.format_03d 2)
    Sample.splitter_state = (Ok tt, Sample.splitter_state).
Proof. apply scan_file_skips_chunks. reflexivity. Defined.

Lemma chunk_filename_distinct_witness :
  Splitter.chunk_filename "data/big.bin" 999 <> Splitter.chunk_filename "data/big.bin" 1000 /\
  Splitter.chunk_filename "data/big.bin" 999 <> "data/big.bin" /\
  (3 <= String.length (PyStr.format_03d 999))%nat /\
  String.length (Splitter.chunk_filename "data/big.bin" 999)
    = (String.length "data/big.bin" + 5 + String.length (PyStr.format_03d 999))%nat.
Proof. apply chunk_filename_distinct. lia. Defined.

(** * Further properties of the scan *)

Section ScanEffects.

Import Splitter Spec Inv.

Variable F : Faults.
Variable os_walk : string -> list (string * list string * list string).
Variable dir_exists : string -> bool.
Variable py_int : string -> option Z.

Implicit Types (s : State) (p q : string).

Lemma accounted_refl o : accounted o o.
Proof. unfold accounted. repeat split; lia. Qed.

Lemma accounted_trans o1 o2 o3 : accounted o1 o2 -> accounted o2 o3 -> accounted o1 o3.
Proof. unfold accounted. intros (?&?&?&?&?&?) (?&?&?&?&?&?). repeat split; (congruence || lia). Qed.

Lemma scan_effect_refl W s : scan_effect W s s.
Proof. split; [apply accounted_refl | done]. Qed.

Lemma scan_effect_trans W s1 s2 s3 :
  scan_effect W s1 s2 -> scan_effect W s2 s3 -> scan_effect W s1 s3.
Proof.
  intros [Ha Hd] [Ha' Hd']. split; [by eapply accounted_trans |].
  intros q Hq. by rewrite Hd', Hd.
Qed.

Lemma scan_effect_weaken (W W' : string -> Prop) s s' :
  (forall q, W q -> W' q) -> scan_effect W s s' -> scan_effect W' s s'.
Proof. intros HW [Ha Hd]. split; [done |]. intros q Hq. apply Hd. auto. Qed.

(** The [try] block of the scan loop changes no file but the one it
    examines and its chunks, and leaves the object as it was or with one
    split or one failure more. *)
Lemma scan_file_try_effect p s r s' :
  scan_file_try F p s = (r, s') ->
  (forall q, q <> p -> (forall k, q <> chunk_filename p k) -> disk s' !! q = disk s !! q) /\
  match r with
  | Raise _ => self s' = self s
  | Ok _ =>
      self s' = self s \/ self s' = incr_split (self s) \/ self s' = incr_failed (self s)
  end.
Proof.
  unfold scan_file_try. intros H.
  apply bind_inv in H as [(n & s1 & H1 & H) | (e & H1 & ->)];
    apply (getsize_inv F) in H1 as (Hs1 & Hd1 & _).
  2:{ split; [| done]. intros. by rewrite Hd1. }
  apply bind_inv in H as [(max & s2 & [[= ->] ->]%gets_inv & H) | (e & [? _]%gets_inv & _)];
    [| done].
  destruct (_ <? _)%Z.
  2:{ injection H as <- <-. split; [| by left]. intros. by rewrite Hd1. }
  apply bind_inv in H as [([] & s3 & (_ & Hs3 & Hd3 & _)%log_inv & H) | (e & (? & _)%log_inv & _)];
    [| done].
  destruct (split_file F p s3) as [rb s4] eqn:Hsplit.
  pose proof Hsplit as (b & -> & Hb)%(split_file_inv F).
  rewrite (bind_run_ok _ _ _ _ _ Hsplit) in H.
  injection H as <- <-.
  destruct b.
  - destruct Hb as (Hself & data & t1 & t2 & _ & Ht1 & Hdt1 & Hloop & _ & _ & Hrest).
    apply (split_loop_frame F) in Hloop as [_ Hframe].
    split; [| right; left; congruence].
    intros q Hq Hk. rewrite Hrest, Hframe, Hdt1 by
      (try done; intros (k & -> & _)%list_elem_of_fmap; by eapply Hk).
    congruence.
  - destruct Hb as [Hself Hd]. split; [| right; right; congruence].
    intros q Hq Hk. rewrite Hd by done. congruence.
Qed.

Lemma scan_file_effect root f s r s' :
  scan_file F root f s = (r, s') ->
  r = Ok tt /\
  scan_effect
    (fun q => PyStr.contains ".part" f = false /\
              (q = PosixPath.join root f \/
               exists k, q = chunk_filename (PosixPath.join root f) k))
    s s'.
Proof.
  unfold scan_file. destruct (PyStr.contains ".part" f) eqn:Hpart.
  { intros [= <- <-]. split; [done | apply scan_effect_refl]. }
  unfold mbind at 1, M_bind at 1, bind at 1, on_self at 1, modify, try_except.
  match goal with
  | |- context [scan_file_try F ?p ?st] =>
      destruct (scan_file_try F p st) as [[[] | e] s1] eqn:Htry;
      apply scan_file_try_effect in Htry as [Hd Hself]; cbn [self disk] in Hd, Hself
  end.
  - intros [= <- <-]. split; [done |]. split.
    + destruct Hself as [-> | [-> | ->]]; unfold accounted; simpl; repeat split; lia.
    + intros q Hq. apply Hd.
      * intros ->. apply Hq. eauto.
      * intros k ->. apply Hq. eauto.
  - unfold mbind, M_bind, bind, log, on_self, modify. cbn [self disk logged].
    intros [= <- <-]. split; [done |]. split.
    + cbn [self]. rewrite Hself. unfold accounted; simpl; repeat split; lia.
    + intros q Hq. cbn [disk]. apply Hd.
      * intros ->. apply Hq. eauto.
      * intros k ->. apply Hq. eauto.
Qed.

Lemma for_each_effect {A} (W : string -> Prop) (body : A -> M State unit) (xs : list A) :
  (forall x s r s', x ∈ xs -> body x s = (r, s') -> r = Ok tt /\ scan_effect W s s') ->
  forall s r s', for_each xs body s = (r, s') -> r = Ok tt /\ scan_effect W s s'.
Proof.
  induction xs as [| x xs IH]; intros Hbody s r s' H.
  - injection H as <- <-. split; [done | apply scan_effect_refl].
  - cbn [for_each] in H.
    apply bind_inv in H as [([] & s1 & H1 & H) | (e & H1 & ->)].
    + apply Hbody in H1 as [_ He1]; [| by left].
      apply IH in H as [-> He]; [| intros; eapply Hbody; [by right | done]].
      split; [done | by eapply scan_effect_trans].
    + apply Hbody in H1 as [? _]; [done | by left].
Qed.

Lemma banner_inv o s r s' :
  banner o s = (r, s') ->
  self s' = self s /\ disk s' = disk s /\
  r = if mb_overflows (max_size_bytes o) || mb_overflows (chunk_size_bytes o)
      then Raise OverflowError else Ok tt.
Proof.
  unfold banner.
  destruct (mb_overflows (max_size_bytes o));
    [| destruct (mb_overflows (chunk_size_bytes o))];
    unfold mbind, M_bind, bind, log, modify, raise; by intros [= <- <-].
Qed.

(** The whole scan: it raises only in the banner, and then before it has
    looked at the disk; otherwise it returns normally.  Either way it
    continues the object and changes only listed files without the chunk
    marker and their chunks. *)
Lemma scan_and_split_inv s r s' :
  scan_and_split F os_walk dir_exists s = (r, s') ->
  r = (if mb_overflows (max_size_bytes (self s)) || mb_overflows (chunk_size_bytes (self s))
       then Raise OverflowError else Ok tt) /\
  scan_effect (touched (os_walk (base_directory (self s)))) s s'.
Proof.
  unfold scan_and_split.
  unfold mbind at 1, M_bind at 1, bind at 1, gets at 1.
  set (W := touched (os_walk (base_directory (self s)))).
  assert (forall t r0 t',
    (if negb (dir_exists (base_directory (self s)))
     then log (DirectoryMissing (base_directory (self s)))
     else
       for_each (os_walk (base_directory (self s)))
         (fun '(root, _dirs, files) => for_each files (scan_file F root));;
       o' ← gets self;
       log (Summary (files_scanned o') (files_split o') (files_failed o'))) t = (r0, t') ->
    r0 = Ok tt /\ scan_effect W t t') as Hrest.
  { intros t r0 t'. destruct (negb _).
    { unfold log, modify. intros [= <- <-].
      split; [done |]. split; [apply accounted_refl | done]. }
    intros H.
    apply bind_inv in H as [([] & s1 & H1 & H) | (e & H1 & ->)];
      apply (for_each_effect W) in H1 as [Hr1 He1];
      try (intros [[root dirs] files] u r1 u' Hin Hrun;
           apply (for_each_effect W) in Hrun; [done |];
           intros f v r2 v' Hf Hscan;
           apply scan_file_effect in Hscan as [-> He]; split; [done |];
           eapply scan_effect_weaken; [| exact He];
           intros q [Hpart Hq]; exists root, dirs, files, f; eauto).
    - unfold mbind, M_bind, bind, gets, log, modify in H. injection H as <- <-.
      split; [done |]. destruct He1 as [Ha Hd]. by split.
    - done. }
  intros H.
  apply bind_inv in H as [([] & s0 & H0 & H) | (e & H0 & ->)];
    apply banner_inv in H0 as (Hs0 & Hd0 & Hr0).
  - apply Hrest in H as [-> He]. split; [by destruct (_ || _) |].
    eapply scan_effect_trans; [| exact He].
    split; [rewrite Hs0; apply accounted_refl | by intros; rewrite Hd0].
  - split; [exact Hr0 |].
    split; [rewrite Hs0; apply accounted_refl | by intros; rewrite Hd0].
Qed.

End ScanEffects.

Section ScanTheorems.

Import Splitter Spec Inv.

Variable F : Faults.
Variable os_walk : string -> list (string * list string * list string).
Variable dir_exists : string -> bool.
Variable py_int : string -> option Z.

Implicit Types (s : State) (p q : string).

Lemma mb_overflows_false (n : Z) :
  mb_overflows n = false <-> Spec.prints_in_mb n.
Proof.
  unfold mb_overflows, Spec.prints_in_mb. rewrite Z.leb_gt.
  by replace ((2 ^ 1024 - 2 ^ 970) * 2 ^ 20)%Z with (2 ^ 1044 - 2 ^ 990)%Z
    by (by vm_compute).
Qed.



(** X6.  [scan_and_split] writes and removes nothing but the files that
    the walk lists without the chunk marker and the chunk names of those
    files: every other path of the disk, files with the marker included,
    is as before, under any faults. *)
Theorem scan_and_split_frame s q :
  ~ touched (os_walk (base_directory (self s))) q ->
  disk (scan_and_split F os_walk dir_exists s).2 !! q = disk s !! q.
Proof.
  intros Hq.
  destruct (scan_and_split F os_walk dir_exists s) as [r s'] eqn:Hrun.
  apply scan_and_split_inv in Hrun as [_ [_ Hd]]. by apply Hd.
Qed.

(** X7.  When the base directory does not exist, and both sizes can be
    printed in MB, [scan_and_split] logs the error after the banner and
    returns: no walk, no file operation, no summary, and the counters stay
    as they were. *)
Theorem scan_and_split_missing_directory s :
  Spec.prints_in_mb (max_size_bytes (self s)) ->
  Spec.prints_in_mb (chunk_size_bytes (self s)) ->
  dir_exists (base_directory (self s)) = false ->
  scan_and_split F os_walk dir_exists s =
    (Ok tt,
     {| self := self s;
        disk := disk s;
        logged :=
          (logged s ++ [Banner (base_directory (self s)) (max_size_bytes (self s))
                          (chunk_size_bytes (self s));
                        DirectoryMissing (base_directory (self s))])%list |}).
Proof.
  intros Hmax%mb_overflows_false Hchunk%mb_overflows_false Hmissing.
  unfold scan_and_split, banner.
  unfold mbind, M_bind, bind, gets, log, modify. cbn [self disk logged].
  rewrite Hmax, Hchunk, Hmissing. cbn [negb self disk logged]. by rewrite <- app_assoc.
Qed.


End ScanTheorems.

Lemma split_file_zero_chunk_size_witness :
  let s := {| Splitter.self := Splitter.init "data" 1 0;
              Splitter.disk := {["data/big.bin" := Sample.ten_bytes]};
              Splitter.logged := [] |} in
  Splitter.split_file no_faults "data/big.bin" s =
    (Ok false,
     {| Splitter.self := Splitter.incr_failed (Splitter.self s);
        Splitter.disk := Splitter.disk s;
        Splitter.logged :=
          (Splitter.logged s
           ++ [Splitter.Splitting "data/big.bin" (Z.of_nat (length Sample.ten_bytes));
               Splitter.SplitFailed "data/big.bin" ZeroDivisionError])%list |}).
Proof.
  apply (split_file_zero_chunk_size no_faults); reflexivity.
Defined.

Lemma split_file_negative_chunk_size_witness :
  let s := {| Splitter.self :=
                {| Splitter.base_directory := "data";
                   Splitter.max_size_bytes := 8;
                   Splitter.chunk_size_bytes := -4;
                   Splitter.files_scanned := 0;
                   Splitter.files_split := 0;
                   Splitter.files_failed := 0 |};
              Splitter.disk := {["data/big.bin" := Sample.ten_bytes]};
              Splitter.logged := [] |} in
  let size := Z.of_nat (length Sample.ten_bytes) in
  let num_chunks :=
    ((size + Splitter.chunk_size_bytes (Splitter.self s) - 1)
     / Splitter.chunk_size_bytes (Splitter.self s))%Z in
  (num_chunks <= 0)%Z /\
  Splitter.split_file no_faults "data/big.bin" s =
    (Ok true,
     {| Splitter.self := Splitter.incr_split (Splitter.self s);
        Splitter.disk := delete "data/big.bin" (Splitter.disk s);
        Splitter.logged :=
          (Splitter.logged s
           ++ [Splitter.Splitting "data/big.bin" size;
               Splitter.RemovedOriginal "data/big.bin";
               Splitter.SplitInto num_chunks])%list |}).
Proof.
  apply (split_file_negative_chunk_size no_faults); try reflexivity; simpl; lia.
Defined.

(** The disk after that run: the source is gone and no chunk exists. *)
Example split_file_negative_chunk_size_disk :
  let s := {| Splitter.self :=
                {| Splitter.base_directory := "data";
                   Splitter.max_size_bytes := 8;
                   Splitter.chunk_size_bytes := -4;
                   Splitter.files_scanned := 0;
                   Splitter.files_split := 0;
                   Splitter.files_failed := 0 |};
              Splitter.disk := {["data/big.bin" := Sample.ten_bytes]};
              Splitter.logged := [] |} in
  let s' := (Splitter.split_file no_faults "data/big.bin" s).2 in
  Splitter.disk s' !! "data/big.bin" = None /\
  Splitter.disk s' !! "data/big.bin.part001" = None /\
  Splitter.files_split (Splitter.self s') = 1%Z.
Proof. by vm_compute. Qed.

Lemma scan_and_split_frame_witness :
  let walk := fun _ : string => [("data", @nil string, ["big.bin"])] in
  let s := {| Splitter.self := Splitter.self Sample.splitter_state;
              Splitter.disk := {["data/big.bin" := Sample.ten_bytes;
                                 "other/keep.bin" := Sample.ten_bytes]};
              Splitter.logged := [] |} in
  Splitter.disk (Splitter.scan_and_split no_faults walk (fun _ => true) s).2
    !! "other/keep.bin"
  = Splitter.disk s !! "other/keep.bin".
Proof.
  apply scan_and_split_frame.
  intros (root & dirs & files & f & Hin & Hf & _ & Hq).
  apply list_elem_of_singleton in Hin. injection Hin as -> -> ->.
  apply list_elem_of_singleton in Hf as ->.
  destruct Hq as [Hq | [k Hq]]; [discriminate Hq |].
  apply (f_equal (fun x => String.get 0 x)) in Hq. discriminate Hq.
Defined.

Lemma scan_and_split_missing_directory_witness :
  let s := Sample.splitter_state in
  Splitter.scan_and_split no_faults (fun _ => []) (fun _ => false) s =
    (Ok tt,
     {| Splitter.self := Splitter.self s;
        Splitter.disk := Splitter.disk s;
        Splitter.logged :=
          (Splitter.logged s
           ++ [Splitter.Banner (Splitter.base_directory (Splitter.self s))
                 (Splitter.max_size_bytes (Splitter.self s))
                 (Splitter.chunk_size_bytes (Splitter.self s));
               Splitter.DirectoryMissing
                 (Splitter.base_directory (Splitter.self s))])%list |}).
Proof. apply scan_and_split_missing_directory; [by vm_compute | by vm_compute | reflexivity]. Defined.

(** A chunk size below [-1]: the first [read] is refused, the file stays
    and the failure is counted. *)
Example scan_file_chunk_size_refused :
  let s := {| Splitter.self := Splitter.init "data" 0 (-4);
              Splitter.disk := {["data/a.bin" := [Byte.x00]]};
              Splitter.logged := [] |} in
  let run := Splitter.scan_file no_faults "data" "a.bin" s in
  run.1 = Ok tt /\
  Splitter.disk run.2 !! "data/a.bin" = Some [Byte.x00] /\
  Splitter.disk run.2 !! "data/a.bin.part001" = None /\
  Splitter.files_failed (Splitter.self run.2) = 1%Z /\
  Splitter.files_split (Splitter.self run.2) = 0%Z /\
  last (Splitter.logged run.2) = Some (Splitter.SplitFailed "data/a.bin" ValueError).
Proof. by vm_compute. Qed.

(** A maximum size beyond the range of [float]: the banner raises before
    the scan looks at the disk, and [main] ends with code 1. *)
Example scan_and_split_banner_overflow :
  let walk := fun _ : string => [("data", @nil string, ["big.bin"])] in
  let s := {| Splitter.self := Splitter.init "data" (2 ^ 1024) 85;
              Splitter.disk := {["data/big.bin" := Sample.ten_bytes]};
              Splitter.logged := [] |} in
  Splitter.scan_and_split no_faults walk (fun _ => true) s
  = (Raise OverflowError,
     {| Splitter.self := Splitter.self s; Splitter.disk := Splitter.disk s;
        Splitter.logged := [Splitter.BannerBase "data"] |}).
Proof. by vm_compute. Qed.

Example scan_and_split_banner_largest :
  let s := {| Splitter.self := Splitter.init "data" (2 ^ 1024 - 2 ^ 970 - 1) 85;
              Splitter.disk := ∅; Splitter.logged := [] |} in
  (Splitter.scan_and_split no_faults (fun _ => []) (fun _ => true) s).1 = Ok tt.
Proof. by vm_compute. Qed.

(** * Chunks left behind by a failed split *)

Section PartialChunks.

Import Splitter Spec.

Variable F : Faults.

Implicit Types (s : State) (data : bytes) (file_path : string).

(** One iteration on a healthy chunk file, and one whose chunk file cannot
    be created. *)
Lemma split_chunk_run file_path pos k s data (C : nat) :
  disk s !! file_path = Some data ->
  chunk_size_bytes (self s) = Z.of_nat C ->
  (Z.of_nat C <= Fs.max_read)%Z ->
  read_fails F file_path pos = false ->
  open_wb_fails F (chunk_filename file_path k) = false ->
  write_limit F (chunk_filename file_path k) = None ->
  exists s1,
    split_chunk F file_path pos k s = (Ok (pos + length (take C (drop pos data)))%nat, s1) /\
    self s1 = self s /\
    disk s1 = <[chunk_filename file_path k := take C (drop pos data)]> (disk s).
Proof.
  intros Hdata HC Hmax Hread Hopen Hlim.
  unfold split_chunk.
  repeat (unfold mbind at 1, M_bind at 1, bind at 1, mret, M_ret, gets, modify, log,
            on_disk, Fs.read, Fs.open_wb, Fs.write;
          cbn [self disk logged];
          rewrite ?Hdata, ?HC, ?Hread, ?Hopen, ?Hlim, ?lookup_insert_eq, ?Nat2Z.id,
            ?(proj2 (Z.ltb_ge (Z.of_nat C) (-1)) ltac:(lia)),
            ?(proj2 (Z.ltb_ge Fs.max_read (Z.of_nat C)) Hmax)).
  replace (Z.of_nat C <? 0)%Z with false by (symmetry; apply Z.ltb_ge; lia).
  eexists. split; [reflexivity |]. cbn [self disk default from_option id app].
  split; [done | apply insert_insert_eq].
Qed.

Lemma split_chunk_unwritable file_path pos k s data :
  disk s !! file_path = Some data ->
  (-1 <= chunk_size_bytes (self s) <= Fs.max_read)%Z ->
  read_fails F file_path pos = false ->
  open_wb_fails F (chunk_filename file_path k) = true ->
  exists s1,
    split_chunk F file_path pos k s = (Raise OSError, s1) /\
    self s1 = self s /\ disk s1 = disk s.
Proof.
  intros Hdata [Hlo Hhi] Hread Hopen.
  unfold split_chunk.
  repeat (unfold mbind at 1, M_bind at 1, bind at 1, mret, M_ret, gets, modify, log,
            on_disk, Fs.read, Fs.open_wb;
          cbn [self disk logged];
          rewrite ?Hdata, ?Hread, ?Hopen,
            ?(proj2 (Z.ltb_ge _ _) Hlo), ?(proj2 (Z.ltb_ge _ _) Hhi)).
  eexists. split; [reflexivity |]. done.
Qed.

(** The loop up to a chunk that cannot be created: it raises there, with
    the earlier chunks written and nothing else changed. *)
Lemma split_loop_stops_at file_path data (C : nat) k ks2 :
  (Z.of_nat C <= Fs.max_read)%Z ->
  (forall pos, read_fails F file_path pos = false) ->
  open_wb_fails F (chunk_filename file_path k) = true ->
  forall ks1 pos s,
    disk s !! file_path = Some data ->
    chunk_size_bytes (self s) = Z.of_nat C ->
    (forall j, j ∈ ks1 ->
       open_wb_fails F (chunk_filename file_path j) = false /\
       write_limit F (chunk_filename file_path j) = None) ->
    NoDup (chunk_filename file_path <$> ks1) ->
    exists s',
      split_loop F file_path pos (ks1 ++ k :: ks2)%list s = (Raise OSError, s') /\
      self s' = self s /\
      (forall p, p ∉ chunk_filename file_path <$> ks1 -> disk s' !! p = disk s !! p) /\
      forall i j, ks1 !! i = Some j ->
        disk s' !! chunk_filename file_path j = Some (take C (drop (pos + i * C) data)).
Proof.
  intros Hmax Hread Hk. induction ks1 as [| j0 ks1 IH]; intros pos s Hdata HC Hok Hnd.
  - destruct (split_chunk_unwritable file_path pos k s data Hdata
                ltac:(rewrite HC; lia) (Hread pos) Hk)
      as (s1 & Hrun & Hs1 & Hd1).
    exists s1. cbn [app split_loop].
    rewrite (bind_run_raise _ _ _ _ _ Hrun). rewrite Hd1. done.
  - destruct (Hok j0 ltac:(by left)) as [Hopen Hlim].
    destruct (split_chunk_run file_path pos j0 s data C Hdata HC Hmax (Hread pos) Hopen Hlim)
      as (s1 & Hrun & Hs1 & Hd1).
    rewrite fmap_cons in Hnd. apply NoDup_cons in Hnd as [Hfresh Hnd].
    destruct (IH (pos + length (take C (drop pos data)))%nat s1)
      as (s' & Hrest & Hs' & Hframe & Hchunks).
    + rewrite Hd1, lookup_insert_ne by apply chunk_filename_ne. done.
    + by rewrite Hs1.
    + intros j Hj. apply Hok. by right.
    + done.
    + exists s'. cbn [app split_loop]. rewrite (bind_run_ok _ _ _ _ _ Hrun).
      split; [done |]. split; [congruence |]. split.
      { intros p Hp. rewrite fmap_cons in Hp. apply not_elem_of_cons in Hp as [Hp0 Hp].
        rewrite Hframe, Hd1, lookup_insert_ne by done. done. }
      intros i j Hij. destruct i as [| i]; simpl in Hij.
      * injection Hij as <-. rewrite Nat.add_0_r.
        rewrite Hframe, Hd1 by done. apply lookup_insert_eq.
      * rewrite (Hchunks i j Hij). f_equal. f_equal.
        rewrite <- (drop_drop data (i * C) (pos + length (take C (drop pos data)))).
        rewrite drop_after_read, drop_drop. f_equal. simpl. lia.
Qed.

(** X9.  A failed split leaves its chunks behind: when chunk [k] cannot be
    created while the source can be read (a chunk size that [read] accepts,
    no fault on the reads) and the earlier chunks written, [split_file]
    returns [False] with the failure counted, the source intact, the
    chunks [1 .. k-1] on disk with their data, and every other file as
    before (chunk [k] and the later ones are not created). *)
Theorem split_file_leaves_partial_chunks s file_path data (C k : nat) :
  disk s !! file_path = Some data ->
  (0 < C)%nat ->
  (Z.of_nat C <= Fs.max_read)%Z ->
  chunk_size_bytes (self s) = Z.of_nat C ->
  getsize_fails F file_path = false ->
  open_rb_fails F file_path = false ->
  (forall pos, read_fails F file_path pos = false) ->
  (1 <= k <= Spec.ceil_div (length data) C)%nat ->
  (forall j, (1 <= j < k)%nat ->
     open_wb_fails F (chunk_filename file_path j) = false /\
     write_limit F (chunk_filename file_path j) = None) ->
  open_wb_fails F (chunk_filename file_path k) = true ->
  exists s',
    split_file F file_path s = (Ok false, s') /\
    self s' = incr_failed (self s) /\
    disk s' !! file_path = Some data /\
    (forall i, (S i < k)%nat ->
       disk s' !! chunk_filename file_path (S i) = Some (Spec.chunk C data i)) /\
    (forall p, (forall i, (S i < k)%nat -> p <> chunk_filename file_path (S i)) ->
       disk s' !! p = disk s !! p).
Proof.
  intros Hdata HC Hmax Hsize Hgs Hopen Hread Hk Hok Hbad.
  set (n := Spec.ceil_div (length data) C) in *.
  assert (seq 1 n = (seq 1 (k - 1) ++ k :: seq (S k) (n - k))%list) as Hseq.
  { replace n with ((k - 1) + S (n - k))%nat at 1 by lia.
    rewrite seq_app. cbn [seq]. do 3 f_equal; lia. }
  set (s0 := {| self := self s; disk := disk s;
                logged := (logged s ++ [Splitting file_path (Z.of_nat (length data))])%list |}).
  destruct (split_loop_stops_at file_path data C k (seq (S k) (n - k)) Hmax Hread Hbad
              (seq 1 (k - 1)) 0%nat s0)
    as (s1 & Hloop & Hs1 & Hframe & Hchunks); try done.
  { intros j [Hj1 Hj2]%elem_of_seq. apply Hok. lia. }
  { apply chunk_filenames_NoDup. }
  rewrite <- Hseq in Hloop.
  assert (split_file_try F file_path s = (Raise OSError, s1)) as Htry.
  { unfold split_file_try, floordiv.
    repeat (unfold mbind at 1, M_bind at 1, bind at 1, mret, M_ret, raise, gets, modify,
              log, on_disk, Fs.getsize, Fs.open_rb;
            cbn [self disk logged];
            rewrite ?Hdata, ?Hgs, ?Hopen, ?Hsize,
              ?(proj2 (Z.eqb_neq (Z.of_nat C) 0) ltac:(lia))).
    rewrite num_chunks_ceil by done. fold n.
    match goal with
    | |- context [split_loop F file_path 0 (seq 1 n) ?st] =>
        replace st with s0 by (subst s0; destruct s; reflexivity)
    end.
    rewrite Hloop. done. }
  unfold split_file, try_except. rewrite Htry.
  unfold mbind, M_bind, bind, log, on_self, modify, mret, M_ret. cbn [self disk logged].
  eexists. split; [reflexivity |]. cbn [self disk].
  split; [by rewrite Hs1 |]. split; [| split].
  - rewrite Hframe by apply chunk_filenames_fresh. done.
  - intros i Hi. rewrite (Hchunks i (S i)) by (apply lookup_seq_lt; lia). done.
  - intros p Hp. rewrite Hframe; [done |].
    intros (j & -> & [Hj1 Hj2]%elem_of_seq)%list_elem_of_fmap.
    destruct j as [| i]; [lia |]. apply (Hp i); [lia | done].
Qed.

End PartialChunks.

Lemma split_file_leaves_partial_chunks_witness :
  let F := Sample.second_chunk_unwritable in
  let s := Sample.splitter_state in
  exists s',
    Splitter.split_file F "data/big.bin" s = (Ok false, s') /\
    Splitter.self s' = Splitter.incr_failed (Splitter.self s) /\
    Splitter.disk s' !! "data/big.bin" = Some Sample.ten_bytes /\
    (forall i, (S i < 2)%nat ->
       Splitter.disk s' !! Splitter.chunk_filename "data/big.bin" (S i)
         = Some (Spec.chunk 4 Sample.ten_bytes i)) /\
    (forall p,
       (forall i, (S i < 2)%nat -> p <> Splitter.chunk_filename "data/big.bin" (S i)) ->
       Splitter.disk s' !! p = Splitter.disk s !! p).
Proof.
  apply (split_file_leaves_partial_chunks Sample.second_chunk_unwritable
           Sample.splitter_state "data/big.bin" Sample.ten_bytes 4 2);
    try reflexivity; try lia.
  - by vm_compute.
  - vm_compute. lia.
  - intros j Hj. assert (j = 1%nat) as -> by lia. split; reflexivity.
Defined.

(** * Further properties of the directory filter *)

Lemma rstrip_app_slash (s : string) : PyStr.rstrip "/" (s ++ "/") = PyStr.rstrip "/" s.
Proof.
  induction s as [| a s IH]; [done |].
  change (String a s ++ "/") with (String a (s ++ "/")).
  cbn [PyStr.rstrip]. by rewrite IH.
Qed.

Lemma str_le_trans (a b c : string) :
  PyStr.str_le a b = true -> PyStr.str_le b c = true -> PyStr.str_le a c = true.
Proof.
  revert b c. induction a as [| x a IH]; intros [| y b] [| z c]; simpl; try done.
  destruct (Nat.ltb_spec (nat_of_ascii x) (nat_of_ascii y)),
           (Nat.ltb_spec (nat_of_ascii y) (nat_of_ascii x)),
           (Nat.ltb_spec (nat_of_ascii y) (nat_of_ascii z)),
           (Nat.ltb_spec (nat_of_ascii z) (nat_of_ascii y)),
           (Nat.ltb_spec (nat_of_ascii x) (nat_of_ascii z)),
           (Nat.ltb_spec (nat_of_ascii z) (nat_of_ascii x));
    try done; try lia.
  apply IH.
Qed.

Section FilterMore.

Import Downloader.

(** X10.  Trailing separators do not matter to the filter: a directory
    name with one more ['/'] is treated alike, and so are non-empty bounds
    given with one more ['/'] ([--start-dir h] and [--start-dir h/] select
    the same directories). *)
Theorem should_process_directory_trailing_slash
    (url out st en d : string) (o : UbuntuPortsDownloader) :
  st <> "" -> en <> "" ->
  should_process_directory o (d ++ "/") = should_process_directory o d /\
  should_process_directory (init url out (Some (st ++ "/")) (Some (en ++ "/"))) d
    = should_process_directory (init url out (Some st) (Some en)) d /\
  should_process_directory (init url out (Some (st ++ "/")) None) d
    = should_process_directory (init url out (Some st) None) d /\
  should_process_directory (init url out None (Some (en ++ "/"))) d
    = should_process_directory (init url out None (Some en)) d.
Proof.
  intros Hst Hen.
  destruct st as [| c st]; [done |]. destruct en as [| c' en]; [done |].
  unfold should_process_directory.
  cbn [init start_dir end_dir default from_option id].
  rewrite !rstrip_app_slash. done.
Qed.

(** X11.  The directories that the filter accepts form an interval of the
    lexicographic order: a name between two accepted names is accepted. *)
Theorem should_process_directory_convex (o : UbuntuPortsDownloader) (a b c : string) :
  should_process_directory o a = true ->
  should_process_directory o c = true ->
  PyStr.str_le (PyStr.rstrip "/" a) (PyStr.rstrip "/" b) = true ->
  PyStr.str_le (PyStr.rstrip "/" b) (PyStr.rstrip "/" c) = true ->
  should_process_directory o b = true.
Proof.
  unfold should_process_directory.
  destruct (PyStr.truthy (start_dir o)), (PyStr.truthy (end_dir o));
    cbn [negb andb]; intros Ha Hc Hab Hbc.
  - apply andb_true_iff in Ha as [Ha _]. apply andb_true_iff in Hc as [_ Hc].
    apply andb_true_iff.
    split; [exact (str_le_trans _ _ _ Ha Hab) | exact (str_le_trans _ _ _ Hbc Hc)].
  - exact (str_le_trans _ _ _ Ha Hab).
  - exact (str_le_trans _ _ _ Hbc Hc).
  - done.
Qed.

End FilterMore.

Lemma should_process_directory_trailing_slash_witness :
  let o := Downloader.init "https://host/pool" "out" (Some "h") (Some "m") in
  Downloader.should_process_directory o ("k" ++ "/") = Downloader.should_process_directory o "k" /\
  Downloader.should_process_directory
    (Downloader.init "https://host/pool" "out" (Some ("h" ++ "/")) (Some ("m" ++ "/"))) "k"
    = Downloader.should_process_directory
        (Downloader.init "https://host/pool" "out" (Some "h") (Some "m")) "k" /\
  Downloader.should_process_directory
    (Downloader.init "https://host/pool" "out" (Some ("h" ++ "/")) None) "k"
    = Downloader.should_process_directory
        (Downloader.init "https://host/pool" "out" (Some "h") None) "k" /\
  Downloader.should_process_directory
    (Downloader.init "https://host/pool" "out" None (Some ("m" ++ "/"))) "k"
    = Downloader.should_process_directory
        (Downloader.init "https://host/pool" "out" None (Some "m")) "k".
Proof. by apply should_process_directory_trailing_slash. Defined.

Lemma should_process_directory_convex_witness :
  Downloader.should_process_directory
    (Downloader.init "https://host/pool" "out" (Some "h") (Some "m")) "k/" = true.
Proof.
  apply (should_process_directory_convex _ "h/" "k/" "m/"); reflexivity.
Defined.

(** * Further properties of the crawler: listings and single files *)

Lemma keep_link_spec (href : option string) (h : string) :
  Downloader.keep_link href = Some h <-> href = Some h /\ Inv.link_ok h.
Proof.
  unfold Downloader.keep_link, Inv.link_ok.
  destruct href as [h' |]; [| by split; [| intros [? _]]].
  destruct (PyStr.truthy (Some h')) eqn:Htruthy; cbn [andb].
  2:{ split; [done |]. intros [[= ->] (Hne & _)]. by destruct h. }
  destruct (bool_decide (h' ∈ ["../"; "../"; "/"; "#"])) eqn:Hin; cbn [negb andb].
  { apply bool_decide_eq_true in Hin. split; [done |].
    intros [[= ->] (_ & H1 & H2 & H3 & _)].
    rewrite !elem_of_cons in Hin. rewrite elem_of_nil in Hin.
    destruct Hin as [-> | [-> | [-> | [-> | []]]]]; done. }
  apply bool_decide_eq_false in Hin.
  rewrite !not_elem_of_cons in Hin. destruct Hin as (H1 & _ & H2 & H3 & _).
  destruct (PyStr.startswith h' "http") eqn:Hhttp; cbn [negb andb].
  { split; [done |]. intros [[= ->] (_ & _ & _ & _ & Hh & _)]. congruence. }
  destruct (PyStr.startswith h' "/") eqn:Hslash; cbn [negb].
  { split; [done |]. intros [[= ->] (_ & _ & _ & _ & _ & Hs)]. congruence. }
  split.
  - intros [= ->]. repeat split; try done. intros ->. done.
  - by intros [[= ->] _].
Qed.

Section ListingAndFiles.

Import Downloader Inv.

Variable F : Faults.
Variable R : Remote.
Variable py_int : string -> option Z.

Implicit Types (s : State) (url p : string).

(** What [get_directory_listing] returns and does, in full. *)
Lemma get_directory_listing_run url s :
  exists lg,
    get_directory_listing R url s =
      (Ok match http_get R url with
          | Some g => if error_status g then [] else omap keep_link (hrefs g)
          | None => []
          end,
       {| self := self s; disk := disk s;
          requests := (requests s ++ [Get url])%list; logged := lg |}).
Proof.
  unfold get_directory_listing, try_except, session_get, raise_for_status.
  destruct (http_get R url) as [g |]; [destruct (error_status g) eqn:Hst |];
    repeat (unfold mbind at 1, M_bind at 1, bind at 1, mret, M_ret, raise, modify,
              log, sent;
            cbn [self disk requests logged];
            rewrite ?Hst);
    eexists; reflexivity.
Qed.

(** X12.  [get_directory_listing] never raises, sends exactly one [GET]
    and touches neither the disk nor the counters.  The links it returns
    are exactly the [href]s of a successfully fetched page that are
    non-empty, are none of ['../'], ['/'], ['#'], and start neither with
    ['http'] nor with ['/']; a failed fetch gives no links. *)
Theorem get_directory_listing_links url s :
  exists links,
    (get_directory_listing R url s).1 = Ok links /\
    (forall h, h ∈ links <->
       exists g, http_get R url = Some g /\ error_status g = false /\
                 Some h ∈ hrefs g /\ link_ok h) /\
    self (get_directory_listing R url s).2 = self s /\
    disk (get_directory_listing R url s).2 = disk s /\
    requests (get_directory_listing R url s).2 = (requests s ++ [Get url])%list.
Proof.
  destruct (get_directory_listing_run url s) as [lg ->]. cbn [fst snd self disk requests].
  eexists. split; [reflexivity |]. split; [| done].
  intros h. destruct (http_get R url) as [g |].
  - destruct (error_status g) eqn:Hst.
    + split; [by intros ?%elem_of_nil |]. intros (g' & [= <-] & ? & _). congruence.
    + rewrite list_elem_of_omap. split.
      * intros (href & Hin & [-> Hok]%keep_link_spec). eauto.
      * intros (g' & [= <-] & _ & Hin & Hok). exists (Some h).
        split; [done |]. by apply keep_link_spec.
  - split; [by intros ?%elem_of_nil |]. by intros (g' & ? & _).
Qed.

(** The check of the existing file, whatever it finds. *)
Lemma already_complete_inv url p s r s' :
  already_complete F R py_int url p s = (r, s') ->
  match r with
  | Ok true => self s' = incr_skipped (self s)
  | _ => self s' = self s
  end.
Proof.
  unfold already_complete.
  unfold mbind at 1, M_bind at 1, bind at 1, gets at 1.
  destruct (disk s !! p) as [data |]; [| by intros [= <- <-]].
  intros H.
  apply bind_inv in H as [(n & s1 & H1 & H) | (e & H1 & ->)];
    apply on_disk_inv in H1 as (Hs1 & _); [| done].
  apply bind_inv in H as [(hr & s2 & H2 & H) | (e & H2 & ->)].
  2:{ unfold session_head, mbind, M_bind, bind, sent, modify in H2.
      destruct (http_head R url); injection H2 as _ <-; done. }
  assert (self s2 = self s) as Hs2.
  { unfold session_head, mbind, M_bind, bind, sent, modify in H2.
    destruct (http_head R url); injection H2 as _ <-; done. }
  apply bind_inv in H as [(m & s3 & [-> _]%header_int_inv & H)
                         | (e & [-> _]%header_int_inv & ->)]; [| done].
  destruct (_ =? _)%Z; [| by injection H as <- <-].
  unfold mbind, M_bind, bind, log, on_self, modify, mret, M_ret in H.
  injection H as <- <-. cbn [self]. congruence.
Qed.

Lemma download_file_inv url p s r s' :
  download_file F R py_int url p s = (r, s') ->
  (r = Ok true /\ self s' = incr_downloaded (self s)) \/
  (r = Ok true /\ self s' = incr_skipped (self s)) \/
  (r = Ok false /\ self s' = incr_failed (self s)).
Proof.
  unfold download_file, try_except, download_file_try.
  unfold mbind at 1, M_bind at 1, bind at 1.
  destruct (already_complete F R py_int url p s) as [[[|] | e] s1] eqn:Hac;
    apply already_complete_inv in Hac.
  - intros [= <- <-]. right. left. done.
  - destruct (transfer F R py_int url p s1) as [[b | e] s2] eqn:Htr;
      apply transfer_inv in Htr as [_ Hself].
    + destruct Hself as [-> Hself]. intros [= <- <-]. left. split; [done | congruence].
    + unfold mbind, M_bind, bind, log, on_self, modify, mret, M_ret.
      intros [= <- <-]. right. right. cbn [self]. split; [done | congruence].
  - unfold mbind, M_bind, bind, log, on_self, modify, mret, M_ret.
    intros [= <- <-]. right. right. cbn [self]. split; [done | congruence].
Qed.

(** X13.  [download_file] never raises and every call counts exactly once:
    it returns [True] with either the download counter or the skip counter
    one higher, or [False] with the failure counter one higher; the other
    two counters and the configuration of the object are as before. *)
Theorem download_file_counts_once url p s :
  let run := download_file F R py_int url p s in
  (run.1 = Ok true /\ Spec.counted (self s) (self run.2) 1 0 0) \/
  (run.1 = Ok true /\ Spec.counted (self s) (self run.2) 0 1 0) \/
  (run.1 = Ok false /\ Spec.counted (self s) (self run.2) 0 0 1).
Proof.
  intros run. subst run.
  destruct (download_file F R py_int url p s) as [r s'] eqn:Hrun.
  cbn [fst snd].
  destruct (download_file_inv url p s r s' Hrun) as [[-> ->] | [[-> ->] | [-> ->]]].
  - left. split; [done | apply counted_incr_downloaded].
  - right. left. split; [done | apply counted_incr_skipped].
  - right. right. split; [done | apply counted_incr_failed].
Qed.

(** X14.  When the file is not there and the [GET] raises, answers with a
    4xx or 5xx status, or carries a [content-length] that is not an
    integer, [download_file] fails before it creates anything: it returns
    [False], counts the failure, has sent the one [GET], and the disk is as
    it was (no empty file is left). *)
Theorem download_file_early_failure url p s :
  disk s !! p = None ->
  (http_get R url = None \/
   exists g, http_get R url = Some g /\
             (error_status g = true \/ header_value py_int g = None)) ->
  exists s',
    download_file F R py_int url p s = (Ok false, s') /\
    self s' = incr_failed (self s) /\
    disk s' = disk s /\
    requests s' = (requests s ++ [Get url])%list.
Proof.
  intros Hnone Hbad.
  unfold download_file, try_except, download_file_try.
  unfold mbind at 1, M_bind at 1, bind at 1.
  rewrite (already_complete_absent F R py_int url p s Hnone).
  unfold transfer, session_get, raise_for_status, header_int.
  destruct Hbad as [Hget | (g & Hget & [Hst | Hhv])];
    [| | destruct (error_status g) eqn:Hst];
    repeat (unfold mbind at 1, M_bind at 1, bind at 1, mret, M_ret, raise, modify,
              log, sent, on_self;
            cbn [self disk requests logged];
            rewrite ?Hget, ?Hst, ?Hhv);
    eexists; (split; [reflexivity |]); done.
Qed.

End ListingAndFiles.

Section Resume.

Import Downloader Inv.

Variable F : Faults.
Variable py_int : string -> option Z.

Implicit Types (s : State) (url p : string) (R : Remote).

(** A transfer whose stream breaks: what was received stays in the file. *)
Lemma transfer_interrupted R url p s g :
  http_get R url = Some g ->
  error_status g = false ->
  is_Some (header_value py_int g) ->
  complete g = false ->
  PosixPath.dirname p <> "" ->
  makedirs_fails F (PosixPath.dirname p) = false ->
  open_wb_fails F p = false ->
  write_limit F p = None ->
  transfer F R py_int url p s =
    (Raise RequestException,
     {| self := self s;
        disk := <[p := concat (chunks g)]> (disk s);
        requests := (requests s ++ [Get url])%list;
        logged := (logged s ++ [Downloading url])%list |}).
Proof.
  intros Hget Hstatus [n Hn] Hcomplete Hdir Hmk Hopen Hlim.
  unfold transfer, session_get, raise_for_status, header_int.
  destruct (PosixPath.dirname p) as [| c dir] eqn:Hdirname; [done |].
  repeat (unfold mbind at 1, M_bind at 1, bind at 1, mret, M_ret, raise, gets, modify,
            log, sent, on_self, on_disk, Fs.makedirs, Fs.open_wb;
          cbn [self disk requests logged];
          rewrite ?Hget, ?Hstatus, ?Hn, ?Hcomplete, ?Hmk, ?Hopen).
  rewrite (write_chunks_run F p (chunks g) Hlim _ _ _ _ _ []) by apply lookup_insert_eq.
  cbn [self disk requests logged app].
  by rewrite insert_insert_eq.
Qed.

(** X15.  An interrupted download is repaired by the next run: when the
    stream of a missing file breaks, [download_file] fails and leaves the
    bytes received in the local file; a later call, against a remote that
    declares a size different from that of the partial file and serves the
    whole body, fetches the file again and replaces the partial content by
    the body. *)
Theorem download_file_resumes_after_interruption R1 R2 url p s g1 g2 hr n :
  disk s !! p = None ->
  PosixPath.dirname p <> "" ->
  makedirs_fails F (PosixPath.dirname p) = false ->
  open_wb_fails F p = false ->
  write_limit F p = None ->
  getsize_fails F p = false ->
  http_get R1 url = Some g1 -> error_status g1 = false ->
  is_Some (header_value py_int g1) -> complete g1 = false ->
  http_head R2 url = Some hr -> header_value py_int hr = Some n ->
  n <> Z.of_nat (length (concat (chunks g1))) ->
  http_get R2 url = Some g2 -> error_status g2 = false ->
  is_Some (header_value py_int g2) -> complete g2 = true ->
  exists s1 s2,
    download_file F R1 py_int url p s = (Ok false, s1) /\
    disk s1 !! p = Some (concat (chunks g1)) /\
    self s1 = incr_failed (self s) /\
    download_file F R2 py_int url p s1 = (Ok true, s2) /\
    disk s2 !! p = Some (concat (chunks g2)) /\
    self s2 = incr_downloaded (self s1) /\
    (forall q, q <> p -> disk s2 !! q = disk s !! q).
Proof.
  intros Hnone Hdir Hmk Hopen Hlim Hgs Hget1 Hst1 Hhv1 Hc1 Hhead Hn Hne Hget2 Hst2 Hhv2 Hc2.
  eexists _, _. split; [| split; [| split; [| split]]].
  - unfold download_file, try_except, download_file_try.
    unfold mbind at 1, M_bind at 1, bind at 1.
    rewrite (already_complete_absent F R1 py_int url p s Hnone).
    rewrite (transfer_interrupted R1 url p s g1) by done.
    unfold mbind, M_bind, bind, log, on_self, modify, mret, M_ret.
    cbn [self disk requests logged]. reflexivity.
  - cbn [disk]. apply lookup_insert_eq.
  - done.
  - unfold download_file, try_except, download_file_try.
    unfold mbind at 1, M_bind at 1, bind at 1.
    rewrite (already_complete_run F R2 py_int url p _ (concat (chunks g1)))
      by (try done; cbn [disk]; apply lookup_insert_eq).
    rewrite Hhead, Hn, (proj2 (Z.eqb_neq _ _) (not_eq_sym Hne)).
    rewrite (transfer_succeeds F R2 py_int url p _ g2) by done.
    reflexivity.
  - cbn [self disk]. split; [apply lookup_insert_eq |]. split; [done |].
    intros q Hq. by rewrite !lookup_insert_ne.
Qed.

End Resume.

(** ** Where a joined path leads *)

Lemma split_cons (c a : ascii) (s : string) :
  PyStr.split c (String a s) =
  if Ascii.eqb a c then EmptyString :: PyStr.split c s
  else
    match PyStr.split c s with
    | seg :: rest => String a seg :: rest
    | [] => [String a EmptyString]
    end.
Proof. reflexivity. Qed.

Lemma split_not_nil (c : ascii) (s : string) : PyStr.split c s <> [].
Proof.
  induction s as [| a s IH]; [done |].
  rewrite split_cons. destruct (Ascii.eqb a c); [done |].
  by destruct (PyStr.split c s).
Qed.

Lemma split_app (c : ascii) (a b : string) :
  PyStr.split c (a ++ String c b) = (PyStr.split c a ++ PyStr.split c b)%list.
Proof.
  induction a as [| x a IH].
  - change ("" ++ String c b) with (String c b).
    by rewrite split_cons, Ascii.eqb_refl.
  - change (String x a ++ String c b) with (String x (a ++ String c b)).
    rewrite !split_cons, IH. destruct (Ascii.eqb x c); [done |].
    pose proof (split_not_nil c a). by destruct (PyStr.split c a).
Qed.

Lemma startswith_app_nonempty (a b p : string) :
  (String.length p <= 1)%nat -> a <> "" ->
  PyStr.startswith (a ++ b) p = PyStr.startswith a p.
Proof.
  intros Hp Ha. destruct a as [| x a]; [done |].
  destruct p as [| y [| z p]]; [done | | simpl in Hp; lia].
  change (String x a ++ b) with (String x (a ++ b)). cbn [PyStr.startswith].
  by destruct (a ++ b), a.
Qed.

Lemma rev_app_slash_inv (s : string) : forall acc,
  s <> "" -> PyStr.startswith (String.rev_app s acc) "/" = true ->
  exists s', s = s' ++ "/".
Proof.
  induction s as [| c s IH]; intros acc Hne; [done |].
  cbn [String.rev_app]. destruct (decide (s = "")) as [-> | Hs].
  - cbn [String.rev_app PyStr.startswith].
    destruct (Ascii.eqb_spec "/" c) as [<- |]; [| done].
    intros _. by exists "".
  - intros H. destruct (IH _ Hs H) as [s' ->]. by exists (String c s').
Qed.

Lemma endswith_slash_inv (s : string) :
  PyStr.endswith s "/" = true -> exists s', s = s' ++ "/".
Proof.
  unfold PyStr.endswith, String.rev. destruct s as [| c s]; [done |].
  by apply rev_app_slash_inv.
Qed.

Lemma walk_empty (l : list string) : Spec.walk l "" = l.
Proof. reflexivity. Qed.

(** Where [os.path.join(a, rel)] leads: where [rel] leads from [a]. *)
Lemma location_join (cwd : list string) (a rel : string) :
  PyStr.startswith rel "/" = false ->
  Spec.location cwd (PosixPath.join a rel)
    = fold_left Spec.walk (PyStr.split "/" rel) (Spec.location cwd a).
Proof.
  intros Hrel. unfold PosixPath.join. rewrite Hrel.
  destruct a as [| x a].
  { cbn [String.length Nat.eqb orb]. change ("" ++ rel) with rel.
    unfold Spec.location. rewrite Hrel. reflexivity. }
  cbn [String.length Nat.eqb orb].
  destruct (PyStr.endswith (String x a) "/") eqn:Hend.
  - destruct (endswith_slash_inv _ Hend) as [a' Ha'].
    unfold Spec.location.
    rewrite (startswith_app_nonempty (String x a) rel "/") by (simpl; lia || done).
    rewrite Ha', string_app_assoc.
    change ("/" ++ rel) with (String "/" rel).
    change (a' ++ "/") with (a' ++ String "/" "").
    rewrite !split_app, !fold_left_app. reflexivity.
  - unfold Spec.location.
    rewrite (startswith_app_nonempty (String x a) ("/" ++ rel) "/") by (simpl; lia || done).
    change ("/" ++ rel) with (String "/" rel).
    by rewrite split_app, fold_left_app.
Qed.

(** A path without ['..'] only leads down. *)
Lemma walk_down (components : list string) : forall at_,
  ".." ∉ components -> at_ `prefix_of` fold_left Spec.walk components at_.
Proof.
  induction components as [| c components IH]; intros at_ Hup; [done |].
  apply not_elem_of_cons in Hup as [Hc Hup]. cbn [fold_left].
  etrans; [| by apply IH].
  unfold Spec.walk. destruct (_ || _); [done |].
  destruct (String.eqb_spec c ".."); [done |].
  by apply prefix_app_r.
Qed.

Section LocalPathMore.

Import Downloader.

Variable urlparse_path : string -> string.

(** X16.  Below the literal pool root the mapping is the intended one: a
    URL whose path is ["/ubuntu-ports/pool/universe/"] followed by [rest]
    is mapped to the output root joined with [rest] (only the leading
    occurrence of the prefix is removed); and when [rest] is relative and
    has no ['..'] among its components, the result lies in the output
    directory, whatever the working directory is. *)
Theorem get_local_path_under_pool_root (o : UbuntuPortsDownloader) (url rest : string) :
  urlparse_path url = "/ubuntu-ports/pool/universe/" ++ rest ->
  get_local_path urlparse_path o url = PosixPath.join (output_dir o) rest /\
  (PyStr.startswith rest "/" = false ->
   ".." ∉ PyStr.split "/" rest ->
   forall cwd, Spec.inside cwd (output_dir o) (get_local_path urlparse_path o url)).
Proof.
  intros Hpath.
  assert (get_local_path urlparse_path o url = PosixPath.join (output_dir o) rest) as Heq.
  { unfold get_local_path. rewrite Hpath.
    by rewrite startswith_app, replace_first_prefix. }
  split; [done |]. intros Hrel Hup cwd. unfold Spec.inside.
  rewrite Heq, location_join by done. by apply walk_down.
Qed.

End LocalPathMore.

(** A path below the pool root that climbs out of the output directory. *)
Example get_local_path_climbs_out :
  let o := Downloader.init "https://ports.ubuntu.com/ubuntu-ports/pool/universe" "out" None None in
  let url := "https://ports.ubuntu.com/ubuntu-ports/pool/universe/../../etc/passwd" in
  Downloader.get_local_path LibModel.urlparse_path o url = "out/../../etc/passwd" /\
  ~ Spec.inside ["home"; "user"] (Downloader.output_dir o)
      (Downloader.get_local_path LibModel.urlparse_path o url).
Proof.
  intros o url. split; [reflexivity |].
  intros [k Hk]. vm_compute in Hk. discriminate Hk.
Qed.

Lemma download_file_resumes_after_interruption_witness :
  let s := Sample.crawler_state in
  exists s1 s2,
    Downloader.download_file no_faults Sample.remote_broken LibModel.decimal_int
      Sample.file_url Sample.local_path s = (Ok false, s1) /\
    Downloader.disk s1 !! Sample.local_path
      = Some (concat (Downloader.chunks Sample.broken_response)) /\
    Downloader.self s1 = Downloader.incr_failed (Downloader.self s) /\
    Downloader.download_file no_faults Sample.remote LibModel.decimal_int
      Sample.file_url Sample.local_path s1 = (Ok true, s2) /\
    Downloader.disk s2 !! Sample.local_path
      = Some (concat (Downloader.chunks Sample.file_response)) /\
    Downloader.self s2 = Downloader.incr_downloaded (Downloader.self s1) /\
    (forall q, q <> Sample.local_path ->
       Downloader.disk s2 !! q = Downloader.disk s !! q).
Proof.
  apply (download_file_resumes_after_interruption no_faults LibModel.decimal_int
           Sample.remote_broken Sample.remote Sample.file_url Sample.local_path
           Sample.crawler_state Sample.broken_response Sample.file_response
           Sample.file_response 10);
    try reflexivity; try (by eexists); done.
Defined.

Lemma get_local_path_under_pool_root_witness :
  let o := Downloader.init "https://ports.ubuntu.com/ubuntu-ports/pool/universe" "out/" None None in
  Downloader.get_local_path LibModel.urlparse_path o Sample.file_url
    = PosixPath.join (Downloader.output_dir o) "h/htop/htop_3.0.5.deb" /\
  (PyStr.startswith "h/htop/htop_3.0.5.deb" "/" = false ->
   ".." ∉ PyStr.split "/" "h/htop/htop_3.0.5.deb" ->
   forall cwd,
     Spec.inside cwd (Downloader.output_dir o)
       (Downloader.get_local_path LibModel.urlparse_path o Sample.file_url)).
Proof. apply get_local_path_under_pool_root. reflexivity. Defined.

Lemma download_file_early_failure_witness :
  exists s',
    Downloader.download_file no_faults Sample.remote LibModel.decimal_int
      "https://ports.ubuntu.com/missing.deb" "out/missing.deb" Sample.crawler_state
    = (Ok false, s') /\
    Downloader.self s' = Downloader.incr_failed (Downloader.self Sample.crawler_state) /\
    Downloader.disk s' = Downloader.disk Sample.crawler_state /\
    Downloader.requests s'
      = (Downloader.requests Sample.crawler_state
         ++ [Downloader.Get "https://ports.ubuntu.com/missing.deb"])%list.
Proof.
  apply download_file_early_failure; [reflexivity | left; reflexivity].
Defined.

(** * Further properties of the traversal *)

Section CrawlMore.

Import Downloader Inv.

Variable F : Faults.
Variable R : Remote.
Variable py_int : string -> option Z.
Variable urlparse_path : string -> string.
Variable urljoin : string -> string -> option string.

Implicit Types (s : State) (url p : string).

(** X17.  A directory whose listing cannot be fetched, or has no link that
    passes the link test, is skipped and nothing is counted: for a depth
    within the cap the call sends the one [GET], logs that no links were
    found, and leaves the disk and all three counters as they were. *)
Theorem crawl_and_download_skips_unlistable fuel url depth s :
  (depth <= 20)%Z ->
  (http_get R url = None \/
   exists g, http_get R url = Some g /\
             (error_status g = true \/ omap keep_link (hrefs g) = [])) ->
  exists s',
    crawl_and_download F R py_int urlparse_path urljoin (S fuel) url depth s
      = Some (Ok tt, s') /\
    self s' = self s /\
    disk s' = disk s /\
    requests s' = (requests s ++ [Get url])%list /\
    last (logged s') = Some (NoLinks depth url).
Proof.
  intros Hdepth Hbad. cbn [crawl_and_download].
  rewrite (proj2 (Z.ltb_ge 20 depth) Hdepth).
  unfold mbind at 1, MF_bind at 1, lift at 1, log at 1, modify.
  match goal with
  | |- context [lift (get_directory_listing R url) ≫= _] =>
      unfold mbind at 1, MF_bind at 1, lift at 1
  end.
  match goal with
  | |- context [get_directory_listing R url ?st] =>
      destruct (get_directory_listing_run R url st) as [lg ->]
  end.
  assert (match http_get R url with
          | Some g => if error_status g then [] else omap keep_link (hrefs g)
          | None => []
          end = []) as ->.
  { destruct Hbad as [-> | (g & -> & [-> | Hnone])]; [done | done |].
    by destruct (error_status g). }
  unfold lift, log, modify. cbn [self disk requests logged].
  eexists. split; [reflexivity |]. cbn [self disk requests logged].
  repeat split; try done. apply last_snoc.
Qed.

(** The loop over links that are all first-level directories outside the
    range sends nothing and changes nothing but the log. *)
Lemma for_links_filtered (crawl : string -> Z -> MF unit) url o links :
  Forall (fun l => is_directory l = true /\ should_process_directory o l = false /\
                   is_Some (urljoin (url ++ "/") l)) links ->
  forall s, self s = o ->
    exists s',
      for_links links (process_link F R py_int urlparse_path urljoin crawl url 0) s
        = Some (Ok tt, s') /\
      self s' = self s /\ disk s' = disk s /\ requests s' = requests s.
Proof.
  induction 1 as [| l links (Hdir & Hout & [u Hjoin]) _ IH]; intros s Hs.
  - exists s. done.
  - destruct (IH {| self := self s; disk := disk s; requests := requests s;
                    logged := (logged s ++ [SkippingFiltered 0 l])%list |})
      as (s' & Hrun & Hs' & Hd' & Hr'); [done |].
    assert (process_link F R py_int urlparse_path urljoin crawl url 0 l s =
            Some (Ok tt, {| self := self s; disk := disk s; requests := requests s;
                            logged := (logged s ++ [SkippingFiltered 0 l])%list |}))
      as Hstep.
    { rewrite process_link_unfold, Hjoin, Hdir. subst o. by rewrite Hout. }
    exists s'. cbn [for_links].
    rewrite (mf_bind_run _ _ _ _ _ Hstep). done.
Qed.

(** X18.  The range filter keeps the crawl out of the first-level
    directories it rejects: when every link of the root page is a directory
    outside the range, and [urljoin] returns on each of them (it is called
    before the filter), the crawl from depth 0 sends only the [GET] of the
    root listing and leaves the disk and the counters as they were. *)
Theorem crawl_and_download_filtered_root fuel url s g :
  http_get R url = Some g ->
  error_status g = false ->
  Forall (fun l => is_directory l = true /\ should_process_directory (self s) l = false /\
                   is_Some (urljoin (url ++ "/") l))
    (omap keep_link (hrefs g)) ->
  exists s',
    crawl_and_download F R py_int urlparse_path urljoin (S fuel) url 0 s
      = Some (Ok tt, s') /\
    self s' = self s /\
    disk s' = disk s /\
    requests s' = (requests s ++ [Get url])%list.
Proof.
  intros Hget Hst Hall. cbn [crawl_and_download Z.ltb Z.compare].
  unfold mbind at 1, MF_bind at 1, lift at 1, log at 1, modify.
  match goal with
  | |- context [lift (get_directory_listing R url) ≫= _] =>
      unfold mbind at 1, MF_bind at 1, lift at 1
  end.
  match goal with
  | |- context [get_directory_listing R url ?st] =>
      destruct (get_directory_listing_run R url st) as [lg ->]
  end.
  rewrite Hget, Hst. cbn [self disk requests logged].
  destruct (omap keep_link (hrefs g)) as [| l links] eqn:Hlinks.
  { unfold lift, log, modify. eexists. split; [reflexivity |]. done. }
  match goal with
  | |- context [for_links _ _ ?st] =>
      destruct (for_links_filtered
                  (crawl_and_download F R py_int urlparse_path urljoin fuel)
                  url (self s) (l :: links) Hall st eq_refl)
        as (s' & Hrun & Hs' & Hd' & Hr')
  end.
  exists s'. split; [exact Hrun |]. done.
Qed.

End CrawlMore.

Lemma crawl_and_download_skips_unlistable_witness :
  exists s',
    Downloader.crawl_and_download no_faults Sample.remote LibModel.decimal_int
      LibModel.urlparse_path LibModel.urljoin 1
      "https://ports.ubuntu.com/nowhere" 3 Sample.crawler_state
      = Some (Ok tt, s') /\
    Downloader.self s' = Downloader.self Sample.crawler_state /\
    Downloader.disk s' = Downloader.disk Sample.crawler_state /\
    Downloader.requests s'
      = (Downloader.requests Sample.crawler_state
         ++ [Downloader.Get "https://ports.ubuntu.com/nowhere"])%list /\
    last (Downloader.logged s')
      = Some (Downloader.NoLinks 3 "https://ports.ubuntu.com/nowhere").
Proof.
  apply crawl_and_download_skips_unlistable; [lia | left; reflexivity].
Defined.

Lemma crawl_and_download_filtered_root_witness :
  exists s',
    Downloader.crawl_and_download no_faults Sample.remote_root LibModel.decimal_int
      LibModel.urlparse_path LibModel.urljoin 1 Sample.root_url 0
      Sample.crawler_state_ranged
      = Some (Ok tt, s') /\
    Downloader.self s' = Downloader.self Sample.crawler_state_ranged /\
    Downloader.disk s' = Downloader.disk Sample.crawler_state_ranged /\
    Downloader.requests s'
      = (Downloader.requests Sample.crawler_state_ranged
         ++ [Downloader.Get Sample.root_url])%list.
Proof.
  apply (crawl_and_download_filtered_root no_faults Sample.remote_root
           LibModel.decimal_int LibModel.urlparse_path LibModel.urljoin 0
           Sample.root_url Sample.crawler_state_ranged Sample.root_response);
    [reflexivity | reflexivity |].
  constructor; [split; [reflexivity | split; [reflexivity | by eexists]] |].
  constructor; [split; [reflexivity | split; [reflexivity | by eexists]] |].
  constructor.
Defined.

(** * What the crawler does to the disk *)

Section Confined.

Import Downloader Inv.

Variable F : Faults.
Variable R : Remote.
Variable py_int : string -> option Z.

Implicit Types (s : State) (url p q : string) (d : gmap string bytes).

Lemma writes_only_refl p d : writes_only p d d.
Proof. by split. Qed.

Lemma writes_only_trans p d1 d2 d3 :
  writes_only p d1 d2 -> writes_only p d2 d3 -> writes_only p d1 d3.
Proof.
  intros [H12 K12] [H23 K23]. split.
  - intros q Hq. by rewrite H23, H12.
  - intros H. by apply K23, K12.
Qed.

Lemma writes_only_insert p d data : writes_only p d (<[p := data]> d).
Proof.
  split.
  - intros q Hq. by rewrite lookup_insert_ne.
  - intros _. rewrite lookup_insert_eq. by eexists.
Qed.

Lemma confined_ret {A} p (a : A) : confined p (mret a : M State A).
Proof. intros s r s' [= <- <-]. apply writes_only_refl. Qed.

Lemma confined_raise {A} p e : confined p (raise e : M State A).
Proof. intros s r s' [= <- <-]. apply writes_only_refl. Qed.

Lemma confined_gets {A} p (f : State -> A) : confined p (gets f).
Proof. intros s r s' [= <- <-]. apply writes_only_refl. Qed.

Lemma confined_log p m : confined p (log m).
Proof. intros s r s' [= <- <-]. apply writes_only_refl. Qed.

Lemma confined_sent p rq : confined p (sent rq).
Proof. intros s r s' [= <- <-]. apply writes_only_refl. Qed.

Lemma confined_on_self p f : confined p (on_self f).
Proof. intros s r s' [= <- <-]. apply writes_only_refl. Qed.

Lemma confined_bind {A B} p (m : M State A) (k : A -> M State B) :
  confined p m -> (forall a, confined p (k a)) -> confined p (m ≫= k).
Proof.
  intros Hm Hk s r s' [(a & s1 & H1 & H2) | (e & H1 & _)]%bind_inv.
  - eapply writes_only_trans; [by eapply Hm | by eapply Hk].
  - by eapply Hm.
Qed.

Lemma confined_try {A} p (m : M State A) (h : exn -> M State A) :
  confined p m -> (forall e, confined p (h e)) -> confined p (try_except m h).
Proof.
  intros Hm Hh s r s'. unfold try_except.
  destruct (m s) as [[a | e] s1] eqn:H1.
  - intros [= <- <-]. by eapply Hm.
  - intros H2. eapply writes_only_trans; [by eapply Hm | by eapply Hh].
Qed.

Lemma confined_on_disk {A} p (m : M (gmap string bytes) A) :
  (forall d r d', m d = (r, d') -> writes_only p d d') -> confined p (on_disk m).
Proof.
  intros Hm s r s'. unfold on_disk.
  destruct (m (disk s)) as [r0 d'] eqn:Hrun.
  intros [= <- <-]. cbn [disk]. by eapply Hm.
Qed.

Lemma confined_getsize p q : confined p (on_disk (Fs.getsize F q)).
Proof.
  apply confined_on_disk. intros d r d'. unfold Fs.getsize.
  destruct (d !! q); [destruct (getsize_fails F q) |];
    intros [= <- <-]; apply writes_only_refl.
Qed.

Lemma confined_makedirs p q : confined p (on_disk (Fs.makedirs F q)).
Proof.
  apply confined_on_disk. intros d r d'. unfold Fs.makedirs.
  destruct q; [| destruct (makedirs_fails F _)];
    intros [= <- <-]; apply writes_only_refl.
Qed.

Lemma confined_open_wb p : confined p (on_disk (Fs.open_wb F p)).
Proof.
  apply confined_on_disk. intros d r d'. unfold Fs.open_wb.
  destruct (open_wb_fails F p); intros [= <- <-];
    [apply writes_only_refl | apply writes_only_insert].
Qed.

Lemma confined_write p data : confined p (on_disk (Fs.write F p data)).
Proof.
  apply confined_on_disk. intros d r d'. unfold Fs.write.
  destruct (write_limit F p) as [k |]; [destruct (_ <? _)%nat |];
    intros [= <- <-]; apply writes_only_insert.
Qed.

Lemma confined_write_chunks p body : forall n, confined p (write_chunks F p body n).
Proof.
  induction body as [| chunk body IH]; intros n.
  - apply confined_ret.
  - cbn [write_chunks]. destruct chunk as [| b chunk]; [apply IH |].
    apply confined_bind; [apply confined_write | intros _; apply IH].
Qed.

Ltac confined_step :=
  first
    [ apply confined_bind; [| intros ?]
    | apply confined_try; [| intros ?]
    | apply confined_ret
    | apply confined_raise
    | apply confined_gets
    | apply confined_sent
    | apply confined_on_self
    | apply confined_log
    | apply confined_getsize
    | apply confined_makedirs
    | apply confined_open_wb
    | apply confined_write_chunks
    | match goal with |- confined _ (match ?x with _ => _ end) => destruct x end ].

Lemma confined_download_file url p : confined p (download_file F R py_int url p).
Proof.
  unfold download_file, download_file_try, already_complete, transfer,
    session_get, session_head, raise_for_status, header_int.
  repeat confined_step.
Qed.

(** X19.  [download_file] touches no file but [local_path], and a file
    that was at [local_path] is still there afterwards, whatever the
    outcome of the call. *)
Theorem download_file_only_writes_target url p s :
  let s' := (download_file F R py_int url p s).2 in
  (forall q, q <> p -> disk s' !! q = disk s !! q) /\
  (is_Some (disk s !! p) -> is_Some (disk s' !! p)).
Proof.
  intros s'. subst s'.
  destruct (download_file F R py_int url p s) as [r s'] eqn:Hrun.
  exact (confined_download_file url p s r s' Hrun).
Qed.

End Confined.

(** * The whole crawl *)

Section CrawlEffects.

Import Downloader Inv.

Variable F : Faults.
Variable R : Remote.
Variable py_int : string -> option Z.
Variable urlparse_path : string -> string.
Variable urljoin : string -> string -> option string.

Implicit Types (s : State) (url p q : string).

Lemma steady_refl o : steady o o.
Proof. unfold steady. repeat split; lia. Qed.

Lemma steady_trans o1 o2 o3 : steady o1 o2 -> steady o2 o3 -> steady o1 o3.
Proof.
  unfold steady.
  intros (? & ? & ? & ? & ? & ? & ?) (? & ? & ? & ? & ? & ? & ?).
  repeat split; (congruence || lia).
Qed.

Lemma steady_incr_downloaded o : steady o (incr_downloaded o).
Proof. unfold steady. cbn. repeat split; lia. Qed.

Lemma steady_incr_skipped o : steady o (incr_skipped o).
Proof. unfold steady. cbn. repeat split; lia. Qed.

Lemma steady_incr_failed o : steady o (incr_failed o).
Proof. unfold steady. cbn. repeat split; lia. Qed.

Lemma crawl_effect_refl s : crawl_effect s s.
Proof. split; [apply steady_refl | done]. Qed.

Lemma crawl_effect_trans s1 s2 s3 :
  crawl_effect s1 s2 -> crawl_effect s2 s3 -> crawl_effect s1 s3.
Proof.
  intros [H12 K12] [H23 K23]. split.
  - by eapply steady_trans.
  - intros q Hq. by apply K23, K12.
Qed.

Lemma crawl_effect_same s s' :
  self s' = self s -> disk s' = disk s -> crawl_effect s s'.
Proof. intros Hs Hd. split; [rewrite Hs; apply steady_refl | by rewrite Hd]. Qed.

Lemma download_file_effect url p s r s' :
  download_file F R py_int url p s = (r, s') -> crawl_effect s s'.
Proof.
  intros H. split.
  - destruct (download_file_inv F R py_int url p s r s' H)
      as [[_ ->] | [[_ ->] | [_ ->]]];
      [apply steady_incr_downloaded | apply steady_incr_skipped
      | apply steady_incr_failed].
  - intros q Hq.
    destruct (confined_download_file F R py_int url p s r s' H) as [Hne Hp].
    destruct (decide (q = p)) as [-> | Hqp]; [by apply Hp | by rewrite Hne].
Qed.

Lemma for_links_effect (body : string -> MF unit) :
  (forall link s r s', body link s = Some (r, s') -> crawl_effect s s') ->
  forall links s r s',
    for_links links body s = Some (r, s') -> crawl_effect s s'.
Proof.
  intros Hbody. induction links as [| link links IH]; intros s r s'.
  - intros [= <- <-]. apply crawl_effect_refl.
  - cbn [for_links]. unfold mbind, MF_bind.
    destruct (body link s) as [[[[] | e] s1] |] eqn:H1; [| | done].
    + intros H. eapply crawl_effect_trans; [by eapply Hbody | by eapply IH].
    + intros [= <- <-]. by eapply Hbody.
Qed.

Lemma process_link_effect (crawl : string -> Z -> MF unit) url depth :
  (forall u d s r s', crawl u d s = Some (r, s') -> crawl_effect s s') ->
  forall link s r s',
    process_link F R py_int urlparse_path urljoin crawl url depth link s = Some (r, s') ->
    crawl_effect s s'.
Proof.
  intros Hcrawl link s r s'. rewrite process_link_unfold.
  destruct (urljoin (url ++ "/") link) as [full_url |].
  2:{ intros [= <- <-]. apply crawl_effect_refl. }
  destruct (is_directory link).
  - destruct (_ && _).
    + unfold log, modify. intros [= <- <-]. by apply crawl_effect_same.
    + apply Hcrawl.
  - intros [= <- <-]. eapply download_file_effect. apply surjective_pairing.
Qed.

(** A crawl that ends, however it ends, has continued the object and left
    every local file there. *)
Lemma crawl_and_download_effect fuel : forall url depth s r s',
  crawl_and_download F R py_int urlparse_path urljoin fuel url depth s = Some (r, s') ->
  crawl_effect s s'.
Proof.
  induction fuel as [| fuel IH]; intros url depth s r s'; [done |].
  cbn [crawl_and_download]. destruct (20 <? depth)%Z.
  { unfold lift, log, modify. intros [= <- <-]. by apply crawl_effect_same. }
  unfold mbind at 1, MF_bind at 1, lift at 1, log at 1, modify.
  unfold mbind at 1, MF_bind at 1, lift at 1.
  match goal with
  | |- context [get_directory_listing R url ?st] =>
      destruct (get_directory_listing_run R url st) as [lg ->]
  end.
  cbn [self disk requests logged].
  match goal with
  | |- context [match ?l with [] => _ | _ :: _ => _ end] =>
      destruct l as [| link links]
  end.
  { unfold lift, log, modify. intros [= <- <-]. by apply crawl_effect_same. }
  intros H.
  apply (for_links_effect _ (process_link_effect _ url depth (IH))) in H.
  eapply crawl_effect_trans; [| exact H]. by apply crawl_effect_same.
Qed.

(** X20.  A crawl never loses a file, and no failed listing, download or
    disk operation ends it: with budget for the nesting it ends, normally
    or, only when a call of [urljoin] raises, on that [ValueError].  Either
    way the configuration of the object is unchanged, none of the three
    counters has decreased, and every local file that existed before the
    crawl still exists after it. *)
Theorem crawl_and_download_keeps_files fuel url depth s :
  (Z.to_nat (21 - depth) < fuel)%nat ->
  exists r s',
    crawl_and_download F R py_int urlparse_path urljoin fuel url depth s
      = Some (r, s') /\
    (r = Ok tt \/
     (r = Raise ValueError /\ exists base link, urljoin base link = None)) /\
    steady (self s) (self s') /\
    forall q, is_Some (disk s !! q) -> is_Some (disk s' !! q).
Proof.
  intros Hfuel.
  destruct (crawl_and_download_ends F R py_int urlparse_path urljoin fuel url depth s Hfuel)
    as (r & s' & Hrun & Hr & _).
  exists r, s'. split; [exact Hrun |]. split; [exact Hr |].
  exact (crawl_and_download_effect _ _ _ _ _ _ Hrun).
Qed.

(** X21.  [start] reaches its summary unless a call of [urljoin] raises:
    with budget for the nesting it either returns normally, the last line
    it logs being the summary with the counters of the object as the crawl
    left them, or ends on the [ValueError] of a [urljoin]; either way the
    configuration is unchanged and no local file is lost. *)
Theorem start_reports_counters fuel s :
  (21 < fuel)%nat ->
  exists r s',
    start F R py_int urlparse_path urljoin fuel s = Some (r, s') /\
    steady (self s) (self s') /\
    (forall q, is_Some (disk s !! q) -> is_Some (disk s' !! q)) /\
    ((r = Ok tt /\
      last (logged s')
        = Some (DownloadSummary (downloaded_count (self s')) (skipped_count (self s'))
                  (failed_count (self s')))) \/
     (r = Raise ValueError /\ exists base link, urljoin base link = None)).
Proof.
  intros Hfuel. unfold start.
  unfold mbind at 1, MF_bind at 1, lift at 1, gets at 1.
  unfold mbind at 1, MF_bind at 1, lift at 1, log at 1, modify.
  match goal with
  | |- context [crawl_and_download _ _ _ _ _ _ _ _ ≫= _] =>
      unfold mbind at 1, MF_bind at 1
  end.
  match goal with
  | |- context [crawl_and_download _ _ _ _ _ fuel ?u 0%Z ?st] =>
      destruct (crawl_and_download_ends F R py_int urlparse_path urljoin fuel u 0%Z st)
        as (r1 & s1 & Hrun & Hr1 & _); [simpl; lia |];
      rewrite Hrun;
      destruct (crawl_and_download_effect _ _ _ _ _ _ Hrun) as [Hst Hd]
  end.
  cbn [self disk] in Hst, Hd.
  destruct Hr1 as [-> | [-> Hraise]].
  - unfold mbind, MF_bind, lift, gets, log, modify.
    eexists _, _. split; [reflexivity |]. cbn [self disk logged].
    split; [exact Hst |]. split; [exact Hd |]. left. split; [done | apply last_snoc].
  - eexists _, _. split; [reflexivity |].
    split; [exact Hst |]. split; [exact Hd |]. by right.
Qed.

End CrawlEffects.

Lemma crawl_and_download_keeps_files_witness :
  let s := Sample.crawler_state_stale in
  exists r s',
    Downloader.crawl_and_download no_faults Sample.self_link_remote
      LibModel.decimal_int LibModel.urlparse_path LibModel.urljoin
      22 "https://host/pool" 0 s = Some (r, s') /\
    (r = Ok tt \/
     (r = Raise ValueError /\ exists base link, LibModel.urljoin base link = None)) /\
    Inv.steady (Downloader.self s) (Downloader.self s') /\
    forall q, is_Some (Downloader.disk s !! q) -> is_Some (Downloader.disk s' !! q).
Proof.
  apply (crawl_and_download_keeps_files no_faults Sample.self_link_remote
           LibModel.decimal_int LibModel.urlparse_path LibModel.urljoin
           22 "https://host/pool" 0 Sample.crawler_state_stale).
  simpl. lia.
Defined.

Lemma start_reports_counters_witness :
  let s := Sample.crawler_state_ranged in
  exists r s',
    Downloader.start no_faults Sample.remote_root LibModel.decimal_int
      LibModel.urlparse_path LibModel.urljoin 22 s = Some (r, s') /\
    Inv.steady (Downloader.self s) (Downloader.self s') /\
    (forall q, is_Some (Downloader.disk s !! q) -> is_Some (Downloader.disk s' !! q)) /\
    ((r = Ok tt /\
      last (Downloader.logged s')
        = Some (Downloader.DownloadSummary
                  (Downloader.downloaded_count (Downloader.self s'))
                  (Downloader.skipped_count (Downloader.self s'))
                  (Downloader.failed_count (Downloader.self s')))) \/
     (r = Raise ValueError /\ exists base link, LibModel.urljoin base link = None)).
Proof.
  apply (start_reports_counters no_faults Sample.remote_root LibModel.decimal_int
           LibModel.urlparse_path LibModel.urljoin 22 Sample.crawler_state_ranged).
  lia.
Defined.

(** * A page with one file *)

Section CrawlFile.

Import Downloader Inv.

Variable F : Faults.
Variable R : Remote.
Variable py_int : string -> option Z.
Variable urlparse_path : string -> string.
Variable urljoin : string -> string -> option string.

Implicit Types (s : State) (url p q : string).

(** A missing file on a healthy remote and disk is downloaded. *)
Lemma download_file_fresh url p s g :
  disk s !! p = None ->
  http_get R url = Some g ->
  error_status g = false ->
  is_Some (header_value py_int g) ->
  complete g = true ->
  PosixPath.dirname p <> "" ->
  makedirs_fails F (PosixPath.dirname p) = false ->
  open_wb_fails F p = false ->
  write_limit F p = None ->
  download_file F R py_int url p s =
    (Ok true,
     {| self := incr_downloaded (self s);
        disk := <[p := concat (chunks g)]> (disk s);
        requests := (requests s ++ [Get url])%list;
        logged := (logged s ++ [Downloading url;
                                Downloaded p (Z.of_nat (length (concat (chunks g))))])%list |}).
Proof.
  intros Hnone Hget Hst Hhv Hc Hdir Hmk Hopen Hlim.
  unfold download_file, try_except, download_file_try.
  unfold mbind at 1, M_bind at 1, bind at 1.
  rewrite (already_complete_absent F R py_int url p s Hnone).
  by rewrite (transfer_succeeds F R py_int url p s g).
Qed.

(** X22.  The crawl mirrors a file: on a page within the depth cap whose
    only link is a file, with the file missing locally and the remote and
    the disk healthy, the crawl fetches the listing and then the file at the
    URL that [urljoin] returns, stores the body served at the local path of
    that URL, and counts one download; nothing else on the disk changes. *)
Theorem crawl_and_download_fetches_file fuel url depth s g link full_url gf :
  let p := get_local_path urlparse_path (self s) full_url in
  urljoin (url ++ "/") link = Some full_url ->
  (depth <= 20)%Z ->
  http_get R url = Some g ->
  error_status g = false ->
  omap keep_link (hrefs g) = [link] ->
  is_directory link = false ->
  disk s !! p = None ->
  http_get R full_url = Some gf ->
  error_status gf = false ->
  is_Some (header_value py_int gf) ->
  complete gf = true ->
  PosixPath.dirname p <> "" ->
  makedirs_fails F (PosixPath.dirname p) = false ->
  open_wb_fails F p = false ->
  write_limit F p = None ->
  exists s',
    crawl_and_download F R py_int urlparse_path urljoin (S fuel) url depth s
      = Some (Ok tt, s') /\
    self s' = incr_downloaded (self s) /\
    disk s' = <[p := concat (chunks gf)]> (disk s) /\
    requests s' = (requests s ++ [Get url; Get full_url])%list.
Proof.
  intros p Hjoin Hdepth Hget Hst Hlinks Hfile Hnone Hgetf Hstf Hhvf Hcf
    Hdir Hmk Hopen Hlim.
  cbn [crawl_and_download].
  rewrite (proj2 (Z.ltb_ge 20 depth) Hdepth).
  unfold mbind at 1, MF_bind at 1, lift at 1, log at 1, modify.
  unfold mbind at 1, MF_bind at 1, lift at 1.
  match goal with
  | |- context [get_directory_listing R url ?st] =>
      destruct (get_directory_listing_run R url st) as [lg ->]
  end.
  rewrite Hget, Hst, Hlinks. cbn [self disk requests logged for_links].
  unfold mbind at 1, MF_bind at 1.
  rewrite (process_link_unfold F R py_int urlparse_path urljoin), Hjoin, Hfile.
  cbn [self]. fold p.
  rewrite (download_file_fresh full_url p _ gf) by done.
  unfold mret, MF_ret. eexists. split; [reflexivity |].
  cbn [snd self disk requests]. by rewrite <- app_assoc.
Qed.

End CrawlFile.

Lemma crawl_and_download_fetches_file_witness :
  let s := Sample.crawler_state in
  exists s',
    Downloader.crawl_and_download no_faults Sample.remote_page LibModel.decimal_int
      LibModel.urlparse_path LibModel.urljoin 1 Sample.dir_url 3 s
      = Some (Ok tt, s') /\
    Downloader.self s' = Downloader.incr_downloaded (Downloader.self s) /\
    Downloader.disk s'
      = <[Sample.local_path := concat (Downloader.chunks Sample.file_response)]>
          (Downloader.disk s) /\
    Downloader.requests s'
      = (Downloader.requests s
         ++ [Downloader.Get Sample.dir_url; Downloader.Get Sample.file_url])%list.
Proof.
  apply (crawl_and_download_fetches_file no_faults Sample.remote_page
           LibModel.decimal_int LibModel.urlparse_path LibModel.urljoin 0
           Sample.dir_url 3 Sample.crawler_state Sample.page_response
           "htop_3.0.5.deb" Sample.file_url Sample.file_response);
    try reflexivity; try (by eexists); try lia; done.
Defined.
